(** * gfnmixtures: reward aggregation, conditioning and the training step

    A shallow embedding of [src/gflownet/tasks/seh_frag.py],
    [src/gflownet/tasks/seh_frag_moo.py],
    [src/gflownet/models/kmeans_classifier.py] and [job.py].

    Conventions of the embedding.
    - Tensor entries are exact rationals ([Qc], canonical fractions, so that
      equality is Leibniz equality) extended with a [NaN]; rounding and
      infinities of the float32 arithmetic are outside the model.
    - A Python exception is a value [Raise e] of the [result] type; a normal
      return is [Ok v].
    - A tensor is its shape together with its entries in row-major order.
    - The external collaborators (graph conversion, the affinity proxy, the
      chemistry descriptors, the k-means artefact, the random generator, the
      optimiser) are Section variables: the theorems hold for every choice. *)

From Stdlib Require Import QArith Qcanon Lqa.
From stdpp Require Import base decidable option list numbers strings gmap.

(** ** Numbers *)

Definition qc (n : Z) (d : positive) : Qc := Q2Qc (n # d).

Definition Qcleb (a b : Qc) : bool := Qle_bool (this a) (this b).
Definition Qcltb (a b : Qc) : bool := negb (Qcleb b a).

Definition Qcmax (a b : Qc) : Qc := if Qcleb a b then b else a.
Definition Qcmin (a b : Qc) : Qc := if Qcleb a b then a else b.

(** A tensor entry: a number or NaN. *)
Inductive fval : Type :=
  | NaN
  | Num (q : Qc).

Global Instance fval_eq_dec : EqDecision fval.
Proof. solve_decision. Defined.

Global Instance fval_inhabited : Inhabited fval := populate NaN.

Definition isnan (x : fval) : bool :=
  match x with NaN => true | Num _ => false end.

Definition isfinite (x : fval) : bool := negb (isnan x).

Definition lift2 (f : Qc → Qc → Qc) (x y : fval) : fval :=
  match x, y with
  | Num a, Num b => Num (f a b)
  | _, _ => NaN
  end.

Definition fadd : fval → fval → fval := lift2 Qcplus.
Definition fsub : fval → fval → fval := lift2 Qcminus.
Definition fmul : fval → fval → fval := lift2 Qcmult.

(** Division; a zero denominator gives no number (a float gives an infinity
    or NaN there). *)
Definition fdiv (x y : fval) : fval :=
  match x, y with
  | Num a, Num b => if bool_decide (b = 0%Qc) then NaN else Num (a / b)%Qc
  | _, _ => NaN
  end.

(** [x.clamp(min=lo)]: NaN stays NaN. *)
Definition fclamp_min (lo : Qc) (x : fval) : fval :=
  match x with
  | NaN => NaN
  | Num a => Num (Qcmax a lo)
  end.

(** [x.clip(lo, hi)], that is [min(max(x, lo), hi)]: NaN stays NaN. *)
Definition fclip (lo hi : Qc) (x : fval) : fval :=
  match x with
  | NaN => NaN
  | Num a => Num (Qcmin (Qcmax a lo) hi)
  end.

(** [x[x.isnan()] = 0] on one entry. *)
Definition nan_to_zero (x : fval) : fval :=
  if isnan x then Num 0%Qc else x.

(** The logarithm is taken as a function [ln] on the positive rationals; at a
    non-positive argument the float result is not a number. *)
Definition flog (ln : Qc → Qc) (x : fval) : fval :=
  match x with
  | NaN => NaN
  | Num a => if Qcltb 0%Qc a then Num (ln a) else NaN
  end.

Definition fsum (l : list fval) : fval := foldl fadd (Num 0%Qc) l.

(** ** Exceptions *)

Inductive exn : Type :=
  | AssertionError
  | AttributeError
  | IndexError
  | KeyError
  | RuntimeError
  | TypeError
  | UnboundLocalError
  | ValueError.

Global Instance exn_eq_dec : EqDecision exn.
Proof. solve_decision. Defined.

Inductive result (A : Type) : Type :=
  | Ok (a : A)
  | Raise (e : exn).
Global Arguments Ok {A} a.
Global Arguments Raise {A} e.

Global Instance result_eq_dec {A} `{EqDecision A} : EqDecision (result A).
Proof. solve_decision. Defined.

Global Instance result_ret : MRet result := λ A a, Ok a.
Global Instance result_bind : MBind result := λ A B f m,
  match m with
  | Ok a => f a
  | Raise e => Raise e
  end.

Definition assert (b : bool) : result unit :=
  if b then Ok () else Raise AssertionError.

Definition returns {A} (m : result A) : bool :=
  match m with Ok _ => true | Raise _ => false end.

(** ** Tensors *)

Record tensor : Type := mkTensor {
  shape : list nat;
  data : list fval;
}.

Global Instance tensor_eq_dec : EqDecision tensor.
Proof. solve_decision. Defined.

Definition numel (s : list nat) : nat := foldr Nat.mul 1 s.

Definition wf (t : tensor) : Prop := length (data t) = numel (shape t).

Definition full (s : list nat) (x : fval) : tensor :=
  mkTensor s (replicate (numel s) x).

Definition zeros (s : list nat) : tensor := full s (Num 0%Qc).
Definition ones (s : list nat) : tensor := full s (Num 1%Qc).

Definition tmap (f : fval → fval) (t : tensor) : tensor :=
  mkTensor (shape t) (f <$> data t).

(** [t.squeeze()]: every dimension of size one is removed. *)
Definition squeeze (t : tensor) : tensor :=
  mkTensor (filter (λ d, d ≠ 1) (shape t)) (data t).

(** [t.reshape((-1, 1))] and [t.reshape((-1,))]. *)
Definition reshape_col (t : tensor) : tensor :=
  mkTensor [length (data t); 1] (data t).
Definition reshape_flat (t : tensor) : tensor :=
  mkTensor [length (data t)] (data t).

(** Broadcasting of two shapes, aligned at the trailing dimension; the
    function works on the reversed shapes. *)
Fixpoint broadcast_rev (a b : list nat) : option (list nat) :=
  match a, b with
  | [], _ => Some b
  | _, [] => Some a
  | x :: a', y :: b' =>
      r ← broadcast_rev a' b';
      if decide (x = y) then Some (x :: r)
      else if decide (x = 1) then Some (y :: r)
      else if decide (y = 1) then Some (x :: r)
      else None
  end.

Definition broadcast_shapes (a b : list nat) : option (list nat) :=
  reverse <$> broadcast_rev (reverse a) (reverse b).

(** Row-major offset, in a tensor of (reversed) shape [src], of the entry
    read for the flat index [i] of the broadcast result of (reversed) shape
    [out]: a dimension of size one is read at coordinate 0. *)
Fixpoint src_offset (out src : list nat) (i stride : nat) : nat :=
  match out, src with
  | d :: out', e :: src' =>
      (if decide (e = 1) then 0 else (i mod d) * stride)
      + src_offset out' src' (i / d) (stride * e)
  | _, _ => 0
  end.

Definition bget (out : list nat) (t : tensor) (i : nat) : fval :=
  data t !!! src_offset (reverse out) (reverse (shape t)) i 1.

(** [a * b] with broadcasting; shapes that do not broadcast raise. *)
Definition tmul (a b : tensor) : result tensor :=
  match broadcast_shapes (shape a) (shape b) with
  | None => Raise RuntimeError
  | Some s =>
      Ok (mkTensor s ((λ i, fmul (bget s a i) (bget s b i)) <$> seq 0 (numel s)))
  end.

(** [t.sum(1)]: the second dimension is summed out. *)
Definition tsum1 (t : tensor) : result tensor :=
  match shape t with
  | d0 :: d1 :: rest =>
      let inner := numel rest in
      Ok (mkTensor (d0 :: rest)
            (i0 ← seq 0 d0;
             (λ r, fsum ((λ j, data t !!! ((i0 * d1 + j) * inner + r)) <$> seq 0 d1))
               <$> seq 0 inner))
  | _ => Raise IndexError
  end.

(** Row [i] of a matrix given by its width and entries. *)
Definition row (w : nat) (d : list fval) (i : nat) : list fval :=
  take w (drop (i * w) d).

(** [torch.cat([a, b], 1)] on matrices; an empty vector (shape [(0,)]) is
    skipped, as torch does; anything else raises. *)
Definition cat1 (a b : tensor) : result tensor :=
  match shape a, shape b with
  | [0], _ => Ok b
  | _, [0] => Ok a
  | [n; wa], [m; wb] =>
      if decide (n = m)
      then Ok (mkTensor [n; (wa + wb)]
                 (i ← seq 0 n; row wa (data a) i ++ row wb (data b) i))
      else Raise RuntimeError
  | _, _ => Raise RuntimeError
  end.

(** [torch.stack(cols, dim=1)] on vectors of one length; an empty list or
    vectors of different lengths raise. *)
Definition stack1 (cols : list (list fval)) : result tensor :=
  match cols with
  | [] => Raise RuntimeError
  | c :: _ =>
      let n := length c in
      if forallb (λ c', bool_decide (length c' = n)) cols
      then Ok (mkTensor [n; length cols]
                 (i ← seq 0 n; (λ col, col !!! i) <$> cols))
      else Raise RuntimeError
  end.

(** Entry [(i, j)] of a matrix. *)
Definition get2 (t : tensor) (i j : nat) : fval :=
  match shape t with
  | [_; w] => data t !!! (i * w + j)
  | _ => NaN
  end.

(** [t.reshape(n, -1)]: the row count is given, the width is inferred. *)
Definition reshape_rows (n : nat) (t : tensor) : result tensor :=
  let total := length (data t) in
  if decide (n = 0) then Raise RuntimeError
  else if decide (total mod n = 0) then Ok (mkTensor [n; total / n] (data t))
  else Raise RuntimeError.

(** [preds[mask] = v]: the mask must have the length of the vector. *)
Definition mask_assign (preds : list fval) (mask : list bool) (v : fval)
  : result (list fval) :=
  if decide (length mask = length preds)
  then Ok (zip_with (λ (m : bool) x, if m then v else x) mask preds)
  else Raise IndexError.

Definition Qc_of_nat (n : nat) : Qc := Qc_of_Z (Z.of_nat n).

(** Modelled from the spec: [gflownet.utils.transforms.thermometer] is not
    among the sources. Section 4.1: for a scalar [x] and dimension [d] over
    the range [lo, hi], the [i]-th entry is
    [clip((x - lo)/(hi - lo)*d - i, 0, 1)]; a tensor is encoded entry by
    entry along a new last dimension. *)
Definition thermometer_entry (d : nat) (lo hi : Qc) (x : fval) (i : nat) : fval :=
  fclip 0%Qc 1%Qc
    (fsub (fmul (fdiv (fsub x (Num lo)) (Num (hi - lo)%Qc)) (Num (Qc_of_nat d)))
          (Num (Qc_of_nat i))).

Definition thermometer (v : tensor) (d : nat) (lo hi : Qc) : tensor :=
  mkTensor (shape v ++ [d])
    (x ← data v; thermometer_entry d lo hi x <$> seq 0 d).

(** ** Conditioning information

    The dictionary with the keys ["beta"], ["encoding"] and, in the
    multi-objective task, ["preferences"]. *)
Record cond_info : Type := mkCond {
  beta : tensor;
  encoding : tensor;
  preferences : option tensor;
}.

(** [temperature_dist_params]: a float or a pair of floats. *)
Inductive dist_params : Type :=
  | ParamFloat (x : Qc)
  | ParamPair (a b : Qc).

(** The [flat_reward] argument of [cond_info_to_logreward]: a tensor, a list
    of tensors, or a list of floats. *)
Inductive flat_arg : Type :=
  | ArgTensor (t : tensor)
  | ArgTensorList (l : list tensor)
  | ArgFloatList (l : list fval).

(** [torch.tensor(l)] on a list of tensors: each must hold one element. *)
Definition tensor_of_tensor_list (l : list tensor) : result tensor :=
  if forallb (λ t, bool_decide (length (data t) = 1)) l
  then Ok (mkTensor [length l] (l ≫= data))
  else Raise ValueError.

(** [torch.stack(l)] on a non-empty list of tensors of one shape. *)
Definition stack0 (l : list tensor) : result tensor :=
  match l with
  | [] => Raise RuntimeError
  | t :: _ =>
      if forallb (λ t', bool_decide (shape t' = shape t)) l
      then Ok (mkTensor (length l :: shape t) (l ≫= data))
      else Raise RuntimeError
  end.

(** The minimum of the clamp before the logarithm, [1e-30]. *)
Definition eps : Qc := qc 1 (10 ^ 30).

(** The clip range of the affinity reward, [1e-4] and [100]. *)
Definition clip_lo : Qc := qc 1 10000.
Definition clip_hi : Qc := qc 100 1.

(** ** [seh_frag.py]: the single-objective task *)

Module SEHTask.

Record t : Type := mk {
  part : option Z;
  total_parts : option Z;
  temperature_sample_dist : string;
  temperature_dist_params : dist_params;
  num_thermometer_dim : nat;
}.

(** [SEHTask.__init__]: the arguments are stored as they come; nothing is
    checked. *)
Definition init (temperature_distribution : string)
    (temperature_parameters : dist_params) (num_thermometer_dim : nat)
    (part total_parts : option Z) : result t :=
  Ok (mk part total_parts temperature_distribution temperature_parameters
        num_thermometer_dim).

Definition flat_reward_transform (y : fval) : fval :=
  fdiv y (Num (qc 8 1)).

Section conditioning.
(** [np.log], [np.exp] and [scipy.stats.gamma.ppf(0.95, loc, scale=scale)]. *)
Variables (ln exp : Qc → Qc) (gamma_ppf95 : Qc → Qc → Qc).
(** The values the random generator returns in this call, by position. *)
Variable rng : nat → Qc.

Definition draw (n : nat) : list fval := (λ i, Num (rng i)) <$> seq 0 n.

(** [torch.tensor(beta)]: [None] cannot be converted. *)
Definition torch_tensor (beta : option (list fval)) : result tensor :=
  match beta with
  | None => Raise RuntimeError
  | Some l => Ok (mkTensor [length l] l)
  end.

(** Reading a local variable that no branch has assigned. *)
Definition read_local {A} (x : option A) : result A :=
  match x with
  | None => Raise UnboundLocalError
  | Some a => Ok a
  end.

Definition sample_conditional_information (self : t) (n : nat)
  : result cond_info :=
  if decide (temperature_sample_dist self = "constant") then
    match temperature_dist_params self with
    | ParamFloat x =>
        let beta := replicate n (Num x) in
        let beta_enc := zeros [n; num_thermometer_dim self] in
        Ok (mkCond (mkTensor [n] beta) beta_enc None)
    | ParamPair _ _ => Raise AssertionError
    end
  else
    '(beta, upper_bound) ←
      (if decide (temperature_sample_dist self = "gamma") then
         match temperature_dist_params self with
         | ParamPair loc scale =>
             Ok (Some (draw n), Some (gamma_ppf95 loc scale))
         | ParamFloat _ => Raise TypeError
         end
       else if decide (temperature_sample_dist self = "uniform") then
         match temperature_dist_params self with
         | ParamPair _ high => Ok (Some (draw n), Some high)
         | ParamFloat _ => Raise TypeError
         end
       else if decide (temperature_sample_dist self = "loguniform") then
         match temperature_dist_params self with
         | ParamPair _ high =>
             Ok (Some ((λ i, Num (exp (rng i))) <$> seq 0 n), Some high)
         | ParamFloat _ => Raise TypeError
         end
       else if decide (temperature_sample_dist self = "beta") then
         match temperature_dist_params self with
         | ParamPair _ _ => Ok (Some (draw n), Some 1%Qc)
         | ParamFloat _ => Raise TypeError
         end
       else Ok (None, None));
    beta_t ← torch_tensor beta;
    upper_bound ← read_local upper_bound;
    let beta_enc :=
      thermometer beta_t (num_thermometer_dim self) 0%Qc upper_bound in
    _ ← assert (bool_decide (length (shape beta_t) = 1));
    Ok (mkCond beta_t beta_enc None).

(** [flat_reward] as a tensor, single-objective task. *)
Definition as_tensor (flat_reward : flat_arg) : result tensor :=
  match flat_reward with
  | ArgTensor t => Ok t
  | ArgTensorList l => tensor_of_tensor_list l
  | ArgFloatList l => Ok (mkTensor [length l] l)
  end.

Definition cond_info_to_logreward (cond_info : cond_info)
    (flat_reward : flat_arg) : result tensor :=
  flat_reward ← as_tensor flat_reward;
  let scalar_logreward :=
    tmap (flog ln) (tmap (fclamp_min eps) (squeeze flat_reward)) in
  _ ← assert (bool_decide (length (shape scalar_logreward)
                           = length (shape (beta cond_info))));
  tmul scalar_logreward (beta cond_info).
End conditioning.

Section rewards.
Context {mol graph fp : Type}.
(** [bengio2021flow.mol2graph]: [None] for a molecule that does not convert. *)
Variable mol2graph : mol → option graph.
(** [self.models["seh"]]: one output per graph of the batch. *)
Variable seh : graph → fval.
(** [AllChem.GetMorganFingerprintAsBitVect(mol, 2, nBits=1024)] and the
    pickled k-means artefact, which labels each fingerprint row. *)
Variable fingerprint : mol → fp.
Variable km_predict : fp → Z.

(** [KMeansClassifier.kmeans_classify] and [__call__]. *)
Definition kmeans_classify (inputs : list mol) : list Z :=
  let fp_list := fingerprint <$> inputs in
  km_predict <$> fp_list.

(** [compute_flat_rewards]. The block guarded by [wandb.run is not None]
    only reads [parts] and writes to the tracker; the embedding takes the
    tracker to be absent. *)
Definition compute_flat_rewards (self : t) (mols : list mol)
  : result (tensor * list bool) :=
  let graphs := mol2graph <$> mols in
  let is_valid := (λ g : option graph, bool_decide (g ≠ None)) <$> graphs in
  if negb (existsb id is_valid) then Ok (zeros [0; 1], is_valid)
  else
    let batch := omap id graphs in
    let preds := seh <$> batch in
    let preds := nan_to_zero <$> preds in
    preds ←
      match part self with
      | Some p =>
          let parts := kmeans_classify mols in
          mask_assign preds ((λ c, bool_decide (c ≠ p)) <$> parts) (Num 0%Qc)
      | None => Ok preds
      end;
    let preds := (λ y, fclip clip_lo clip_hi (flat_reward_transform y)) <$> preds in
    Ok (reshape_col (mkTensor [length preds] preds), is_valid).
End rewards.

End SEHTask.

(** ** [seh_frag_moo.py]: the multi-objective task *)

Module SEHMOOTask.

Record t : Type := mk {
  objectives : list string;
  temperature_sample_dist : string;
  temperature_dist_params : dist_params;
  num_thermometer_dim : nat;
  use_pref_thermometer : bool;
  seeded_preference : option (list Qc);
  experimental_dirichlet : bool;
}.

Definition vocabulary : list string := ["seh"; "qed"; "sa"; "mw"].

(** [SEHMOOTask.__init__] with its closing assertion on the objectives. *)
Definition init (objectives : list string) (temperature_sample_dist : string)
    (temperature_parameters : dist_params) (num_thermometer_dim : nat)
    (use_pref_thermometer : bool) : result t :=
  _ ← assert (forallb (λ o, bool_decide (o ∈ vocabulary)) objectives
              && bool_decide (NoDup objectives));
  Ok (mk objectives temperature_sample_dist temperature_parameters
        num_thermometer_dim use_pref_thermometer None false).

(** The part of the object that the inherited methods read. *)
Definition super (self : t) : SEHTask.t :=
  SEHTask.mk None None (temperature_sample_dist self)
    (temperature_dist_params self) (num_thermometer_dim self).

Definition flat_reward_transform (y : fval) : fval := y.
Definition inverse_flat_reward_transform (rp : fval) : fval := rp.

Section conditioning.
Variables (ln exp : Qc → Qc) (gamma_ppf95 : Qc → Qc → Qc).
Variable rng : nat → Qc.
(** The draws of the Dirichlet samplers in this call, by row and column:
    the plain one and the experimental one. *)
Variables (dirichlet dirichlet_exp : nat → nat → Qc).

Definition sample_matrix (f : nat → nat → Qc) (n k : nat) : tensor :=
  mkTensor [n; k] (i ← seq 0 n; (λ j, Num (f i j)) <$> seq 0 k).

(** Lines 81 to 89: the preferences of this call. *)
Definition draw_preferences (self : t) (n : nat) : tensor :=
  match seeded_preference self with
  | Some v =>
      mkTensor (if decide (n = 0) then [0] else [n; length v])
        (mjoin (replicate n (Num <$> v)))
  | None =>
      if experimental_dirichlet self
      then sample_matrix dirichlet_exp n (length (objectives self))
      else sample_matrix dirichlet n (length (objectives self))
  end.

Definition sample_conditional_information (self : t) (n : nat)
  : result cond_info :=
  cond_info ←
    SEHTask.sample_conditional_information exp gamma_ppf95 rng (super self) n;
  let preferences := draw_preferences self n in
  preferences_enc ←
    (if use_pref_thermometer self
     then reshape_rows n
            (thermometer preferences (num_thermometer_dim self) 0%Qc 1%Qc)
     else Ok preferences);
  encoding ← cat1 (encoding cond_info) preferences_enc;
  Ok (mkCond (beta cond_info) encoding (Some preferences)).

(** [len(preferences)]. *)
Definition len (x : tensor) : result nat :=
  match shape x with
  | [] => Raise TypeError
  | n :: _ => Ok n
  end.

Definition encode_conditional_information (self : t) (preferences : tensor)
  : result cond_info :=
  n ← len preferences;
  '(beta, beta_enc) ←
    (if decide (temperature_sample_dist self = "constant") then
       match temperature_dist_params self with
       | ParamFloat x =>
           Ok (tmap (λ o, fmul o (Num x)) (ones [n]),
               zeros [n; num_thermometer_dim self])
       | ParamPair _ _ => Raise TypeError
       end
     else
       match temperature_dist_params self with
       | ParamPair _ last =>
           Ok (tmap (λ o, fmul o (Num last)) (ones [n]),
               ones [n; num_thermometer_dim self])
       | ParamFloat _ => Raise TypeError
       end);
  _ ← assert (bool_decide (length (shape beta) = 1));
  encoding ←
    (if use_pref_thermometer self then
       enc ← reshape_rows n
               (thermometer preferences (num_thermometer_dim self) 0%Qc 1%Qc);
       cat1 beta_enc enc
     else cat1 beta_enc preferences);
  Ok (mkCond beta encoding (Some preferences)).

(** [flat_reward] as a tensor, multi-objective task. *)
Definition as_tensor (flat_reward : flat_arg) : result tensor :=
  match flat_reward with
  | ArgTensor t => Ok t
  | ArgTensorList [] => Raise IndexError
  | ArgTensorList l => stack0 l
  | ArgFloatList [] => Raise IndexError
  | ArgFloatList l => Ok (mkTensor [length l] l)
  end.

(** [cond_info["preferences"]]. *)
Definition get_preferences (c : cond_info) : result tensor :=
  match preferences c with
  | None => Raise KeyError
  | Some p => Ok p
  end.

Definition cond_info_to_logreward (cond_info : cond_info)
    (flat_reward : flat_arg) : result tensor :=
  flat_reward ← as_tensor flat_reward;
  prefs ← get_preferences cond_info;
  weighted ← tmul flat_reward prefs;
  summed ← tsum1 weighted;
  let scalar_logreward := tmap (flog ln) (tmap (fclamp_min eps) summed) in
  _ ← assert (bool_decide (length (shape scalar_logreward)
                           = length (shape (beta cond_info))));
  tmul scalar_logreward (beta cond_info).
End conditioning.

Section rewards.
Context {mol graph : Type}.
Variable mol2graph : mol → option graph.
Variable seh : graph → fval.
(** [QED.qed], [sascore.calculateScore] and [Descriptors.MolWt]: each
    returns a number or raises. *)
Variables (qed calculateScore MolWt : mol → result fval).

Definition safe {A B} (f : A → result B) (x : A) (default : B) : B :=
  match f x with
  | Ok y => y
  | Raise _ => default
  end.

(** [[m for m, v in zip(mols, is_valid) if v.item()]]. *)
Definition valid_mols (mols : list mol) (is_valid : list bool) : list mol :=
  fst <$> filter (λ mv : mol * bool, snd mv = true) (zip mols is_valid).

Definition seh_column (batch : list graph) : list fval :=
  nan_to_zero <$>
    ((λ g, fdiv (fclip clip_lo clip_hi (seh g)) (Num (qc 8 1))) <$> batch).

Definition qed_column (ms : list mol) : list fval :=
  (λ i, safe qed i (Num 0%Qc)) <$> ms.

Definition sa_column (ms : list mol) : list fval :=
  let sas := (λ i, safe calculateScore i (Num (qc 10 1))) <$> ms in
  (λ s, fdiv (fsub (Num (qc 10 1)) s) (Num (qc 9 1))) <$> sas.

Definition mw_column (ms : list mol) : list fval :=
  let molwts := (λ i, safe MolWt i (Num (qc 1000 1))) <$> ms in
  (λ w, fclip 0%Qc 1%Qc
          (fadd (fdiv (fsub (Num (qc 300 1)) w) (Num (qc 700 1))) (Num 1%Qc)))
    <$> molwts.

Definition compute_flat_rewards (self : t) (mols : list mol)
  : result (tensor * list bool) :=
  let graphs := mol2graph <$> mols in
  let is_valid := (λ g : option graph, bool_decide (g ≠ None)) <$> graphs in
  if negb (existsb id is_valid)
  then Ok (zeros [0; length (objectives self)], is_valid)
  else
    let ms := valid_mols mols is_valid in
    let flat_rewards : list (list fval) := [] in
    let flat_rewards :=
      if bool_decide ("seh" ∈ objectives self)
      then flat_rewards ++ [seh_column (omap id graphs)] else flat_rewards in
    let flat_rewards :=
      if bool_decide ("qed" ∈ objectives self)
      then flat_rewards ++ [qed_column ms] else flat_rewards in
    let flat_rewards :=
      if bool_decide ("sa" ∈ objectives self)
      then flat_rewards ++ [sa_column ms] else flat_rewards in
    let flat_rewards :=
      if bool_decide ("mw" ∈ objectives self)
      then flat_rewards ++ [mw_column ms] else flat_rewards in
    flat_rewards ← stack1 flat_rewards;
    Ok (flat_rewards, is_valid).
End rewards.

End SEHMOOTask.

(** ** [SEHFragTrainer]: the sampling model and the gradient step

    Parameters are objects in a store, so that the two models may share them:
    with [sampling_tau = 0] the sampling model is the trained model itself,
    otherwise it is a deep copy made in [setup]. *)

Module SEHFragTrainer.

Record t : Type := mk {
  store : gmap nat (list fval);
  model : list nat;
  sampling_model : list nat;
  sampling_tau : Qc;
}.

(** [model.parameters()] allocated for the given initial values. *)
Definition alloc (base : nat) (vals : list (list fval))
    (σ : gmap nat (list fval)) : gmap nat (list fval) :=
  foldl (λ σ '(i, v), <[(base + i) := v]> σ) σ (imap (λ i v, (i, v)) vals).

(** The end of [setup]: [copy.deepcopy(self.model)] when [sampling_tau > 0],
    the same object otherwise. *)
Definition setup (params : list (list fval)) (tau : Qc) : t :=
  let k := length params in
  let σ := alloc 0 params ∅ in
  let model := seq 0 k in
  if Qcltb 0%Qc tau
  then mk (alloc k params σ) model (seq k k) tau
  else mk σ model model tau.

Definition read (σ : gmap nat (list fval)) (l : nat) : list fval :=
  default [] (σ !! l).

(** The optimisers write the trained values into the model's parameters. *)
Definition opt_step (trained : nat → list fval) (model : list nat)
    (σ : gmap nat (list fval)) : gmap nat (list fval) :=
  foldl (λ σ '(i, l), <[l := trained i]> σ) σ (imap (λ i l, (i, l)) model).

(** [b.data.mul_(tau).add_(a.data * (1 - tau))]: [b] is scaled in place
    before [a] is read. *)
Definition ema_update (tau : Qc) (σ : gmap nat (list fval)) (ab : nat * nat)
  : gmap nat (list fval) :=
  let '(a, b) := ab in
  let σ := <[b := (λ x, fmul x (Num tau)) <$> read σ b]> σ in
  let scaled := (λ x, fmul x (Num (1 - tau)%Qc)) <$> read σ a in
  <[b := zip_with fadd (read σ b) scaled]> σ.

(** [step]: [trained i] is the value the optimisers leave in the [i]-th
    parameter of the model. *)
Definition step (self : t) (trained : nat → list fval) : t :=
  let σ := opt_step trained (model self) (store self) in
  let σ :=
    if Qcltb 0%Qc (sampling_tau self)
    then foldl (ema_update (sampling_tau self)) σ
           (zip (model self) (sampling_model self))
    else σ in
  mk σ (model self) (sampling_model self) (sampling_tau self).

(** The [i]-th parameter of a model, read through the store. *)
Definition param (σ : gmap nat (list fval)) (m : list nat) (i : nat) : list fval :=
  from_option (read σ) [] (m !! i).

(** The states of a run: [setup], then steps in which the optimisers keep the
    size of every parameter. *)
Inductive reachable : t → Prop :=
  | reachable_setup params tau : reachable (setup params tau)
  | reachable_step self trained :
      reachable self →
      (∀ i, i < length (model self) →
            length (trained i) = length (param (store self) (model self) i)) →
      reachable (step self trained).

End SEHFragTrainer.

(** ** [job.py] *)

Module Job.

Inductive pyval : Type :=
  | PNone
  | PBool (b : bool)
  | PInt (z : Z)
  | PFloat (q : Qc)
  | PStr (s : string).

Global Instance pyval_eq_dec : EqDecision pyval.
Proof. solve_decision. Defined.

(** The parsed command line; an option that is not given is [None]. *)
Record args : Type := mkArgs {
  log_dir : option string;
  data_dir : option string;
  wandb : option string;
  part : option Z;
  total_parts : option Z;
}.

Definition of_str (x : option string) : pyval :=
  match x with Some s => PStr s | None => PNone end.

(** [f"{args.log_dir}"]. *)
Definition format_str (x : option string) : string :=
  match x with Some s => s | None => "None" end.

Definition initial_hps (a : args) : gmap string pyval :=
  list_to_map
    [ ("log_dir", PStr (format_str (log_dir a)));
      ("overwrite_existing_exp", PBool true);
      ("qm9_h5_path", PStr "/data/chem/qm9/qm9.h5");
      ("num_data_loader_workers", PInt 0);
      ("num_training_steps", PInt 20000);
      ("global_batch_size", PInt 64);
      ("validate_every", PInt 500);
      ("lr_decay", PInt 20000);
      ("temperature_dist_params", PFloat (qc 32 1));
      ("temperature_sample_dist", PStr "constant");
      ("sampling_tau", PFloat (qc 99 100));
      ("mp_pickle_messages", PBool true);
      ("offline_ratio", PFloat 0%Qc);
      ("data_dir", of_str (data_dir a));
      ("wandb", of_str (wandb a)) ].

(** A method call [d.name(other)] on a dictionary: of the names the script
    uses, [update] is a method of [dict]; any other name is an attribute the
    object does not have. *)
Definition call_method (d : gmap string pyval) (name : string)
    (other : gmap string pyval) : result (gmap string pyval) :=
  if decide (name = "update") then Ok (other ∪ d)
  else Raise AttributeError.

(** What the script does to the outside, in order. *)
Inductive event : Type :=
  | Rmtree (dir : string)
  | Makedirs (dir : string)
  | ConstructTrainer (hps : gmap string pyval)
  | RunTrainer.

(** The state of the script: the dictionary [hps] and the effects so far. *)
Record state : Type := mkState {
  hps : gmap string pyval;
  trace : list event;
}.

(** Lines 40 to 44. *)
Definition configure (a : args) (h : gmap string pyval)
  : gmap string pyval * result unit :=
  match part a, total_parts a with
  | Some p, Some tp =>
      if bool_decide (1 < tp)%Z then
        match call_method h "update" {[ "part" := PInt p ]} with
        | Raise e => (h, Raise e)
        | Ok h =>
            match call_method h "update" {[ "total_parts" := PInt tp ]} with
            | Raise e => (h, Raise e)
            | Ok h =>
                match call_method h "upate" {[ "offline_ratio" := PFloat (qc 1 4) ]} with
                | Raise e => (h, Raise e)
                | Ok h => (h, Ok ())
                end
            end
        end
      else (h, Ok ())
  | _, _ => (h, Ok ())
  end.

(** The whole script; [exists_] is [os.path.exists] at the time of the call. *)
Definition main (exists_ : string → bool) (a : args) : state * result unit :=
  let h := initial_hps a in
  match configure a h with
  | (h, Raise e) => (mkState h [], Raise e)
  | (h, Ok _) =>
      let dir := match h !! "log_dir" with Some (PStr s) => s | _ => "" end in
      let overwrite :=
        bool_decide (h !! "overwrite_existing_exp" = Some (PBool true)) in
      let differs :=
        bool_decide (Some (PStr dir) ≠ Some (default (PInt 1234) (h !! "data_dir"))) in
      if exists_ dir then
        if overwrite && differs
        then (mkState h [Rmtree dir; Makedirs dir; ConstructTrainer h; RunTrainer], Ok ())
        else (mkState h [], Raise ValueError)
      else (mkState h [Makedirs dir; ConstructTrainer h; RunTrainer], Ok ())
  end.

End Job.

(** ** Tactics for closed goals *)

(** Equality of two closed rationals, and of closed terms that contain them. *)
Ltac qc_eq := apply Qc_is_canon; reflexivity.

Ltac closed_eq :=
  vm_compute;
  repeat match goal with
         | |- @eq Qc _ _ => qc_eq
         | |- _ = _ => reflexivity
         | |- _ = _ => f_equal
         end.

(** ** Concrete collaborators for the examples

    Molecules are numbers; an odd molecule does not convert to a graph; the
    proxy scores graph [g] with [g / 2 - 1], and has no number for graph 6. *)

Module Sample.

Definition mol2graph (m : nat) : option nat :=
  if Nat.even m then Some m else None.

Definition seh (g : nat) : fval :=
  if decide (g = 6) then NaN else Num (Qc_of_nat g / qc 2 1 - 1)%Qc.

Definition fingerprint (m : nat) : nat := m.

(** Two clusters: molecules below 4 and the others. *)
Definition km_predict (f : nat) : Z := if decide (f < 4) then 0%Z else 1%Z.

(** Descriptors: [qed] fails on molecule 2, [calculateScore] on molecule 4,
    [MolWt] on molecule 8. *)
Definition qed (m : nat) : result fval :=
  if decide (m = 2) then Raise ValueError else Ok (Num (qc 1 2)).
Definition calculateScore (m : nat) : result fval :=
  if decide (m = 4) then Raise RuntimeError else Ok (Num (qc 1 1)).
Definition MolWt (m : nat) : result fval :=
  if decide (m = 8) then Raise ValueError else Ok (Num (qc 650 1)).

(** A stand-in for the logarithm, enough to run the code. *)
Definition ln (x : Qc) : Qc := (x - 1)%Qc.

Definition sharded : SEHTask.t :=
  SEHTask.mk (Some 0%Z) (Some 2%Z) "constant" (ParamFloat (qc 32 1)) 4.

Definition unsharded : SEHTask.t :=
  SEHTask.mk None None "constant" (ParamFloat (qc 32 1)) 4.

Definition moo : SEHMOOTask.t :=
  SEHMOOTask.mk ["seh"; "qed"; "sa"; "mw"] "constant" (ParamFloat (qc 60 1))
    4 true None false.

End Sample.

(** ** Rows and columns of the multi-objective reward tensor

    The columns follow the fixed order seh, qed, sa, mw of
    [compute_flat_rewards], whatever the order of [objectives]; a row stands
    for a molecule that converts to a graph, in input order. *)

Definition present (objs : list string) (o : string) : nat :=
  if bool_decide (o ∈ objs) then 1 else 0.

Definition column_of (objs : list string) (o : string) : nat :=
  if decide (o = "seh") then 0
  else if decide (o = "qed") then present objs "seh"
  else if decide (o = "sa") then present objs "seh" + present objs "qed"
  else present objs "seh" + present objs "qed" + present objs "sa".

Definition converts {mol graph} (mol2graph : mol → option graph) (m : mol) : Prop :=
  is_Some (mol2graph m).

Global Instance converts_dec {mol graph} (mol2graph : mol → option graph) m :
  Decision (converts mol2graph m).
Proof. unfold converts. apply _. Defined.

(** The column of an objective, as [compute_flat_rewards] computes it. *)
Definition column {mol graph} (mol2graph : mol → option graph)
    (seh : graph → fval) (qed calculateScore MolWt : mol → result fval)
    (mols : list mol) (o : string) : list fval :=
  let ms := filter (converts mol2graph) mols in
  if decide (o = "seh")
  then SEHMOOTask.seh_column seh (omap id (mol2graph <$> mols))
  else if decide (o = "qed") then SEHMOOTask.qed_column qed ms
  else if decide (o = "sa") then SEHMOOTask.sa_column calculateScore ms
  else SEHMOOTask.mw_column MolWt ms.

(** The scalarised reward of row [i]: [sum(flat_reward * preferences)]. *)
Definition weighted_sum (k : nat) (F P : list fval) (i : nat) : fval :=
  fsum ((λ j, fmul (F !!! (i * k + j)) (P !!! (i * k + j))) <$> seq 0 k).

(** ** The conditioning sampler in the words of the specification *)

(** The families of [temperature_sample_dist] that the sampler handles. *)
Definition supported_families : list string :=
  ["constant"; "gamma"; "uniform"; "loguniform"; "beta"].

(** The encoding scheme of a preference matrix of [n] rows: thermometer
    binning over [0, 1] with [d] bins for each preference when
    [use_pref_thermometer] is set, the raw preferences otherwise. *)
Definition preference_encoding (d : nat) (use_pref_thermometer : bool)
    (n : nat) (preferences : tensor) : result tensor :=
  if use_pref_thermometer
  then reshape_rows n (thermometer preferences d 0%Qc 1%Qc)
  else Ok preferences.

Module SampleConditioning.

Definition exp (x : Qc) : Qc := (x + 1)%Qc.
Definition gamma_ppf95 (loc scale : Qc) : Qc := (loc * scale * qc 3 1)%Qc.
Definition rng (i : nat) : Qc := qc (Z.of_nat i) 4.
Definition dirichlet (i j : nat) : Qc := if decide (j = i `mod` 2) then 1%Qc else 0%Qc.

(** A task whose temperature family is not supported. *)
Definition cauchy : SEHTask.t :=
  SEHTask.mk None None "cauchy" (ParamPair 0%Qc 1%Qc) 4.

(** Multi-objective tasks with two objectives and thermometer preferences. *)
Definition constant_moo : SEHMOOTask.t :=
  SEHMOOTask.mk ["seh"; "qed"] "constant" (ParamFloat (qc 60 1)) 2 true None false.
Definition uniform_moo : SEHMOOTask.t :=
  SEHMOOTask.mk ["seh"; "qed"] "uniform" (ParamPair 0%Qc (qc 64 1)) 2 true None false.

End SampleConditioning.

(** ** The moving average in the words of the specification

    [tau * sampling_param + (1 - tau) * trained_param]. *)
Definition ema (tau : Qc) (sampling trained : fval) : fval :=
  fadd (fmul (Num tau) sampling) (fmul (Num (1 - tau)%Qc) trained).

(** The invariant of a run with [sampling_tau > 0]: the sampling model is a
    copy with parameters of its own, of the sizes of the model's. *)
Definition separate_copy (self : SEHFragTrainer.t) : Prop :=
  let k := length (SEHFragTrainer.model self) in
  SEHFragTrainer.model self = seq 0 k
  ∧ SEHFragTrainer.sampling_model self = seq k k
  ∧ ∀ i, i < k →
      length (SEHFragTrainer.read (SEHFragTrainer.store self) (k + i))
      = length (SEHFragTrainer.read (SEHFragTrainer.store self) i).

(** ** Python sequences *)

(** [l[i]] on a list: a negative index counts from the end, an index out of
    range raises. *)
Definition py_getitem {A} (l : list A) (i : Z) : result A :=
  let n := Z.of_nat (length l) in
  let j := if (i <? 0)%Z then (i + n)%Z else i in
  if (0 <=? j)%Z && (j <? n)%Z
  then match l !! Z.to_nat j with
       | Some x => Ok x
       | None => Raise IndexError
       end
  else Raise IndexError.

(** ** [seh_frag.py]: [TrainingDataset] *)

Module TrainingDataset.
Section dataset.
Context {G R : Type}.

Record t : Type := mk {
  in_part_idxs : list Z;
  graphs : list G;
  rewards : list R;
}.

(** [__len__]. *)
Definition len (self : t) : nat := length (in_part_idxs self).

(** [__getitem__]. *)
Definition getitem (self : t) (idx : Z) : result (G * R) :=
  valid_idx ← py_getitem (in_part_idxs self) idx;
  g ← py_getitem (graphs self) valid_idx;
  r ← py_getitem (rewards self) valid_idx;
  Ok (g, r).
End dataset.
Global Arguments t : clear implicits.
End TrainingDataset.

(** ** [seh_frag_moo.py]: [RepeatedPreferenceDataset] *)

Module RepeatedPreferenceDataset.

Record t : Type := mk {
  prefs : list (list Qc);
  repeat : nat;
}.

(** [__len__]. *)
Definition len (self : t) : nat := length (prefs self) * repeat self.

(** [__getitem__]: [idx // repeat] is the floor division. *)
Definition getitem (self : t) (idx : Z) : result tensor :=
  _ ← assert (bool_decide (0 ≤ idx < Z.of_nat (len self))%Z);
  row ← py_getitem (prefs self) (idx / Z.of_nat (repeat self))%Z;
  Ok (mkTensor [length row] (Num <$> row)).

End RepeatedPreferenceDataset.

(** ** [seh_frag.py]: what the trainer hands to the task and the context *)

Module SEHFragSetup.

(** The hyperparameters that [setup_task] and [setup_env_context] read. *)
Record hps : Type := mkHps {
  temperature_sample_dist : string;
  temperature_dist_params : dist_params;
  num_thermometer_dim : nat;
  part : option Z;
  total_parts : option Z;
}.

(** [setup_task]. *)
Definition setup_task (h : hps) : result SEHTask.t :=
  SEHTask.init (temperature_sample_dist h) (temperature_dist_params h)
    (num_thermometer_dim h) (part h) (total_parts h).

(** [setup_env_context]: the [num_cond_dim] given to the context. *)
Definition setup_env_context (h : hps) : nat := num_thermometer_dim h.

End SEHFragSetup.

(** ** [seh_frag_moo.py]: [SEHMOOFragTrainer] *)

Module SEHMOOFragTrainer.

Record hps : Type := mkHps {
  objectives : list string;
  temperature_sample_dist : string;
  temperature_dist_params : dist_params;
  num_thermometer_dim : nat;
  use_pref_thermometer : bool;
  preference_type : option string;
  n_valid_prefs : nat;
  n_valid_repeats_per_pref : nat;
  seed : option Z;
}.

(** [setup_task]. *)
Definition setup_task (h : hps) : result SEHMOOTask.t :=
  SEHMOOTask.init (objectives h) (temperature_sample_dist h)
    (temperature_dist_params h) (num_thermometer_dim h)
    (use_pref_thermometer h).

(** [setup_env_context]: the [num_cond_dim] given to the context. *)
Definition setup_env_context (h : hps) : nat :=
  if use_pref_thermometer h
  then num_thermometer_dim h * (1 + length (objectives h))
  else num_thermometer_dim h + length (objectives h).

(** The task with [seeded_preference] assigned. *)
Definition set_seeded_preference (v : list Qc) (task : SEHMOOTask.t)
  : SEHMOOTask.t :=
  SEHMOOTask.mk (SEHMOOTask.objectives task)
    (SEHMOOTask.temperature_sample_dist task)
    (SEHMOOTask.temperature_dist_params task)
    (SEHMOOTask.num_thermometer_dim task)
    (SEHMOOTask.use_pref_thermometer task) (Some v)
    (SEHMOOTask.experimental_dirichlet task).

Section validation.
(** [metrics.partition_hypersphere(d=n_obj, k=n_valid_prefs, normalisation="l1")],
    a matrix given by its rows, and the draws of the generator
    [np.random.default_rng(s)], by seed, row and column. *)
Variable partition_hypersphere : list (list Qc).
Variable seeded_dirichlet : Z → nat → nat → Qc.

(** [self.hps["seed"]]. *)
Definition hps_seed (h : hps) : result Z :=
  match seed h with
  | Some s => Ok s
  | None => Raise KeyError
  end.

Definition matrix_rows (f : nat → nat → Qc) (n k : nat) : list (list Qc) :=
  (λ i, (λ j, f i j) <$> seq 0 k) <$> seq 0 n.

(** Lines 238 to 257 of [setup]: the fixed preferences of the validation,
    the task (whose [seeded_preference] the branch [seeded_single] assigns)
    and the validation data. A preference type that no branch names leaves
    [valid_preferences] unassigned. *)
Definition setup_validation (h : hps) (task : SEHMOOTask.t)
  : result (SEHMOOTask.t * RepeatedPreferenceDataset.t) :=
  let n_obj := length (objectives h) in
  '(valid_preferences, task) ←
    match preference_type h with
    | None =>
        Ok (Some (replicate (n_valid_prefs h) (replicate n_obj 1%Qc)), task)
    | Some ty =>
        if decide (ty = "dirichlet") then Ok (Some partition_hypersphere, task)
        else if decide (ty = "seeded_single") then
          s ← hps_seed h;
          let seeded_prefs :=
            matrix_rows (seeded_dirichlet (142857 + s)) (n_valid_prefs h) n_obj in
          first ← py_getitem seeded_prefs 0%Z;
          let valid_preferences := [first] in
          Ok (Some valid_preferences, set_seeded_preference first task)
        else if decide (ty = "seeded_many") then
          s ← hps_seed h;
          Ok (Some (matrix_rows (seeded_dirichlet (142857 + s)) (n_valid_prefs h)
                      n_obj), task)
        else Ok (None, task)
    end;
  valid_preferences ← SEHTask.read_local valid_preferences;
  Ok (task,
      RepeatedPreferenceDataset.mk valid_preferences (n_valid_repeats_per_pref h)).
End validation.

End SEHMOOFragTrainer.

(** Transfer of a goal on canonical rationals to the rationals. *)
Ltac qc_to_q :=
  repeat (progress (unfold Qcle, Qclt, Qcplus, Qcminus, Qcopp, Qcmult, Qcdiv,
                      Qcinv, qc, Q2Qc in *;
                    cbn [this] in *));
  repeat (rewrite ?Qred_correct in *).

(** The columns that the multi-objective [compute_flat_rewards] stacks, in
    the order in which it appends them. *)
Definition columns {mol graph} (mol2graph : mol → option graph)
    (seh : graph → fval) (qed calculateScore MolWt : mol → result fval)
    (objs : list string) (mols : list mol) : list (list fval) :=
  let ms := filter (converts mol2graph) mols in
  (if bool_decide ("seh" ∈ objs)
   then [SEHMOOTask.seh_column seh (omap id (mol2graph <$> mols))] else [])
  ++ (if bool_decide ("qed" ∈ objs) then [SEHMOOTask.qed_column qed ms] else [])
  ++ (if bool_decide ("sa" ∈ objs)
      then [SEHMOOTask.sa_column calculateScore ms] else [])
  ++ (if bool_decide ("mw" ∈ objs) then [SEHMOOTask.mw_column MolWt ms] else []).

(** * Properties *)

(** ** Numbers and lists *)

Lemma Qcleb_le a b : Qcleb a b = true ↔ (a ≤ b)%Qc.
Proof. unfold Qcleb, Qcle. apply Qle_bool_iff. Qed.

Lemma Qcleb_gt a b : Qcleb a b = false ↔ (b < a)%Qc.
Proof.
  rewrite <- not_true_iff_false, Qcleb_le. split.
  - apply Qcnot_le_lt.
  - apply Qclt_not_le.
Qed.

Lemma Qcltb_lt a b : Qcltb a b = true ↔ (a < b)%Qc.
Proof. unfold Qcltb. rewrite negb_true_iff. apply Qcleb_gt. Qed.

Lemma Qcmax_lower a lo : (lo ≤ Qcmax a lo)%Qc.
Proof.
  unfold Qcmax. destruct (Qcleb a lo) eqn:E.
  - apply Qcle_refl.
  - apply Qcleb_gt in E. by apply Qclt_le_weak.
Qed.

Lemma Qcmin_upper a hi : (Qcmin a hi ≤ hi)%Qc.
Proof.
  unfold Qcmin. destruct (Qcleb a hi) eqn:E.
  - by apply Qcleb_le.
  - apply Qcle_refl.
Qed.

Lemma Qcmin_lower a lo hi : (lo ≤ a)%Qc → (lo ≤ hi)%Qc → (lo ≤ Qcmin a hi)%Qc.
Proof. intros. unfold Qcmin. by destruct (Qcleb a hi). Qed.

(** A clip keeps a number between its bounds. *)
Lemma fclip_bounds lo hi x q :
  (lo ≤ hi)%Qc → fclip lo hi x = Num q → (lo ≤ q ≤ hi)%Qc.
Proof.
  intros Hb. destruct x as [|a]; simpl; [done|]. intros [= <-]. split.
  - apply Qcmin_lower; [apply Qcmax_lower | done].
  - apply Qcmin_upper.
Qed.

Lemma length_bind_const {A} (f : nat → list A) n w :
  (∀ i, i < n → length (f i) = w) → length (seq 0 n ≫= f) = n * w.
Proof.
  induction n as [|n IH]; intros Hlen; [done|].
  rewrite seq_S, bind_app, length_app. simpl. rewrite app_nil_r.
  rewrite IH, Hlen by (intros; try apply Hlen; lia). lia.
Qed.

(** Entry [j] of chunk [i] of a list made of [n] chunks of width [w]. *)
Lemma lookup_bind_chunks {A} (f : nat → list A) n w i j :
  (∀ i, i < n → length (f i) = w) → i < n → j < w →
  (seq 0 n ≫= f) !! (i * w + j) = f i !! j.
Proof.
  intros Hlen. induction n as [|n IH]; intros Hi Hj; [lia|].
  rewrite seq_S, bind_app. simpl. rewrite app_nil_r.
  assert (Hl : length (seq 0 n ≫= f) = n * w).
  { apply length_bind_const. intros. apply Hlen. lia. }
  destruct (decide (i = n)) as [->|Hne].
  - rewrite lookup_app_r by nia. f_equal. rewrite Hl. lia.
  - rewrite lookup_app_l by nia. apply IH; [intros; apply Hlen|..]; lia.
Qed.

(** ** [compute_flat_rewards] *)

Section flat_rewards.
Context {mol graph fp : Type}.
Variable mol2graph : mol → option graph.
Variable seh : graph → fval.
Variable fingerprint : mol → fp.
Variable km_predict : fp → Z.
Variables (qed calculateScore MolWt : mol → result fval).

Lemma is_valid_none (mols : list mol) :
  (∀ m, m ∈ mols → mol2graph m = None) →
  (λ g : option graph, bool_decide (g ≠ None)) <$> (mol2graph <$> mols)
  = replicate (length mols) false.
Proof.
  induction mols as [|m mols IH]; intros H; [done|].
  rewrite !fmap_cons, (H m) by left. rewrite IH; [done|].
  intros. apply H. by right.
Qed.

Lemma existsb_replicate_false n : existsb id (replicate n false) = false.
Proof. by induction n. Qed.

Lemma graphs_all_valid (mols : list mol) :
  (∀ m, m ∈ mols → is_Some (mol2graph m)) →
  ∃ gs, mol2graph <$> mols = Some <$> gs ∧ length gs = length mols.
Proof.
  induction mols as [|m mols IH]; intros H.
  - by exists [].
  - destruct (H m) as [g Hg]; [left|].
    destruct IH as (gs & Hgs & Hl); [intros; apply H; by right|].
    exists (g :: gs). rewrite !fmap_cons, Hg, Hgs. simpl. by rewrite Hl.
Qed.

Lemma omap_id_Some (gs : list graph) : omap id (Some <$> gs) = gs.
Proof. induction gs; csimpl; by f_equal. Qed.

Lemma is_valid_Some (gs : list graph) :
  (λ g : option graph, bool_decide (g ≠ None)) <$> (Some <$> gs)
  = replicate (length gs) true.
Proof. induction gs; csimpl; by f_equal. Qed.

Lemma existsb_replicate_true n : n ≠ 0 → existsb id (replicate n true) = true.
Proof. by destruct n. Qed.
End flat_rewards.

Lemma stack1_ok (cols : list (list fval)) (n : nat) :
  cols ≠ [] → Forall (λ c, length c = n) cols →
  stack1 cols
  = Ok (mkTensor [n; length cols] (i ← seq 0 n; (λ col, col !!! i) <$> cols)).
Proof.
  intros Hne Hall. destruct cols as [|c cols]; [done|].
  unfold stack1. pose proof (Forall_inv Hall) as Hc. simpl in Hc. rewrite Hc.
  rewrite (proj2 (forallb_forall _ _)); [done|].
  intros c' Hin. apply bool_decide_eq_true.
  rewrite Forall_forall in Hall. apply Hall. by apply list_elem_of_In.
Qed.

Lemma get2_stack (cols : list (list fval)) (n j c : nat) (col : list fval) :
  j < n → cols !! c = Some col →
  get2 (mkTensor [n; length cols] (i ← seq 0 n; (λ col, col !!! i) <$> cols)) j c
  = col !!! j.
Proof.
  intros Hj Hc. unfold get2. cbn [shape data].
  apply list_lookup_total_correct.
  rewrite (lookup_bind_chunks _ n (length cols)).
  - by rewrite list_lookup_fmap, Hc.
  - intros. by rewrite length_fmap.
  - done.
  - by eapply lookup_lt_Some.
Qed.

Section moo_rewards.
Context {mol graph : Type}.
Variable mol2graph : mol → option graph.
Variable seh : graph → fval.
Variables (qed calculateScore MolWt : mol → result fval).

Lemma valid_mols_filter (mols : list mol) :
  SEHMOOTask.valid_mols mols
    ((λ g : option graph, bool_decide (g ≠ None)) <$> (mol2graph <$> mols))
  = filter (converts mol2graph) mols.
Proof.
  unfold SEHMOOTask.valid_mols.
  induction mols as [|m mols IH]; [done|].
  rewrite !fmap_cons. cbn [zip zip_with].
  destruct (mol2graph m) as [g|] eqn:E.
  - rewrite filter_cons_True by done.
    rewrite (filter_cons_True (converts mol2graph)) by (by exists g).
    rewrite fmap_cons. simpl. by rewrite IH.
  - rewrite filter_cons_False by done.
    rewrite (filter_cons_False (converts mol2graph)); [done|].
    unfold converts. rewrite E. by intros [? [=]].
Qed.

(** The batch holds the graphs of the molecules that convert, in order. *)
Lemma batch_lookup (mols : list mol) (j : nat) :
  omap id (mol2graph <$> mols) !! j
  = filter (converts mol2graph) mols !! j ≫= mol2graph.
Proof.
  revert j. induction mols as [|m mols IH]; intros j; [done|].
  rewrite fmap_cons. csimpl.
  destruct (mol2graph m) as [g|] eqn:E.
  - rewrite (filter_cons_True (converts mol2graph)) by (by exists g).
    destruct j as [|j]; simpl; [by rewrite E|apply IH].
  - rewrite (filter_cons_False (converts mol2graph)); [apply IH|].
    unfold converts. rewrite E. by intros [? [=]].
Qed.

Lemma batch_length (mols : list mol) :
  length (omap id (mol2graph <$> mols))
  = length (filter (converts mol2graph) mols).
Proof.
  induction mols as [|m mols IH]; [done|].
  rewrite fmap_cons. csimpl.
  destruct (mol2graph m) as [g|] eqn:E.
  - rewrite (filter_cons_True (converts mol2graph)) by (by exists g).
    simpl. by rewrite IH.
  - rewrite (filter_cons_False (converts mol2graph)); [apply IH|].
    unfold converts. rewrite E. by intros [? [=]].
Qed.

Lemma some_valid (mols : list mol) :
  (∃ m, m ∈ mols ∧ converts mol2graph m) →
  existsb id ((λ g : option graph, bool_decide (g ≠ None)) <$> (mol2graph <$> mols))
  = true.
Proof.
  intros (m & Hin & [g Hg]). apply existsb_exists. exists true. split; [|done].
  apply list_elem_of_In, list_elem_of_fmap. exists (Some g). split; [done|].
  apply list_elem_of_fmap. by exists m.
Qed.

Local Abbreviation column := (column mol2graph seh qed calculateScore MolWt).

Lemma column_length (mols : list mol) (o : string) :
  length (column mols o) = length (filter (converts mol2graph) mols).
Proof.
  unfold column, SEHMOOTask.seh_column, SEHMOOTask.qed_column,
    SEHMOOTask.sa_column, SEHMOOTask.mw_column.
  repeat case_decide; rewrite ?length_fmap; auto using batch_length.
Qed.

(** With at least one molecule that converts and at least one objective of
    the vocabulary, the call returns the stacked columns. *)
Lemma compute_flat_rewards_stack (self : SEHMOOTask.t) (mols : list mol) :
  (∃ m, m ∈ mols ∧ converts mol2graph m) →
  (∃ o, o ∈ SEHMOOTask.vocabulary ∧ o ∈ SEHMOOTask.objectives self) →
  ∃ t,
    SEHMOOTask.compute_flat_rewards mol2graph seh qed calculateScore MolWt
      self mols
    = Ok (t, (λ g : option graph, bool_decide (g ≠ None)) <$> (mol2graph <$> mols))
    ∧ (let n := length (filter (converts mol2graph) mols) in
       let w := present (SEHMOOTask.objectives self) "seh"
                + present (SEHMOOTask.objectives self) "qed"
                + present (SEHMOOTask.objectives self) "sa"
                + present (SEHMOOTask.objectives self) "mw" in
       shape t = [n; w] ∧ length (data t) = n * w)
    ∧ ∀ o j, o ∈ SEHMOOTask.vocabulary → o ∈ SEHMOOTask.objectives self →
        j < length (filter (converts mol2graph) mols) →
        get2 t j (column_of (SEHMOOTask.objectives self) o) = column mols o !!! j.
Proof.
  intros Hv (o0 & Hvoc0 & Hobj0).
  unfold SEHMOOTask.compute_flat_rewards.
  rewrite (some_valid mols Hv). cbn [negb]. rewrite valid_mols_filter.
  set (n := length (filter (converts mol2graph) mols)).
  set (objs := SEHMOOTask.objectives self) in *.
  pose proof (column_length mols "seh") as L1.
  pose proof (column_length mols "qed") as L2.
  pose proof (column_length mols "sa") as L3.
  pose proof (column_length mols "mw") as L4.
  unfold column in L1, L2, L3, L4. simpl in L1, L2, L3, L4.
  assert (Hcase : bool_decide ("seh" ∈ objs) = true ∨ bool_decide ("qed" ∈ objs) = true
          ∨ bool_decide ("sa" ∈ objs) = true ∨ bool_decide ("mw" ∈ objs) = true).
  { unfold SEHMOOTask.vocabulary in Hvoc0.
    repeat (apply elem_of_cons in Hvoc0 as [->|Hvoc0];
            [rewrite (bool_decide_true _ Hobj0); tauto|]).
    by apply elem_of_nil in Hvoc0. }
  unfold column_of, present.
  destruct (bool_decide ("seh" ∈ objs)) eqn:B1;
    destruct (bool_decide ("qed" ∈ objs)) eqn:B2;
    destruct (bool_decide ("sa" ∈ objs)) eqn:B3;
    destruct (bool_decide ("mw" ∈ objs)) eqn:B4;
    try (by destruct Hcase as [?|[?|[?|?]]]);
    cbn [app];
    (erewrite (stack1_ok _ n); [|done|repeat constructor; assumption]);
    (eexists; split; [reflexivity|]; split;
     [cbn [shape data length Nat.add]; split; [done|];
      apply length_bind_const; intros; by rewrite length_fmap|]);
    intros o j Hvoc Hobj Hj; unfold SEHMOOTask.vocabulary in Hvoc;
    repeat (apply elem_of_cons in Hvoc as [->|Hvoc];
            [first [ apply bool_decide_eq_false in B1; done
                   | apply bool_decide_eq_false in B2; done
                   | apply bool_decide_eq_false in B3; done
                   | apply bool_decide_eq_false in B4; done
                   | by apply get2_stack ]|]);
    by apply elem_of_nil in Hvoc.
Qed.
End moo_rewards.

(** C5. When no molecule of the input converts to a graph, both
    [compute_flat_rewards] return normally: a reward tensor with no row and
    as many columns as objectives (one in the single-objective task), and a
    validity mask that is [False] at every position. *)
Theorem compute_flat_rewards_no_valid_molecule {mol graph fp : Type}
    (mol2graph : mol → option graph) (seh : graph → fval)
    (fingerprint : mol → fp) (km_predict : fp → Z)
    (qed calculateScore MolWt : mol → result fval)
    (single : SEHTask.t) (multi : SEHMOOTask.t) (mols : list mol) :
  (∀ m, m ∈ mols → mol2graph m = None) →
  SEHTask.compute_flat_rewards mol2graph seh fingerprint km_predict single mols
    = Ok (mkTensor [0; 1] [], replicate (length mols) false)
  ∧ SEHMOOTask.compute_flat_rewards mol2graph seh qed calculateScore MolWt multi mols
    = Ok (mkTensor [0; length (SEHMOOTask.objectives multi)] [],
          replicate (length mols) false).
Proof.
  intros H. unfold SEHTask.compute_flat_rewards, SEHMOOTask.compute_flat_rewards.
  rewrite (is_valid_none mol2graph mols H), existsb_replicate_false. done.
Qed.

Lemma compute_flat_rewards_no_valid_molecule_witness :
  (∀ m, m ∈ [1; 3; 5] → Sample.mol2graph m = None)
  ∧ SEHTask.compute_flat_rewards Sample.mol2graph Sample.seh Sample.fingerprint
      Sample.km_predict Sample.sharded [1; 3; 5]
    = Ok (mkTensor [0; 1] [], [false; false; false])
  ∧ SEHMOOTask.compute_flat_rewards Sample.mol2graph Sample.seh Sample.qed
      Sample.calculateScore Sample.MolWt Sample.moo [1; 3; 5]
    = Ok (mkTensor [0; 4] [], [false; false; false]).
Proof.
  assert (H : ∀ m, m ∈ [1; 3; 5] → Sample.mol2graph m = None).
  { intros m Hm. repeat (apply elem_of_cons in Hm as [->|Hm]; [reflexivity|]).
    by apply elem_of_nil in Hm. }
  split; [exact H|].
  exact (compute_flat_rewards_no_valid_molecule Sample.mol2graph Sample.seh
           Sample.fingerprint Sample.km_predict Sample.qed Sample.calculateScore
           Sample.MolWt Sample.sharded Sample.moo [1; 3; 5] H).
Defined.

(** C1, as stated, fails: a molecule of another partition gets the floor
    of the clip, [1e-4], not 0. Molecule 4 is classified into partition 1
    while the worker holds partition 0. *)
Lemma sharded_reward_not_zero :
  ∃ t v,
    SEHTask.compute_flat_rewards Sample.mol2graph Sample.seh Sample.fingerprint
      Sample.km_predict Sample.sharded [2; 4] = Ok (t, v)
    ∧ Sample.km_predict (Sample.fingerprint 4) ≠ 0%Z
    ∧ data t !! 1 = Some (Num (qc 1 10000))
    ∧ data t !! 1 ≠ Some (Num 0%Qc).
Proof.
  eexists _, _. split; [reflexivity|]. split; [done|]. split.
  - vm_compute. done.
  - vm_compute. intros [= H].
Qed.

(** C1, amended. In sharded mode, on a batch in which every molecule
    converts to a graph, the call returns one reward per molecule: the clip
    floor [1e-4] for a molecule classified into another partition than the
    worker's, and for a molecule of the worker's partition the very reward
    that the computation without sharding returns. *)
Theorem sharded_rewards_filtered {mol graph fp : Type}
    (mol2graph : mol → option graph) (seh : graph → fval)
    (fingerprint : mol → fp) (km_predict : fp → Z)
    (self unfiltered : SEHTask.t) (p : Z) (mols : list mol) :
  SEHTask.part self = Some p →
  SEHTask.part unfiltered = None →
  (∀ m, m ∈ mols → is_Some (mol2graph m)) →
  ∃ t t0 v,
    SEHTask.compute_flat_rewards mol2graph seh fingerprint km_predict self mols
      = Ok (t, v)
    ∧ SEHTask.compute_flat_rewards mol2graph seh fingerprint km_predict
        unfiltered mols = Ok (t0, v)
    ∧ shape t = [length mols; 1] ∧ shape t0 = [length mols; 1]
    ∧ ∀ i m, mols !! i = Some m →
        data t !! i =
          if decide (km_predict (fingerprint m) = p) then data t0 !! i
          else Some (Num clip_lo).
Proof.
  intros Hp Hn Hv.
  destruct (graphs_all_valid mol2graph mols Hv) as (gs & Hgs & Hlen).
  unfold SEHTask.compute_flat_rewards. rewrite Hp, Hn, Hgs, is_valid_Some.
  destruct (decide (length gs = 0)) as [Hz|Hnz].
  { destruct gs; [|done]. destruct mols; [|done].
    eexists _, _, _. repeat split; try reflexivity. intros i m Hi. done. }
  rewrite existsb_replicate_true by done. cbn [negb].
  rewrite omap_id_Some. unfold mask_assign, SEHTask.kmeans_classify.
  rewrite decide_True by (by rewrite !length_fmap).
  eexists _, _, _. split; [reflexivity|]. split; [reflexivity|].
  cbn [shape data reshape_col]. rewrite !length_fmap, length_zip_with, !length_fmap.
  split; [f_equal; lia|]. split; [f_equal; lia|].
  intros i m Hi.
  assert (is_Some (gs !! i)) as [g Hg].
  { apply lookup_lt_is_Some. rewrite Hlen. by eapply lookup_lt_Some. }
  rewrite !list_lookup_fmap, lookup_zip_with, !list_lookup_fmap, Hi, Hg. simpl.
  destruct (decide (km_predict (fingerprint m) = p)) as [He|He].
  - by rewrite bool_decide_false by (by intros ?).
  - by rewrite bool_decide_true.
Qed.

Lemma sharded_rewards_filtered_witness :
  ∃ t t0 v,
    SEHTask.compute_flat_rewards Sample.mol2graph Sample.seh Sample.fingerprint
      Sample.km_predict Sample.sharded [2; 4] = Ok (t, v)
    ∧ SEHTask.compute_flat_rewards Sample.mol2graph Sample.seh
        Sample.fingerprint Sample.km_predict Sample.unsharded [2; 4] = Ok (t0, v)
    ∧ shape t = [2; 1] ∧ shape t0 = [2; 1]
    ∧ ∀ i m, [2; 4] !! i = Some m →
        data t !! i =
          if decide (Sample.km_predict (Sample.fingerprint m) = 0%Z)
          then data t0 !! i else Some (Num clip_lo).
Proof.
  apply (sharded_rewards_filtered Sample.mol2graph Sample.seh Sample.fingerprint
           Sample.km_predict Sample.sharded Sample.unsharded 0 [2; 4]).
  - reflexivity.
  - reflexivity.
  - intros m Hm.
    repeat (apply elem_of_cons in Hm as [->|Hm]; [by eexists|]).
    by apply elem_of_nil in Hm.
Defined.

(** The single-objective call without sharding, on any batch with a molecule
    that converts. *)
Lemma compute_flat_rewards_unsharded {mol graph fp : Type}
    (mol2graph : mol → option graph) (seh : graph → fval)
    (fingerprint : mol → fp) (km_predict : fp → Z)
    (self : SEHTask.t) (mols : list mol) :
  SEHTask.part self = None →
  (∃ m, m ∈ mols ∧ converts mol2graph m) →
  SEHTask.compute_flat_rewards mol2graph seh fingerprint km_predict self mols
  = Ok (mkTensor [length (filter (converts mol2graph) mols); 1]
          ((λ g, fclip clip_lo clip_hi
                   (SEHTask.flat_reward_transform (nan_to_zero (seh g))))
             <$> omap id (mol2graph <$> mols)),
        (λ g : option graph, bool_decide (g ≠ None)) <$> (mol2graph <$> mols)).
Proof.
  intros Hp Hv. unfold SEHTask.compute_flat_rewards.
  rewrite (some_valid mol2graph mols Hv), Hp. cbn [negb mbind result_bind].
  unfold reshape_col. cbn [data]. rewrite !length_fmap, batch_length.
  by rewrite <- !list_fmap_compose.
Qed.

(** C4, as stated, fails: the multi-objective task clips the proxy output
    to [1e-4, 100] inside [compute_flat_rewards], before the division by 8.
    The proxy scores graph 2 with 0 and the reward is [1e-4 / 8], not
    [0 / 8]. *)
Lemma moo_affinity_is_clipped :
  Sample.seh 2 = Num 0%Qc
  ∧ ∃ t v,
      SEHMOOTask.compute_flat_rewards Sample.mol2graph Sample.seh Sample.qed
        Sample.calculateScore Sample.MolWt Sample.moo [2] = Ok (t, v)
      ∧ get2 t 0 0 = Num (qc 1 80000)
      ∧ get2 t 0 0 ≠ fdiv (Sample.seh 2) (Num (qc 8 1)).
Proof.
  split; [closed_eq|]. eexists _, _. split; [reflexivity|]. split.
  - closed_eq.
  - vm_compute. intros [= H].
Qed.

Lemma clip_range : (clip_lo ≤ clip_hi)%Qc.
Proof. by apply Qcleb_le. Qed.

(** The single-objective reward of a proxy output is a number of the clip
    range, whatever the output. *)
Lemma seh_reward_in_range (x : fval) :
  ∃ q, fclip clip_lo clip_hi (SEHTask.flat_reward_transform (nan_to_zero x)) = Num q
       ∧ (clip_lo ≤ q ≤ clip_hi)%Qc.
Proof.
  assert (∃ y, SEHTask.flat_reward_transform (nan_to_zero x) = Num y) as [y Hy].
  { destruct x as [|a]; cbn; rewrite bool_decide_false by (intros [=]); eauto. }
  rewrite Hy. eexists. split; [reflexivity|].
  eapply (fclip_bounds _ _ (Num y)); [apply clip_range|reflexivity].
Qed.

(** An eighth of a number of the clip range. *)
Lemma eighth_of_clipped (x : Qc) :
  let c := Qcmin (Qcmax x clip_lo) clip_hi in
  nan_to_zero (fdiv (fclip clip_lo clip_hi (Num x)) (Num (qc 8 1)))
  = Num (c / qc 8 1)%Qc
  ∧ (qc 1 80000 ≤ c / qc 8 1 ≤ qc 25 2)%Qc.
Proof.
  intros c. split.
  - cbn. by rewrite bool_decide_false by (intros [=]).
  - assert (Hc : (clip_lo ≤ c ≤ clip_hi)%Qc).
    { split; [apply Qcmin_lower; [apply Qcmax_lower|apply clip_range]
             |apply Qcmin_upper]. }
    clearbody c. unfold clip_lo, clip_hi in Hc. destruct Hc as [H1 H2].
    qc_to_q. change (/ 8)%Q with (1 # 8)%Q. split; lra.
Qed.

(** C4, amended. For every molecule that converts, the affinity column of
    the multi-objective reward is the proxy output clipped to [1e-4, 100]
    and then divided by 8, a NaN becoming 0 afterwards: a number between
    1.25e-5 and 12.5 when the proxy gives a number, and 0 when it gives NaN.
    The single-objective reward is the proxy output (a NaN first becomes 0)
    divided by 8 and then clipped to [1e-4, 100]: always a number of that
    range, 1e-4 at a NaN. *)
Theorem moo_affinity_clip_then_scale {mol graph fp : Type}
    (mol2graph : mol → option graph) (seh : graph → fval)
    (fingerprint : mol → fp) (km_predict : fp → Z)
    (qed calculateScore MolWt : mol → result fval)
    (multi : SEHMOOTask.t) (single : SEHTask.t) (mols : list mol)
    (j : nat) (m : mol) (g : graph) :
  "seh" ∈ SEHMOOTask.objectives multi →
  SEHTask.part single = None →
  filter (converts mol2graph) mols !! j = Some m →
  mol2graph m = Some g →
  ∃ t t1 v,
    SEHMOOTask.compute_flat_rewards mol2graph seh qed calculateScore MolWt
      multi mols = Ok (t, v)
    ∧ SEHTask.compute_flat_rewards mol2graph seh fingerprint km_predict
        single mols = Ok (t1, v)
    ∧ get2 t j 0
      = nan_to_zero (fdiv (fclip clip_lo clip_hi (seh g)) (Num (qc 8 1)))
    ∧ get2 t1 j 0
      = fclip clip_lo clip_hi (fdiv (nan_to_zero (seh g)) (Num (qc 8 1)))
    ∧ (∃ q1, get2 t1 j 0 = Num q1 ∧ (clip_lo ≤ q1 ≤ clip_hi)%Qc)
    ∧ match seh g with
      | Num x =>
          ∃ q, get2 t j 0 = Num q
               ∧ q = (Qcmin (Qcmax x clip_lo) clip_hi / qc 8 1)%Qc
               ∧ (qc 1 80000 ≤ q ≤ qc 25 2)%Qc
      | NaN => get2 t j 0 = Num 0%Qc ∧ get2 t1 j 0 = Num clip_lo
      end.
Proof.
  intros Hseh Hp Hj Hg.
  assert (Hv : ∃ m, m ∈ mols ∧ converts mol2graph m).
  { exists m. apply list_elem_of_lookup_2 in Hj.
    by apply list_elem_of_filter in Hj as [? ?]. }
  assert (Hb : omap id (mol2graph <$> mols) !! j = Some g).
  { by rewrite batch_lookup, Hj. }
  destruct (compute_flat_rewards_stack mol2graph seh qed calculateScore MolWt
              multi mols Hv) as (t & Ht & _ & Hcol).
  { exists "seh". split; [compute_done|done]. }
  assert (Hm : get2 t j 0
               = nan_to_zero (fdiv (fclip clip_lo clip_hi (seh g)) (Num (qc 8 1)))).
  { change 0 with (column_of (SEHMOOTask.objectives multi) "seh").
    rewrite Hcol.
    + apply list_lookup_total_correct. unfold column. simpl.
      unfold SEHMOOTask.seh_column. by rewrite !list_lookup_fmap, Hb.
    + compute_done.
    + done.
    + by eapply lookup_lt_Some. }
  exists t. eexists _, _. split; [exact Ht|].
  split; [by apply compute_flat_rewards_unsharded|].
  assert (Hs : get2
                 (mkTensor [length (filter (converts mol2graph) mols); 1]
                    ((λ g, fclip clip_lo clip_hi
                             (SEHTask.flat_reward_transform (nan_to_zero (seh g))))
                       <$> omap id (mol2graph <$> mols))) j 0
               = fclip clip_lo clip_hi
                   (fdiv (nan_to_zero (seh g)) (Num (qc 8 1)))).
  { unfold get2. cbn [shape data]. apply list_lookup_total_correct.
    replace (j * 1 + 0) with j by lia. by rewrite list_lookup_fmap, Hb. }
  split; [exact Hm|]. split; [exact Hs|]. rewrite Hm, Hs. split.
  - apply (seh_reward_in_range (seh g)).
  - destruct (seh g) as [|x].
    + split; [reflexivity|closed_eq].
    + destruct (eighth_of_clipped x) as [He Hr]. eexists. split; [exact He|].
      split; [reflexivity|exact Hr].
Qed.

Lemma moo_affinity_clip_then_scale_witness :
  ∃ t t1 v,
    SEHMOOTask.compute_flat_rewards Sample.mol2graph Sample.seh Sample.qed
      Sample.calculateScore Sample.MolWt Sample.moo [1; 2; 6] = Ok (t, v)
    ∧ SEHTask.compute_flat_rewards Sample.mol2graph Sample.seh
        Sample.fingerprint Sample.km_predict Sample.unsharded [1; 2; 6]
      = Ok (t1, v)
    ∧ get2 t 0 0
      = nan_to_zero (fdiv (fclip clip_lo clip_hi (Sample.seh 2)) (Num (qc 8 1)))
    ∧ get2 t1 0 0
      = fclip clip_lo clip_hi (fdiv (nan_to_zero (Sample.seh 2)) (Num (qc 8 1)))
    ∧ (∃ q1, get2 t1 0 0 = Num q1 ∧ (clip_lo ≤ q1 ≤ clip_hi)%Qc)
    ∧ ∃ q, get2 t 0 0 = Num q ∧ (qc 1 80000 ≤ q ≤ qc 25 2)%Qc.
Proof.
  destruct (moo_affinity_clip_then_scale Sample.mol2graph Sample.seh
              Sample.fingerprint Sample.km_predict Sample.qed
              Sample.calculateScore Sample.MolWt Sample.moo Sample.unsharded
              [1; 2; 6] 0 2 2)
    as (t & t1 & v & Ht & Ht1 & Hm & Hs & Hr & Hnum);
    [compute_done|reflexivity|reflexivity|reflexivity|].
  assert (Hq : ∃ q, get2 t 0 0 = Num q
                    ∧ q = (Qcmin (Qcmax (Qc_of_nat 2 / qc 2 1 - 1) clip_lo)
                             clip_hi / qc 8 1)%Qc
                    ∧ (qc 1 80000 ≤ q ≤ qc 25 2)%Qc) by exact Hnum.
  destruct Hq as (q & Hq & _ & Hb).
  exists t, t1, v. repeat split; try done. by exists q.
Defined.

(** The rewards of the three defaults. *)
Lemma sa_default_reward :
  fdiv (fsub (Num (qc 10 1)) (Num (qc 10 1))) (Num (qc 9 1)) = Num 0%Qc.
Proof. closed_eq. Qed.

Lemma mw_default_reward :
  fclip 0%Qc 1%Qc
    (fadd (fdiv (fsub (Num (qc 300 1)) (Num (qc 1000 1))) (Num (qc 700 1)))
          (Num 1%Qc))
  = Num 0%Qc.
Proof. closed_eq. Qed.

Section descriptor_columns.
Context {mol graph : Type}.
Variable mol2graph : mol → option graph.
Variable seh : graph → fval.
Variables (qed calculateScore MolWt : mol → result fval).
Variables (mols : list mol) (j : nat) (m : mol) (e : exn).
Hypothesis Hj : filter (converts mol2graph) mols !! j = Some m.

Local Abbreviation column := (column mol2graph seh qed calculateScore MolWt).

Lemma qed_column_default :
  qed m = Raise e → column mols "qed" !!! j = Num 0%Qc.
Proof.
  intros Hr. apply list_lookup_total_correct.
  change (column mols "qed")
    with (SEHMOOTask.qed_column qed (filter (converts mol2graph) mols)).
  unfold SEHMOOTask.qed_column, SEHMOOTask.safe.
  by rewrite list_lookup_fmap, Hj; simpl; rewrite Hr.
Qed.

Lemma sa_column_default :
  calculateScore m = Raise e → column mols "sa" !!! j = Num 0%Qc.
Proof.
  intros Hr. apply list_lookup_total_correct.
  change (column mols "sa")
    with (SEHMOOTask.sa_column calculateScore (filter (converts mol2graph) mols)).
  unfold SEHMOOTask.sa_column, SEHMOOTask.safe.
  rewrite !list_lookup_fmap, Hj. cbn [fmap option_fmap option_map]. rewrite Hr.
  by rewrite sa_default_reward.
Qed.

Lemma mw_column_default :
  MolWt m = Raise e → column mols "mw" !!! j = Num 0%Qc.
Proof.
  intros Hr. apply list_lookup_total_correct.
  change (column mols "mw")
    with (SEHMOOTask.mw_column MolWt (filter (converts mol2graph) mols)).
  unfold SEHMOOTask.mw_column, SEHMOOTask.safe.
  rewrite !list_lookup_fmap, Hj. cbn [fmap option_fmap option_map]. rewrite Hr.
  by rewrite mw_default_reward.
Qed.
(** The entries of the four columns at a molecule that converts, by the
    outcome of its descriptor. *)
Lemma seh_column_at (g : graph) :
  mol2graph m = Some g →
  column mols "seh" !!! j
  = nan_to_zero (fdiv (fclip clip_lo clip_hi (seh g)) (Num (qc 8 1))).
Proof.
  intros Hg. apply list_lookup_total_correct.
  change (column mols "seh")
    with (SEHMOOTask.seh_column seh (omap id (mol2graph <$> mols))).
  unfold SEHMOOTask.seh_column.
  rewrite !list_lookup_fmap, batch_lookup, Hj. cbn. by rewrite Hg.
Qed.

Lemma qed_column_at :
  column mols "qed" !!! j
  = match qed m with Ok y => y | Raise _ => Num 0%Qc end.
Proof.
  apply list_lookup_total_correct.
  change (column mols "qed")
    with (SEHMOOTask.qed_column qed (filter (converts mol2graph) mols)).
  unfold SEHMOOTask.qed_column, SEHMOOTask.safe.
  by rewrite list_lookup_fmap, Hj.
Qed.

Lemma sa_column_at :
  column mols "sa" !!! j
  = match calculateScore m with
    | Ok s => fdiv (fsub (Num (qc 10 1)) s) (Num (qc 9 1))
    | Raise _ => Num 0%Qc
    end.
Proof.
  apply list_lookup_total_correct.
  change (column mols "sa")
    with (SEHMOOTask.sa_column calculateScore (filter (converts mol2graph) mols)).
  unfold SEHMOOTask.sa_column, SEHMOOTask.safe.
  rewrite !list_lookup_fmap, Hj. cbn [fmap option_fmap option_map].
  destruct (calculateScore m); [done|]. by rewrite sa_default_reward.
Qed.

Lemma mw_column_at :
  column mols "mw" !!! j
  = match MolWt m with
    | Ok w =>
        fclip 0%Qc 1%Qc
          (fadd (fdiv (fsub (Num (qc 300 1)) w) (Num (qc 700 1))) (Num 1%Qc))
    | Raise _ => Num 0%Qc
    end.
Proof.
  apply list_lookup_total_correct.
  change (column mols "mw")
    with (SEHMOOTask.mw_column MolWt (filter (converts mol2graph) mols)).
  unfold SEHMOOTask.mw_column, SEHMOOTask.safe.
  rewrite !list_lookup_fmap, Hj. cbn [fmap option_fmap option_map].
  destruct (MolWt m); [done|]. by rewrite mw_default_reward.
Qed.
End descriptor_columns.

(** C6. When the descriptor of a configured objective (qed, sa or mw)
    raises on a molecule that converts, [safe] returns the default of that
    objective in its place (0 for qed; 10 for sa and 1000 for mw, whose
    rewards are 0), and the call returns the rewards of the whole batch: the
    mask of the molecules that convert and a tensor with one row for each of
    them and one column for each configured objective, which holds 0 at the
    failing molecule and objective and, everywhere else, the reward of the
    descriptor's value (0 again wherever a descriptor raises). *)
Theorem descriptor_failure_gives_default {mol graph : Type}
    (mol2graph : mol → option graph) (seh : graph → fval)
    (qed calculateScore MolWt : mol → result fval)
    (self : SEHMOOTask.t) (mols : list mol) (j : nat) (m : mol) (e : exn) :
  filter (converts mol2graph) mols !! j = Some m →
  let objs := SEHMOOTask.objectives self in
  let n := length (filter (converts mol2graph) mols) in
  let width := present objs "seh" + present objs "qed" + present objs "sa"
               + present objs "mw" in
  let entry (t : tensor) (i : nat) (o : string) := get2 t i (column_of objs o) in
  let returns_batch (o : string) :=
    ∃ t,
      SEHMOOTask.compute_flat_rewards mol2graph seh qed calculateScore MolWt
        self mols
      = Ok (t, (λ g : option graph, bool_decide (g ≠ None)) <$> (mol2graph <$> mols))
      ∧ shape t = [n; width] ∧ length (data t) = n * width
      ∧ entry t j o = Num 0%Qc
      ∧ ∀ i mi, filter (converts mol2graph) mols !! i = Some mi →
          ("seh" ∈ objs → ∀ g, mol2graph mi = Some g →
             entry t i "seh"
             = nan_to_zero (fdiv (fclip clip_lo clip_hi (seh g)) (Num (qc 8 1))))
          ∧ ("qed" ∈ objs →
             entry t i "qed"
             = match qed mi with Ok y => y | Raise _ => Num 0%Qc end)
          ∧ ("sa" ∈ objs →
             entry t i "sa"
             = match calculateScore mi with
               | Ok s => fdiv (fsub (Num (qc 10 1)) s) (Num (qc 9 1))
               | Raise _ => Num 0%Qc
               end)
          ∧ ("mw" ∈ objs →
             entry t i "mw"
             = match MolWt mi with
               | Ok w =>
                   fclip 0%Qc 1%Qc
                     (fadd (fdiv (fsub (Num (qc 300 1)) w) (Num (qc 700 1)))
                           (Num 1%Qc))
               | Raise _ => Num 0%Qc
               end) in
  ("qed" ∈ objs → qed m = Raise e →
     SEHMOOTask.safe qed m (Num 0%Qc) = Num 0%Qc ∧ returns_batch "qed")
  ∧ ("sa" ∈ objs → calculateScore m = Raise e →
     SEHMOOTask.safe calculateScore m (Num (qc 10 1)) = Num (qc 10 1)
     ∧ returns_batch "sa")
  ∧ ("mw" ∈ objs → MolWt m = Raise e →
     SEHMOOTask.safe MolWt m (Num (qc 1000 1)) = Num (qc 1000 1)
     ∧ returns_batch "mw").
Proof.
  intros Hj objs n width entry returns_batch.
  assert (Hv : ∃ m, m ∈ mols ∧ converts mol2graph m).
  { exists m. apply list_elem_of_lookup_2 in Hj.
    by apply list_elem_of_filter in Hj as [? ?]. }
  assert (Hall : ∀ o, o ∈ SEHMOOTask.vocabulary → o ∈ objs →
            column mol2graph seh qed calculateScore MolWt mols o !!! j = Num 0%Qc →
            returns_batch o).
  { intros o Hvoc Hobj Hz.
    destruct (compute_flat_rewards_stack mol2graph seh qed calculateScore MolWt
                self mols Hv) as (t & Ht & [Hs Hl] & Hcol); [by exists o|].
    exists t. split; [exact Ht|]. split; [exact Hs|]. split; [exact Hl|].
    assert (Hentry : ∀ i o', o' ∈ SEHMOOTask.vocabulary → o' ∈ objs → i < n →
              entry t i o'
              = column mol2graph seh qed calculateScore MolWt mols o' !!! i)
      by (intros; by apply Hcol).
    split; [rewrite Hentry; [done..|]; by eapply lookup_lt_Some|].
    intros i mi Hi.
    assert (Hlt : i < n) by (by eapply lookup_lt_Some).
    split; [|split; [|split]]; intros Ho.
    - intros g Hg. rewrite Hentry; [|compute_done|done..].
      by eapply seh_column_at.
    - rewrite Hentry; [|compute_done|done..]. by eapply qed_column_at.
    - rewrite Hentry; [|compute_done|done..]. by eapply sa_column_at.
    - rewrite Hentry; [|compute_done|done..]. by eapply mw_column_at. }
  split; [|split]; intros Hobj Hr;
    (split; [unfold SEHMOOTask.safe; by rewrite Hr|]);
    (apply Hall; [compute_done|done|]).
  - by eapply qed_column_default.
  - by eapply sa_column_default.
  - by eapply mw_column_default.
Qed.

Lemma descriptor_failure_gives_default_witness :
  filter (converts Sample.mol2graph) [1; 2; 4; 8] !! 0 = Some 2
  ∧ Sample.qed 2 = Raise ValueError
  ∧ SEHMOOTask.safe Sample.qed 2 (Num 0%Qc) = Num 0%Qc
  ∧ ∃ t,
      SEHMOOTask.compute_flat_rewards Sample.mol2graph Sample.seh Sample.qed
        Sample.calculateScore Sample.MolWt Sample.moo [1; 2; 4; 8]
      = Ok (t, [false; true; true; true])
      ∧ shape t = [3; 4] ∧ length (data t) = 12
      ∧ get2 t 0 1 = Num 0%Qc
      ∧ get2 t 1 1 = Num (qc 1 2).
Proof.
  split; [reflexivity|]. split; [reflexivity|].
  destruct (descriptor_failure_gives_default Sample.mol2graph Sample.seh
              Sample.qed Sample.calculateScore Sample.MolWt Sample.moo
              [1; 2; 4; 8] 0 2 ValueError eq_refl) as (Hqed & _ & _).
  destruct Hqed as (Hsafe & t & Ht & Hs & Hl & Hz & Hrest);
    [compute_done|reflexivity|].
  split; [exact Hsafe|]. exists t.
  split; [exact Ht|]. split; [exact Hs|]. split; [exact Hl|]. split; [exact Hz|].
  destruct (Hrest 1 4 eq_refl) as (_ & Hq & _). apply Hq. compute_done.
Defined.

(** ** Broadcasting *)

Lemma numel_app (a b : list nat) : numel (a ++ b) = numel a * numel b.
Proof.
  unfold numel. induction a as [|x a IH]; simpl; [lia|]. rewrite IH. lia.
Qed.

Lemma numel_reverse (s : list nat) : numel (reverse s) = numel s.
Proof.
  induction s as [|x s IH]; [done|].
  rewrite reverse_cons, numel_app, IH. simpl. lia.
Qed.

Lemma broadcast_rev_same (r : list nat) : broadcast_rev r r = Some r.
Proof.
  induction r as [|d r IH]; [done|]. simpl. rewrite IH. simpl.
  by rewrite decide_True.
Qed.

Lemma broadcast_shapes_same (s : list nat) : broadcast_shapes s s = Some s.
Proof.
  unfold broadcast_shapes. rewrite broadcast_rev_same. simpl.
  by rewrite reverse_involutive.
Qed.

(** Broadcasting keeps the longer of the two ranks. *)
Lemma broadcast_rev_length (a b r : list nat) :
  broadcast_rev a b = Some r → length r = length a `max` length b.
Proof.
  revert b r. induction a as [|x a IH]; intros b r.
  - simpl. intros [= <-]. done.
  - destruct b as [|y b]; simpl; [intros [= <-]; simpl; lia|].
    destruct (broadcast_rev a b) as [r'|] eqn:E; simpl; [|done].
    apply IH in E.
    repeat case_decide; intros [= <-]; simpl; lia.
Qed.

Lemma broadcast_shapes_length (a b s : list nat) :
  broadcast_shapes a b = Some s → length s = length a `max` length b.
Proof.
  unfold broadcast_shapes.
  destruct (broadcast_rev (reverse a) (reverse b)) as [r|] eqn:E; simpl; [|done].
  intros [= <-]. apply broadcast_rev_length in E.
  by rewrite !length_reverse in *.
Qed.

(** Within one shape the source offset is the flat index itself. *)
Lemma src_offset_same (r : list nat) (i stride : nat) :
  i < numel r → src_offset r r i stride = stride * i.
Proof.
  revert i stride. induction r as [|d r IH]; intros i stride Hi.
  - simpl in *. lia.
  - change (numel (d :: r)) with (d * numel r) in Hi.
    assert (d ≠ 0) by (intros ->; lia).
    simpl. rewrite IH.
    + pose proof (Nat.div_mod_eq i d). case_decide; [subst d|].
      * rewrite Nat.div_1_r. lia.
      * nia.
    + apply Nat.Div0.div_lt_upper_bound. lia.
Qed.

Lemma bget_same (t : tensor) (i : nat) :
  i < numel (shape t) → bget (shape t) t i = data t !!! i.
Proof.
  intros Hi. unfold bget. rewrite src_offset_same; [f_equal; lia|].
  by rewrite numel_reverse.
Qed.

Lemma zip_with_seq (f : fval → fval → fval) (l1 l2 : list fval) (n : nat) :
  length l1 = n → length l2 = n →
  (λ i, f (l1 !!! i) (l2 !!! i)) <$> seq 0 n = zip_with f l1 l2.
Proof.
  intros H1 H2. apply list_eq. intros i.
  rewrite list_lookup_fmap, lookup_zip_with.
  destruct (decide (i < n)) as [Hi|Hi].
  - rewrite lookup_seq_lt by done. simpl.
    destruct (lookup_lt_is_Some_2 l1 i) as [x Hx]; [lia|].
    destruct (lookup_lt_is_Some_2 l2 i) as [y Hy]; [lia|].
    rewrite Hx, Hy. simpl.
    by rewrite (list_lookup_total_correct _ _ _ Hx),
      (list_lookup_total_correct _ _ _ Hy).
  - rewrite lookup_seq_ge by lia. rewrite (lookup_ge_None_2 l1) by lia. done.
Qed.

(** The product of two tensors of one shape is taken entry by entry. *)
Lemma tmul_same_shape (a b : tensor) :
  shape a = shape b → wf a → wf b →
  tmul a b = Ok (mkTensor (shape a) (zip_with fmul (data a) (data b))).
Proof.
  intros Hs Ha Hb. unfold tmul. rewrite <- Hs, broadcast_shapes_same.
  do 2 f_equal. rewrite <- (zip_with_seq _ _ _ (numel (shape a))); [|done|].
  - apply list_fmap_ext. intros i ? Hi.
    apply lookup_seq in Hi as [-> Hi]. simpl.
    rewrite bget_same by done.
    rewrite Hs at 1. rewrite bget_same by (by rewrite <- Hs). done.
  - unfold wf in Hb. by rewrite Hb, Hs.
Qed.



(** The sum over the second dimension of a matrix, row by row. *)
Lemma tsum1_matrix (n k : nat) (d : list fval) :
  tsum1 (mkTensor [n; k] d)
  = Ok (mkTensor [n] ((λ i, fsum ((λ j, d !!! (i * k + j)) <$> seq 0 k)) <$> seq 0 n)).
Proof.
  unfold tsum1. cbn [shape data numel foldr]. do 2 f_equal.
  induction (seq 0 n) as [|i l IH]; [done|].
  rewrite fmap_cons, bind_cons, IH. cbn [seq fmap list_fmap app]. do 2 f_equal.
  apply list_fmap_ext. intros ? j _. f_equal. lia.
Qed.

(** ** [cond_info_to_logreward] *)

Lemma eps_positive : Qcltb 0%Qc eps = true.
Proof. reflexivity. Qed.

(** After the clamp the logarithm is taken at a number that is at least
    [eps], so it is a number. *)
Lemma flog_clamp_finite (ln : Qc → Qc) (x : Qc) :
  flog ln (fclamp_min eps (Num x)) = Num (ln (Qcmax x eps))
  ∧ (eps ≤ Qcmax x eps)%Qc.
Proof.
  pose proof (Qcmax_lower x eps) as Hle. split; [|done]. simpl.
  rewrite (proj2 (Qcltb_lt _ _)); [done|].
  eapply Qclt_le_trans; [|exact Hle]. by apply Qcltb_lt.
Qed.

Lemma squeeze_column (n : nat) (d : list fval) :
  n ≠ 1 → squeeze (mkTensor [n; 1] d) = mkTensor [n] d.
Proof.
  intros Hn. unfold squeeze. cbn [shape data]. f_equal.
  rewrite filter_cons_True by done. by rewrite filter_cons_False by (by intros []).
Qed.

(** The single-objective log-reward of a batch of [n] molecules, [n ≠ 1]:
    [log(clamp(reward, min=eps)) * beta], entry by entry. *)
Lemma seh_logreward_formula (ln : Qc → Qc) (n : nat) (F B : list fval)
    (enc : tensor) (prefs : option tensor) :
  n ≠ 1 → length F = n → length B = n →
  SEHTask.cond_info_to_logreward ln (mkCond (mkTensor [n] B) enc prefs)
    (ArgTensor (mkTensor [n; 1] F))
  = Ok (mkTensor [n]
          (zip_with (λ r b, fmul (flog ln (fclamp_min eps r)) b) F B)).
Proof.
  intros Hn HF HB. unfold SEHTask.cond_info_to_logreward.
  cbn [SEHTask.as_tensor mbind result_bind beta].
  rewrite squeeze_column by done. unfold tmap. cbn [shape data].
  rewrite bool_decide_true by done. cbn [assert mbind result_bind].
  rewrite tmul_same_shape; cbn [shape data]; unfold wf; cbn [shape data numel foldr];
    rewrite ?length_fmap; try lia; [|done].
  do 2 f_equal. rewrite <- list_fmap_compose.
  by rewrite zip_with_fmap_l.
Qed.

Lemma lookup_total_zip_with_fmul (l1 l2 : list fval) (i : nat) :
  i < length l1 → i < length l2 →
  zip_with fmul l1 l2 !!! i = fmul (l1 !!! i) (l2 !!! i).
Proof.
  intros H1 H2.
  destruct (lookup_lt_is_Some_2 l1 i H1) as [x Hx].
  destruct (lookup_lt_is_Some_2 l2 i H2) as [y Hy].
  rewrite (list_lookup_total_correct _ _ _ Hx), (list_lookup_total_correct _ _ _ Hy).
  apply list_lookup_total_correct. by rewrite lookup_zip_with, Hx, Hy.
Qed.

(** The multi-objective log-reward of a batch of [n] molecules and [k]
    objectives: [log(clamp(sum(flat_reward * preferences), min=eps)) * beta],
    row by row. *)
Lemma moo_logreward_formula (ln : Qc → Qc) (n k : nat) (F P B : list fval)
    (enc : tensor) :
  length F = n * k → length P = n * k → length B = n →
  SEHMOOTask.cond_info_to_logreward ln
    (mkCond (mkTensor [n] B) enc (Some (mkTensor [n; k] P)))
    (ArgTensor (mkTensor [n; k] F))
  = Ok (mkTensor [n]
          ((λ i, fmul (flog ln (fclamp_min eps (weighted_sum k F P i))) (B !!! i))
             <$> seq 0 n)).
Proof.
  intros HF HP HB. unfold SEHMOOTask.cond_info_to_logreward.
  cbn [SEHMOOTask.as_tensor SEHMOOTask.get_preferences preferences mbind
       result_bind beta].
  rewrite tmul_same_shape; cbn [shape data]; unfold wf; cbn [shape data numel foldr];
    try lia; [|done].
  cbn [mbind result_bind]. rewrite tsum1_matrix. cbn [mbind result_bind].
  unfold tmap. cbn [shape data].
  rewrite bool_decide_true by done. cbn [assert mbind result_bind].
  rewrite tmul_same_shape; cbn [shape data]; unfold wf; cbn [shape data numel foldr];
    rewrite ?length_fmap, ?length_seq; try lia; [|done].
  do 2 f_equal. rewrite <- !list_fmap_compose.
  rewrite <- (zip_with_seq _ _ _ n) by (by rewrite ?length_fmap, ?length_seq).
  apply list_fmap_ext. intros i ? Hi. apply lookup_seq in Hi as [-> Hi]. simpl.
  f_equal.
  rewrite (list_lookup_total_correct _ _
             (flog ln (fclamp_min eps (weighted_sum k F P i)))).
  { done. }
  rewrite list_lookup_fmap, lookup_seq_lt by done. simpl. do 3 f_equal.
  unfold weighted_sum. f_equal.
  apply list_fmap_ext. intros j ? Hj. apply lookup_seq in Hj as [-> Hj]. simpl.
  apply lookup_total_zip_with_fmul; nia.
Qed.

(** C2, at the input on which the code departs from the claim: a
    single-objective batch of one molecule. The reward tensor of shape
    [(1, 1)] is squeezed to a scalar, the assertion compares its 0
    dimensions with the 1 dimension of [beta], and the call raises instead
    of returning [log(clamp(reward, min=eps)) * beta]. The multi-objective
    task returns on the same batch. *)
Theorem seh_logreward_batch_of_one_raises (ln : Qc → Qc) (r p b : fval)
    (enc : tensor) :
  SEHTask.cond_info_to_logreward ln
    (mkCond (mkTensor [1] [b]) enc (Some (mkTensor [1; 1] [p])))
    (ArgTensor (mkTensor [1; 1] [r]))
  = Raise AssertionError
  ∧ SEHMOOTask.cond_info_to_logreward ln
      (mkCond (mkTensor [1] [b]) enc (Some (mkTensor [1; 1] [p])))
      (ArgTensor (mkTensor [1; 1] [r]))
    = Ok (mkTensor [1]
            [fmul (flog ln (fclamp_min eps (fadd (Num 0%Qc) (fmul r p)))) b]).
Proof.
  split; [reflexivity|].
  by rewrite (moo_logreward_formula ln 1 1 [r] [p] [b]).
Qed.




(** ** The conditioning sampler *)

(** C7, as stated, fails: a task with the unsupported family ["cauchy"] is
    constructed without any error, and the failure comes at the first call
    of [sample_conditional_information], as the error of converting the
    unassigned [beta] to a tensor. *)
Lemma unsupported_family_passes_setup :
  ("cauchy" ∉ supported_families)
  ∧ SEHTask.init "cauchy" (ParamPair 0%Qc 1%Qc) 4 None None
    = Ok SampleConditioning.cauchy
  ∧ SEHTask.sample_conditional_information SampleConditioning.exp
      SampleConditioning.gamma_ppf95 SampleConditioning.rng
      SampleConditioning.cauchy 8
    = Raise RuntimeError.
Proof. split; [compute_done|]. split; reflexivity. Qed.

(** C7, amended. When [temperature_sample_dist] names a family outside
    the supported set, the construction of the task succeeds and stores the
    name unchecked; every call of [sample_conditional_information], in the
    single- and in the multi-objective task, then raises the error of
    converting the unassigned [beta] to a tensor, and returns nothing. *)
Theorem unsupported_family_fails_when_sampling (family : string)
    (params : dist_params) (d : nat) (part total_parts : option Z)
    (objectives : list string) (use_pref_thermometer : bool)
    (exp : Qc → Qc) (gamma_ppf95 : Qc → Qc → Qc) (rng : nat → Qc)
    (dirichlet dirichlet_exp : nat → nat → Qc) (n : nat) :
  family ∉ supported_families →
  ∃ task,
    SEHTask.init family params d part total_parts = Ok task
    ∧ SEHTask.temperature_sample_dist task = family
    ∧ SEHTask.sample_conditional_information exp gamma_ppf95 rng task n
      = Raise RuntimeError
    ∧ ∀ moo,
        SEHMOOTask.init objectives family params d use_pref_thermometer = Ok moo →
        SEHMOOTask.sample_conditional_information exp gamma_ppf95 rng
          dirichlet dirichlet_exp moo n
        = Raise RuntimeError.
Proof.
  intros Hf. unfold supported_families in Hf.
  assert (Hsingle : ∀ task, SEHTask.temperature_sample_dist task = family →
            SEHTask.sample_conditional_information exp gamma_ppf95 rng task n
            = Raise RuntimeError).
  { intros task Ht. unfold SEHTask.sample_conditional_information. rewrite Ht.
    repeat (rewrite decide_False; [|intros ->; apply Hf; compute_done]).
    reflexivity. }
  eexists. split; [reflexivity|]. split; [reflexivity|]. split.
  - by apply Hsingle.
  - intros moo Hm. unfold SEHMOOTask.init in Hm.
    destruct (assert _) in Hm; [|done]. injection Hm as <-.
    unfold SEHMOOTask.sample_conditional_information.
    by rewrite Hsingle.
Qed.

Lemma unsupported_family_fails_when_sampling_witness :
  ∃ task,
    SEHTask.init "cauchy" (ParamPair 0%Qc 1%Qc) 4 None None = Ok task
    ∧ SEHTask.temperature_sample_dist task = "cauchy"
    ∧ SEHTask.sample_conditional_information SampleConditioning.exp
        SampleConditioning.gamma_ppf95 SampleConditioning.rng task 8
      = Raise RuntimeError
    ∧ ∀ moo,
        SEHMOOTask.init ["seh"; "qed"] "cauchy" (ParamPair 0%Qc 1%Qc) 4 true
          = Ok moo →
        SEHMOOTask.sample_conditional_information SampleConditioning.exp
          SampleConditioning.gamma_ppf95 SampleConditioning.rng
          SampleConditioning.dirichlet SampleConditioning.dirichlet moo 8
        = Raise RuntimeError.
Proof.
  apply (unsupported_family_fails_when_sampling "cauchy" (ParamPair 0%Qc 1%Qc) 4
           None None ["seh"; "qed"] true).
  compute_done.
Defined.

(** Whether a concatenation returns, and the shape of its result, depend
    only on the shapes of its arguments. *)
Lemma cat1_shape_only (a a' b r : tensor) (n d : nat) :
  shape a = [n; d] → shape a' = [n; d] → cat1 a b = Ok r →
  ∃ r', cat1 a' b = Ok r' ∧ shape r' = shape r.
Proof.
  unfold cat1. intros Ha Ha'. rewrite Ha, Ha'.
  destruct n; destruct (shape b) as [|[|m] [|w [|? ?]]]; try done;
    try (intros [= <-]; eexists; split; [done|congruence]);
    (case_decide; [|done]); intros [= <-]; by eexists.
Qed.

Lemma sample_beta_encoding_shape (exp : Qc → Qc) (gamma_ppf95 : Qc → Qc → Qc)
    (rng : nat → Qc) (task : SEHTask.t) (n : nat) (c : cond_info) :
  SEHTask.sample_conditional_information exp gamma_ppf95 rng task n = Ok c →
  shape (encoding c) = [n; SEHTask.num_thermometer_dim task]
  ∧ shape (beta c) = [n] ∧ preferences c = None
  ∧ (if decide (SEHTask.temperature_sample_dist task = "constant")
     then ∃ x, SEHTask.temperature_dist_params task = ParamFloat x
               ∧ c = mkCond (mkTensor [n] (replicate n (Num x)))
                       (zeros [n; SEHTask.num_thermometer_dim task]) None
     else ∃ a b, SEHTask.temperature_dist_params task = ParamPair a b).
Proof.
  unfold SEHTask.sample_conditional_information.
  destruct (decide (SEHTask.temperature_sample_dist task = "constant")) as [Hc|Hc].
  - destruct (SEHTask.temperature_dist_params task) as [x|a b]; [|done].
    intros [= <-]. repeat split. by exists x.
  - unfold SEHTask.draw.
    destruct (SEHTask.temperature_dist_params task) as [x|a b].
    { repeat case_decide; done. }
    match goal with
    | |- mbind _ ?stage = _ → _ =>
        assert (Hst : stage = Ok (None, None)
                      ∨ ∃ l ub, stage = Ok (Some l, Some ub) ∧ length l = n)
    end.
    { repeat (destruct (decide _);
              [right; eexists _, _; split;
               [reflexivity|by rewrite length_fmap, length_seq]|]).
      by left. }
    destruct Hst as [->|(l & ub & -> & Hl)]; [done|].
    cbn. rewrite Hl. intros [= <-]. cbn. repeat split. by exists a, b.
Qed.

Lemma len_draw_preferences (dirichlet dirichlet_exp : nat → nat → Qc)
    (self : SEHMOOTask.t) (n : nat) :
  SEHMOOTask.len (SEHMOOTask.draw_preferences dirichlet dirichlet_exp self n)
  = Ok n.
Proof.
  unfold SEHMOOTask.len, SEHMOOTask.draw_preferences.
  destruct (SEHMOOTask.seeded_preference self) as [v|].
  - cbn [shape]. by case_decide; subst.
  - by destruct (SEHMOOTask.experimental_dirichlet self).
Qed.

Lemma ones_times (n : nat) (x : Qc) :
  tmap (λ o, fmul o (Num x)) (ones [n]) = mkTensor [n] (replicate n (Num x)).
Proof.
  unfold tmap, ones, full. cbn [shape data numel foldr].
  rewrite Nat.mul_1_r, fmap_replicate. cbn [fmul lift2].
  by rewrite Qcmult_1_l.
Qed.

(** C8. Whatever the configuration and the sampled preference matrix [P],
    whenever [sample_conditional_information n] returns, so does
    [encode_conditional_information P], and both encodings are a beta block
    of [n] rows and [num_thermometer_dim] columns followed by one and the
    same preference block: the thermometer encoding of [P] over [0, 1] with
    [num_thermometer_dim] bins when [use_pref_thermometer] is set, [P]
    itself otherwise. Both record [P] as the preferences, and with a
    constant temperature the two results are equal. *)
Theorem encode_reproduces_sample_encoding (exp : Qc → Qc)
    (gamma_ppf95 : Qc → Qc → Qc) (rng : nat → Qc)
    (dirichlet dirichlet_exp : nat → nat → Qc)
    (self : SEHMOOTask.t) (n : nat) (cs : cond_info) :
  SEHMOOTask.sample_conditional_information exp gamma_ppf95 rng dirichlet
    dirichlet_exp self n = Ok cs →
  let P := SEHMOOTask.draw_preferences dirichlet dirichlet_exp self n in
  let d := SEHMOOTask.num_thermometer_dim self in
  ∃ ce pe Bs Be,
    SEHMOOTask.encode_conditional_information self P = Ok ce
    ∧ preference_encoding d (SEHMOOTask.use_pref_thermometer self) n P = Ok pe
    ∧ shape Bs = [n; d] ∧ shape Be = [n; d]
    ∧ cat1 Bs pe = Ok (encoding cs) ∧ cat1 Be pe = Ok (encoding ce)
    ∧ preferences cs = Some P ∧ preferences ce = Some P
    ∧ (SEHMOOTask.temperature_sample_dist self = "constant" → ce = cs).
Proof.
  intros Hs P d. subst d.
  unfold SEHMOOTask.sample_conditional_information in Hs.
  destruct (SEHTask.sample_conditional_information _ _ _ _ _) as [c|] eqn:Hc;
    [|done].
  cbn [mbind result_bind] in Hs.
  apply sample_beta_encoding_shape in Hc as (Hes & Hbs & Hpn & Hkind).
  fold P in Hs. cbn [SEHMOOTask.super SEHTask.num_thermometer_dim
                     SEHTask.temperature_sample_dist
                     SEHTask.temperature_dist_params] in Hes, Hkind.
  assert (∃ pe, preference_encoding (SEHMOOTask.num_thermometer_dim self) (SEHMOOTask.use_pref_thermometer self) n P
                = Ok pe
                ∧ (pe' ← cat1 (encoding c) pe;
                   Ok (mkCond (beta c) pe' (Some P))) = Ok cs)
    as (pe & Hpe & Hcat).
  { unfold preference_encoding.
    destruct (SEHMOOTask.use_pref_thermometer self).
    - destruct (reshape_rows n _) as [pe|]; [|done]. by exists pe.
    - by exists P. }
  destruct (cat1 (encoding c) pe) as [e|] eqn:He; [|done].
  injection Hcat as <-.
  unfold SEHMOOTask.encode_conditional_information.
  rewrite (len_draw_preferences dirichlet dirichlet_exp self n
           : SEHMOOTask.len P = Ok n).
  cbn [mbind result_bind].
  assert (Henc : ∀ be : tensor,
            (if SEHMOOTask.use_pref_thermometer self
             then enc ← reshape_rows n (thermometer P (SEHMOOTask.num_thermometer_dim self) 0%Qc 1%Qc); cat1 be enc
             else cat1 be P) = cat1 be pe).
  { intros be. unfold preference_encoding in Hpe.
    destruct (SEHMOOTask.use_pref_thermometer self).
    - by rewrite Hpe.
    - by injection Hpe as <-. }
  destruct (decide (SEHMOOTask.temperature_sample_dist self = "constant")) as [Hk|Hk].
  - destruct Hkind as (x & -> & ->). cbn [encoding beta] in *.
    rewrite ones_times. cbn [mbind result_bind shape length].
    rewrite bool_decide_true by done.
    cbn [assert mbind result_bind]. rewrite Henc, He. cbn [mbind result_bind].
    eexists _, pe, (zeros [n; (SEHMOOTask.num_thermometer_dim self)]), (zeros [n; (SEHMOOTask.num_thermometer_dim self)]).
    repeat split; done.
  - destruct Hkind as (a & b & ->).
    rewrite ones_times. cbn [mbind result_bind shape length].
    rewrite bool_decide_true by done.
    cbn [assert mbind result_bind]. rewrite Henc.
    destruct (cat1_shape_only (encoding c) (ones [n; (SEHMOOTask.num_thermometer_dim self)]) pe e n (SEHMOOTask.num_thermometer_dim self) Hes eq_refl He)
      as (e' & He' & _).
    rewrite He'. cbn [mbind result_bind].
    eexists _, pe, (encoding c), (ones [n; (SEHMOOTask.num_thermometer_dim self)]).
    repeat split; done.
Qed.

Lemma encode_reproduces_sample_encoding_witness :
  ∃ cs ce,
    SEHMOOTask.sample_conditional_information SampleConditioning.exp
      SampleConditioning.gamma_ppf95 SampleConditioning.rng
      SampleConditioning.dirichlet SampleConditioning.dirichlet
      SampleConditioning.constant_moo 2 = Ok cs
    ∧ SEHMOOTask.encode_conditional_information SampleConditioning.constant_moo
        (SEHMOOTask.draw_preferences SampleConditioning.dirichlet
           SampleConditioning.dirichlet SampleConditioning.constant_moo 2)
      = Ok ce
    ∧ shape (encoding cs) = [2; 6]
    ∧ ce = cs.
Proof.
  eexists.
  assert (Hs : SEHMOOTask.sample_conditional_information SampleConditioning.exp
      SampleConditioning.gamma_ppf95 SampleConditioning.rng
      SampleConditioning.dirichlet SampleConditioning.dirichlet
      SampleConditioning.constant_moo 2 = Ok _) by (vm_compute; reflexivity).
  destruct (encode_reproduces_sample_encoding _ _ _ _ _ _ _ _ Hs)
    as (ce & _ & _ & _ & He & _ & _ & _ & _ & _ & Hc).
  exists ce. split; [exact Hs|]. split; [exact He|]. split; [reflexivity|].
  by apply Hc.
Defined.

(** ** The gradient step and the sampling model *)

Section store.
Context {X V : Type}.
Variables (key : X → nat) (val : X → V).
Variable f : gmap nat V → X → gmap nat V.
Hypothesis Hf : ∀ σ x, f σ x = <[key x := val x]> σ.

Lemma foldl_insert_other (xs : list X) (σ : gmap nat V) (l : nat) :
  (∀ x, x ∈ xs → key x ≠ l) → foldl f σ xs !! l = σ !! l.
Proof.
  revert σ. induction xs as [|x xs IH]; intros σ Hl; [done|].
  simpl. rewrite IH by (intros; apply Hl; by right).
  rewrite Hf, lookup_insert_ne; [done|]. apply Hl. by left.
Qed.

Lemma foldl_insert_lookup (xs : list X) (σ : gmap nat V) (x : X) :
  NoDup (key <$> xs) → x ∈ xs → foldl f σ xs !! key x = Some (val x).
Proof.
  revert σ. induction xs as [|y xs IH]; intros σ Hnd Hx.
  - by apply elem_of_nil in Hx.
  - rewrite fmap_cons in Hnd. apply NoDup_cons in Hnd as [Hy Hnd].
    apply elem_of_cons in Hx as [->|Hx]; simpl.
    + rewrite foldl_insert_other.
      * by rewrite Hf, lookup_insert_eq.
      * intros z Hz Heq. apply Hy. rewrite <- Heq.
        apply list_elem_of_fmap. by exists z.
    + by apply IH.
Qed.
End store.

Lemma imap_pair_lookup {A} (l : list A) (i : nat) (x : A) :
  l !! i = Some x → (i, x) ∈ imap (λ i x, (i, x)) l.
Proof.
  intros H. apply list_elem_of_lookup. exists i.
  by rewrite list_lookup_imap, H.
Qed.

Lemma imap_pair_elem {A} (l : list A) (p : nat * A) :
  p ∈ imap (λ i x, (i, x)) l → l !! p.1 = Some p.2.
Proof.
  intros H. apply list_elem_of_lookup in H as [j Hj].
  rewrite list_lookup_imap in Hj.
  destruct (l !! j) as [y|] eqn:E; [|done]. by injection Hj as <-.
Qed.

(** Reading the store after an allocation. *)
Lemma alloc_lookup (base : nat) (vals : list (list fval))
    (σ : gmap nat (list fval)) (l : nat) :
  SEHFragTrainer.alloc base vals σ !! l
  = if decide (base ≤ l < base + length vals) then vals !! (l - base)
    else σ !! l.
Proof.
  unfold SEHFragTrainer.alloc.
  set (f := λ (σ : gmap nat (list fval)) '(i, v), <[base + i := v]> σ).
  assert (Hf : ∀ σ (x : nat * list fval), f σ x = <[base + x.1 := x.2]> σ)
    by (by intros ? []).
  case_decide as Hl.
  - destruct (lookup_lt_is_Some_2 vals (l - base)) as [v Hv]; [lia|].
    rewrite Hv. replace l with (base + (l - base, v).1) by (simpl; lia).
    apply (foldl_insert_lookup (λ x, base + x.1) snd f Hf).
    + apply NoDup_alt. intros i j x Hi Hj.
      rewrite list_lookup_fmap, list_lookup_imap in Hi, Hj.
      destruct (vals !! i) as [a|]; [|done].
      destruct (vals !! j) as [b|]; [|done].
      simpl in *. injection Hi as <-. injection Hj as Hj. lia.
    + by apply imap_pair_lookup.
  - apply (foldl_insert_other (λ x, base + x.1) snd f Hf).
    intros [i v] Hin Heq. apply imap_pair_elem in Hin.
    apply lookup_lt_Some in Hin. simpl in *. lia.
Qed.

(** Reading the store after the optimisers have written a model laid out
    at the locations [0 .. k-1]. *)
Lemma opt_step_lookup (trained : nat → list fval) (k : nat)
    (σ : gmap nat (list fval)) (l : nat) :
  SEHFragTrainer.opt_step trained (seq 0 k) σ !! l
  = if decide (l < k) then Some (trained l) else σ !! l.
Proof.
  unfold SEHFragTrainer.opt_step.
  set (f := λ (σ : gmap nat (list fval)) '(i, l), <[l := trained i]> σ).
  assert (Hf : ∀ σ (x : nat * nat), f σ x = <[x.2 := trained x.1]> σ)
    by (by intros ? []).
  assert (Hel : ∀ p : nat * nat,
            p ∈ imap (λ i l, (i, l)) (seq 0 k) → p.2 = p.1 ∧ p.1 < k).
  { intros p Hp. apply imap_pair_elem in Hp.
    apply lookup_seq in Hp. simpl in Hp. lia. }
  case_decide as Hl.
  - change l with ((l, l).2) at 1. change (trained l) with (trained (l, l).1).
    apply (foldl_insert_lookup snd (λ x, trained x.1) f Hf).
    + apply NoDup_alt. intros i j x Hi Hj.
      rewrite list_lookup_fmap, list_lookup_imap in Hi, Hj.
      destruct (seq 0 k !! i) as [a|] eqn:Ea; [|done].
      destruct (seq 0 k !! j) as [b|] eqn:Eb; [|done].
      apply lookup_seq in Ea, Eb. simpl in *.
      injection Hi as <-. injection Hj as Hj. lia.
    + apply imap_pair_lookup. by apply lookup_seq.
  - apply (foldl_insert_other snd (λ x, trained x.1) f Hf).
    intros p Hp Heq. apply Hel in Hp. lia.
Qed.

Lemma fmul_comm (x y : fval) : fmul x y = fmul y x.
Proof. destruct x, y; simpl; try done. by rewrite Qcmult_comm. Qed.

(** One update of the loop, in the words of the specification. *)
Lemma ema_update_target (tau : Qc) (σ : gmap nat (list fval)) (a b : nat) :
  a ≠ b →
  SEHFragTrainer.ema_update tau σ (a, b) !! b
  = Some (zip_with (ema tau) (SEHFragTrainer.read σ b) (SEHFragTrainer.read σ a)).
Proof.
  intros Hab. unfold SEHFragTrainer.ema_update, SEHFragTrainer.read.
  rewrite lookup_insert_eq. f_equal.
  rewrite lookup_insert_eq, lookup_insert_ne by done.
  cbn [default from_option id].
  rewrite zip_with_fmap_l, zip_with_fmap_r.
  apply zip_with_ext; [|done..]. intros s t. unfold ema.
  by rewrite (fmul_comm s), (fmul_comm t).
Qed.

Lemma ema_update_other (tau : Qc) (σ : gmap nat (list fval)) (a b l : nat) :
  l ≠ b → SEHFragTrainer.ema_update tau σ (a, b) !! l = σ !! l.
Proof.
  intros Hl. unfold SEHFragTrainer.ema_update.
  by rewrite !lookup_insert_ne by done.
Qed.

Lemma ema_loop_other (tau : Qc) (ps : list (nat * nat))
    (σ : gmap nat (list fval)) (l : nat) :
  (∀ p, p ∈ ps → p.2 ≠ l) →
  foldl (SEHFragTrainer.ema_update tau) σ ps !! l = σ !! l.
Proof.
  revert σ. induction ps as [|[a b] ps IH]; intros σ Hl; [done|].
  cbn [foldl]. rewrite IH by (intros; apply Hl; by right).
  apply ema_update_other. intros Heq. by apply (Hl (a, b)); [left|].
Qed.

Lemma ema_loop_target (tau : Qc) (ps : list (nat * nat))
    (σ : gmap nat (list fval)) (a b : nat) :
  NoDup (ps.*2) → (∀ p q, p ∈ ps → q ∈ ps → p.1 ≠ q.2) → (a, b) ∈ ps →
  foldl (SEHFragTrainer.ema_update tau) σ ps !! b
  = Some (zip_with (ema tau) (SEHFragTrainer.read σ b) (SEHFragTrainer.read σ a)).
Proof.
  revert σ. induction ps as [|[a' b'] ps IH]; intros σ Hnd Hsep Hin.
  - by apply elem_of_nil in Hin.
  - rewrite fmap_cons in Hnd. apply NoDup_cons in Hnd as [Hb' Hnd]. simpl in Hb'.
    apply elem_of_cons in Hin as [[= <- <-]|Hin]; cbn [foldl].
    + rewrite ema_loop_other.
      * apply ema_update_target. apply (Hsep (a, b) (a, b)); by left.
      * intros p Hp Heq. apply Hb'. rewrite <- Heq.
        apply list_elem_of_fmap. by exists p.
    + assert (Hb : b ≠ b').
      { intros Heq. apply Hb'. rewrite <- Heq.
        apply list_elem_of_fmap. by exists (a, b). }
      assert (Ha : a ≠ b').
      { apply (Hsep (a, b) (a', b')); [by right|by left]. }
      rewrite IH; [|done|intros; apply Hsep; by right|done].
      unfold SEHFragTrainer.read. by rewrite !ema_update_other.
Qed.

(** The store after a step of a trainer whose sampling model is a separate
    copy. *)
Lemma step_store (self : SEHFragTrainer.t) (trained : nat → list fval) (i : nat) :
  separate_copy self →
  Qcltb 0%Qc (SEHFragTrainer.sampling_tau self) = true →
  let k := length (SEHFragTrainer.model self) in
  let σ := SEHFragTrainer.store self in
  let σ' := SEHFragTrainer.store (SEHFragTrainer.step self trained) in
  i < k →
  σ' !! i = Some (trained i)
  ∧ σ' !! (k + i)
    = Some (zip_with (ema (SEHFragTrainer.sampling_tau self))
              (SEHFragTrainer.read σ (k + i)) (trained i)).
Proof.
  intros (Hm & Hs & _) Htau k σ σ' Hi. subst σ'. unfold SEHFragTrainer.step.
  rewrite Htau. cbn [SEHFragTrainer.store]. fold k in Hm, Hs. rewrite Hm, Hs.
  assert (Hzip : ∀ p, p ∈ zip (seq 0 k) (seq k k) → p.2 = k + p.1 ∧ p.1 < k).
  { intros p Hp. apply list_elem_of_lookup in Hp as [j Hj].
    apply lookup_zip_with_Some in Hj as (x & y & -> & Hx & Hy).
    apply lookup_seq in Hx, Hy. simpl. lia. }
  split.
  - rewrite ema_loop_other by (intros p Hp; apply Hzip in Hp; lia).
    by rewrite opt_step_lookup, decide_True.
  - rewrite (ema_loop_target _ _ _ i).
    + unfold SEHFragTrainer.read. rewrite !opt_step_lookup.
      rewrite decide_False by lia. by rewrite decide_True.
    + rewrite snd_zip by (by rewrite !length_seq). apply NoDup_seq.
    + intros p q Hp Hq. apply Hzip in Hp, Hq. lia.
    + apply list_elem_of_lookup. exists i.
      rewrite lookup_zip_with, !lookup_seq_lt by done. done.
Qed.

(** With [sampling_tau > 0] every state of a run keeps the sampling model
    in parameters of its own. *)
Lemma reachable_separate_copy (self : SEHFragTrainer.t) :
  SEHFragTrainer.reachable self →
  Qcltb 0%Qc (SEHFragTrainer.sampling_tau self) = true →
  separate_copy self.
Proof.
  induction 1 as [params tau|self trained Hr IH Hlen].
  - unfold SEHFragTrainer.setup.
    destruct (Qcltb 0%Qc tau) eqn:Htau; cbn [SEHFragTrainer.sampling_tau];
      [|by rewrite Htau].
    intros _. unfold separate_copy.
    cbn [SEHFragTrainer.model SEHFragTrainer.sampling_model SEHFragTrainer.store].
    rewrite length_seq. split; [done|]. split; [done|]. intros i Hi.
    unfold SEHFragTrainer.read. rewrite !alloc_lookup.
    rewrite decide_True by lia. rewrite decide_False by lia.
    rewrite decide_True by lia.
    by replace (length params + i - length params) with (i - 0) by lia.
  - intros Htau. cbn [SEHFragTrainer.step SEHFragTrainer.sampling_tau] in Htau.
    specialize (IH Htau). pose proof IH as (Hm & Hs & Hl).
    unfold separate_copy.
    cbn [SEHFragTrainer.step SEHFragTrainer.model SEHFragTrainer.sampling_model].
    split; [done|]. split; [done|]. intros i Hi.
    destruct (step_store self trained i IH Htau Hi) as [H1 H2].
    unfold SEHFragTrainer.read at 1 2. rewrite H1, H2. cbn [default from_option id].
    rewrite length_zip_with, Hl by done.
    specialize (Hlen i Hi). unfold SEHFragTrainer.param in Hlen.
    rewrite Hm, lookup_seq_lt in Hlen by done. cbn in Hlen. lia.
Qed.

(** C9. In every state of a run with [sampling_tau > 0], a gradient step
    leaves in each parameter of the sampling model [tau] times its previous
    value plus [1 - tau] times the newly trained value of the matching
    parameter of the model, entry by entry, and leaves in the model the
    values that the optimisers wrote: the update does not touch them. *)
Theorem step_updates_sampling_model (self : SEHFragTrainer.t)
    (trained : nat → list fval) (i : nat) :
  SEHFragTrainer.reachable self →
  Qcltb 0%Qc (SEHFragTrainer.sampling_tau self) = true →
  (∀ j, j < length (SEHFragTrainer.model self) →
        length (trained j)
        = length (SEHFragTrainer.param (SEHFragTrainer.store self)
                    (SEHFragTrainer.model self) j)) →
  i < length (SEHFragTrainer.model self) →
  let tau := SEHFragTrainer.sampling_tau self in
  let after := SEHFragTrainer.step self trained in
  let old_sampling :=
    SEHFragTrainer.param (SEHFragTrainer.store self)
      (SEHFragTrainer.sampling_model self) i in
  SEHFragTrainer.param (SEHFragTrainer.store after)
    (SEHFragTrainer.sampling_model after) i
  = zip_with (ema tau) old_sampling (trained i)
  ∧ length old_sampling = length (trained i)
  ∧ SEHFragTrainer.param (SEHFragTrainer.store after)
      (SEHFragTrainer.model after) i
    = trained i
  ∧ SEHFragTrainer.param
      (SEHFragTrainer.opt_step trained (SEHFragTrainer.model self)
         (SEHFragTrainer.store self))
      (SEHFragTrainer.model self) i
    = trained i.
Proof.
  intros Hr Htau Hlen Hi tau after old_sampling.
  pose proof (reachable_separate_copy self Hr Htau) as Hsep.
  pose proof Hsep as (Hm & Hs & Hl).
  destruct (step_store self trained i Hsep Htau Hi) as [H1 H2].
  subst after old_sampling tau.
  change (SEHFragTrainer.sampling_model (SEHFragTrainer.step self trained))
    with (SEHFragTrainer.sampling_model self).
  change (SEHFragTrainer.model (SEHFragTrainer.step self trained))
    with (SEHFragTrainer.model self).
  set (k := length (SEHFragTrainer.model self)) in *.
  unfold SEHFragTrainer.param.
  rewrite Hs, Hm, !lookup_seq_lt by done. cbn [from_option].
  unfold SEHFragTrainer.read at 1 4 5. rewrite !Nat.add_0_l.
  rewrite H2, H1, opt_step_lookup, decide_True by done.
  cbn [default from_option id]. repeat split; try done.
  rewrite Hl by done. specialize (Hlen i Hi).
  unfold SEHFragTrainer.param in Hlen.
  rewrite Hm, lookup_seq_lt in Hlen by done. done.
Qed.

Lemma step_updates_sampling_model_witness :
  let self := SEHFragTrainer.setup [[Num 1%Qc; Num (qc 2 1)]] (qc 9 10) in
  let trained := λ _ : nat, [Num (qc 3 1); Num (qc 5 1)] in
  let after := SEHFragTrainer.step self trained in
  SEHFragTrainer.param (SEHFragTrainer.store after)
    (SEHFragTrainer.sampling_model after) 0
  = [ema (qc 9 10) (Num 1%Qc) (Num (qc 3 1));
     ema (qc 9 10) (Num (qc 2 1)) (Num (qc 5 1))]
  ∧ SEHFragTrainer.param (SEHFragTrainer.store after)
      (SEHFragTrainer.model after) 0
    = [Num (qc 3 1); Num (qc 5 1)].
Proof.
  intros self trained after.
  destruct (step_updates_sampling_model self trained 0) as (H1 & _ & H2 & _).
  - apply SEHFragTrainer.reachable_setup.
  - reflexivity.
  - intros j Hj. assert (j = 0) as -> by (vm_compute in Hj; lia). reflexivity.
  - vm_compute. lia.
  - split; [exact H1|exact H2].
Defined.

(** The numbers of the specification's example: with [tau = 0.9], old
    sampling value 1 and newly trained value 3, the new sampling value is
    [0.9 * 1 + 0.1 * 3 = 1.2]. *)
Lemma ema_example : ema (qc 9 10) (Num 1%Qc) (Num (qc 3 1)) = Num (qc 6 5).
Proof. closed_eq. Qed.

(** ** [job.py] *)

Lemma call_method_update (d other : gmap string Job.pyval) :
  Job.call_method d "update" other = Ok (other ∪ d).
Proof. reflexivity. Qed.

Lemma call_method_upate (d other : gmap string Job.pyval) :
  Job.call_method d "upate" other = Raise AttributeError.
Proof. reflexivity. Qed.

(** C10. On every command line that gives [--part] and a [--total_parts]
    greater than 1, the script stops with [AttributeError] in the
    configuration block, at the call of [upate]: nothing has been done to
    the outside (no directory, no trainer, no training step), [part] and
    [total_parts] are set, and [offline_ratio] still holds 0.0, not 0.25. *)
Theorem job_partitioned_run_raises (exists_ : string → bool) (a : Job.args)
    (p tp : Z) :
  Job.part a = Some p →
  Job.total_parts a = Some tp →
  (1 < tp)%Z →
  ∃ h,
    Job.main exists_ a = (Job.mkState h [], Raise AttributeError)
    ∧ h !! "part" = Some (Job.PInt p)
    ∧ h !! "total_parts" = Some (Job.PInt tp)
    ∧ h !! "offline_ratio" = Some (Job.PFloat 0%Qc)
    ∧ h !! "offline_ratio" ≠ Some (Job.PFloat (qc 1 4)).
Proof.
  intros Hp Ht Hgt. unfold Job.main, Job.configure. rewrite Hp, Ht.
  rewrite bool_decide_true by done.
  rewrite !call_method_update, call_method_upate.
  eexists. split; [reflexivity|].
  assert (Ho : ({[ "total_parts" := Job.PInt tp ]}
                ∪ ({[ "part" := Job.PInt p ]} ∪ Job.initial_hps a) : gmap string Job.pyval)
               !! "offline_ratio" = Some (Job.PFloat 0%Qc)).
  { rewrite !lookup_union, !lookup_singleton_ne by done. reflexivity. }
  split; [|split; [|split]].
  - rewrite !lookup_union, lookup_singleton_ne, lookup_singleton_eq by done.
    by destruct (Job.initial_hps a !! "part").
  - rewrite lookup_union, lookup_singleton_eq.
    by destruct (_ !! "total_parts").
  - exact Ho.
  - rewrite Ho. intros [= H].
Qed.

Lemma job_partitioned_run_raises_witness :
  ∃ h,
    Job.main (λ _, true)
      (Job.mkArgs (Some "logs") (Some "data") None (Some 3%Z) (Some 8%Z))
    = (Job.mkState h [], Raise AttributeError)
    ∧ h !! "part" = Some (Job.PInt 3)
    ∧ h !! "total_parts" = Some (Job.PInt 8)
    ∧ h !! "offline_ratio" = Some (Job.PFloat 0%Qc)
    ∧ h !! "offline_ratio" ≠ Some (Job.PFloat (qc 1 4)).
Proof.
  apply (job_partitioned_run_raises (λ _, true)
           (Job.mkArgs (Some "logs") (Some "data") None (Some 3%Z) (Some 8%Z))
           3 8); [reflexivity|reflexivity|lia].
Defined.

(** Without a partition the configuration block is skipped and the script
    goes on to construct and run the trainer. *)
Lemma job_plain_run :
  ∃ h,
    Job.main (λ _, false) (Job.mkArgs (Some "logs") (Some "data") None None None)
    = (Job.mkState h [Job.Makedirs "logs"; Job.ConstructTrainer h; Job.RunTrainer],
       Ok ())
    ∧ h !! "offline_ratio" = Some (Job.PFloat 0%Qc).
Proof. eexists. split; reflexivity. Qed.

(** ** Further evaluations on the concrete collaborators *)

(** A sharded batch with a molecule that does not convert: the mask of the
    classifier covers every input molecule, the predictions only those that
    convert, and the masked assignment raises. *)
Lemma sharded_mixed_batch_raises :
  SEHTask.compute_flat_rewards Sample.mol2graph Sample.seh Sample.fingerprint
    Sample.km_predict Sample.sharded [1; 2]
  = Raise IndexError.
Proof. reflexivity. Qed.

(** Four molecules, two of which convert: two rows, in input order. *)
Lemma unsharded_mixed_batch :
  ∃ t,
    SEHTask.compute_flat_rewards Sample.mol2graph Sample.seh Sample.fingerprint
      Sample.km_predict Sample.unsharded [10; 1; 6; 3]
    = Ok (t, [true; false; true; false])
    ∧ shape t = [2; 1]
    ∧ data t = [Num (qc 1 2); Num clip_lo].
Proof.
  eexists. split; [reflexivity|]. split; [reflexivity|]. closed_eq.
Qed.

(** The thermometer encoding of 1/2 over [0, 1] with four bins. *)
Lemma thermometer_half :
  data (thermometer (mkTensor [1] [Num (qc 1 2)]) 4 0%Qc 1%Qc)
  = [Num 1%Qc; Num 1%Qc; Num 0%Qc; Num 0%Qc].
Proof. closed_eq. Qed.

(** With [sampling_tau = 0] the sampling model is the model itself. *)
Lemma setup_shares_model (params : list (list fval)) :
  SEHFragTrainer.sampling_model (SEHFragTrainer.setup params 0%Qc)
  = SEHFragTrainer.model (SEHFragTrainer.setup params 0%Qc).
Proof. reflexivity. Qed.

(** An empty list of objectives passes the assertion of [__init__], and
    the stacking of no column raises as soon as a molecule converts. *)
Lemma no_objective_raises :
  ∃ task,
    SEHMOOTask.init [] "constant" (ParamFloat (qc 60 1)) 4 false = Ok task
    ∧ SEHMOOTask.compute_flat_rewards Sample.mol2graph Sample.seh Sample.qed
        Sample.calculateScore Sample.MolWt task [2]
      = Raise RuntimeError.
Proof. eexists. split; reflexivity. Qed.

(** * Further properties of the code *)

(** ** Flat rewards *)

Lemma is_valid_converts {mol graph : Type} (mol2graph : mol → option graph)
    (mols : list mol) :
  (λ g : option graph, bool_decide (g ≠ None)) <$> (mol2graph <$> mols)
  = (λ m, bool_decide (converts mol2graph m)) <$> mols.
Proof.
  rewrite <- list_fmap_compose. apply list_fmap_ext. intros i m _. cbn.
  destruct (mol2graph m) as [g|] eqn:E.
  - rewrite bool_decide_true by done.
    by rewrite bool_decide_true by (unfold converts; rewrite E; by eexists).
  - rewrite bool_decide_false by (by intros []).
    by rewrite bool_decide_false
      by (unfold converts; rewrite E; by intros [? [=]]).
Qed.

Lemma no_valid_filter {mol graph : Type} (mol2graph : mol → option graph)
    (mols : list mol) :
  ¬ (∃ m, m ∈ mols ∧ converts mol2graph m) →
  filter (converts mol2graph) mols = []
  ∧ ∀ m, m ∈ mols → mol2graph m = None.
Proof.
  intros Hn. split.
  - induction mols as [|m mols IH]; [done|].
    rewrite filter_cons_False; [apply IH|].
    + intros (x & Hx & Hc). apply Hn. exists x. split; [by right|done].
    + intros Hc. apply Hn. exists m. split; [by left|done].
  - intros m Hm. destruct (mol2graph m) eqn:E; [|done].
    exfalso. apply Hn. exists m. split; [done|]. unfold converts. by rewrite E.
Qed.

(** X2. Without sharding the single-objective [compute_flat_rewards]
    returns on every batch: the mask marks exactly the molecules that
    convert, the tensor has one row for each of them, in input order, and
    every reward is a number between 1e-4 and 100, the clipped eighth of the
    proxy output (of 0 where the proxy gives NaN). *)
Theorem unsharded_rewards_rows {mol graph fp : Type}
    (mol2graph : mol → option graph) (seh : graph → fval)
    (fingerprint : mol → fp) (km_predict : fp → Z)
    (self : SEHTask.t) (mols : list mol) :
  SEHTask.part self = None →
  ∃ t,
    SEHTask.compute_flat_rewards mol2graph seh fingerprint km_predict self mols
    = Ok (t, (λ m, bool_decide (converts mol2graph m)) <$> mols)
    ∧ shape t = [length (filter (converts mol2graph) mols); 1]
    ∧ length (data t) = length (filter (converts mol2graph) mols)
    ∧ ∀ j m g, filter (converts mol2graph) mols !! j = Some m →
        mol2graph m = Some g →
        ∃ q, data t !! j = Some (Num q)
             ∧ (clip_lo ≤ q ≤ clip_hi)%Qc
             ∧ Num q = fclip clip_lo clip_hi
                         (SEHTask.flat_reward_transform (nan_to_zero (seh g))).
Proof.
  intros Hp.
  destruct (decide (Exists (converts mol2graph) mols)) as [Hv|Hn];
    rewrite Exists_exists in *.
  - rewrite (compute_flat_rewards_unsharded mol2graph seh fingerprint km_predict
               self mols Hp Hv), is_valid_converts.
    eexists. split; [reflexivity|]. cbn [shape data].
    split; [done|]. split; [by rewrite length_fmap, batch_length|].
    intros j m g Hj Hg.
    destruct (seh_reward_in_range (seh g)) as (q & Hq & Hr).
    exists q. rewrite list_lookup_fmap, batch_lookup, Hj. cbn. rewrite Hg. cbn.
    by rewrite Hq.
  - destruct (no_valid_filter mol2graph mols Hn) as [Hf Hnone].
    unfold SEHTask.compute_flat_rewards.
    rewrite (is_valid_none mol2graph mols Hnone), existsb_replicate_false.
    cbn [negb]. rewrite <- (is_valid_none mol2graph mols Hnone), is_valid_converts.
    eexists. split; [reflexivity|]. rewrite Hf. repeat split. intros j m g Hj.
    by rewrite lookup_nil in Hj.
Qed.

Lemma unsharded_rewards_rows_witness :
  ∃ t,
    SEHTask.compute_flat_rewards Sample.mol2graph Sample.seh Sample.fingerprint
      Sample.km_predict Sample.unsharded [10; 1; 6; 3]
    = Ok (t, [true; false; true; false])
    ∧ shape t = [2; 1] ∧ length (data t) = 2.
Proof.
  destruct (unsharded_rewards_rows Sample.mol2graph Sample.seh Sample.fingerprint
              Sample.km_predict Sample.unsharded [10; 1; 6; 3] eq_refl)
    as (t & Ht & Hs & Hl & _).
  exists t. split; [exact Ht|]. split; [exact Hs|exact Hl].
Defined.

(** The three cases of a clip. *)
Lemma Qcclip_cases (lo hi x : Qc) :
  (lo ≤ hi)%Qc →
  let r := Qcmin (Qcmax x lo) hi in
  (lo ≤ r ≤ hi)%Qc
  ∧ ((hi ≤ x)%Qc → r = hi)
  ∧ ((x ≤ lo)%Qc → r = lo)
  ∧ ((lo ≤ x ≤ hi)%Qc → r = x).
Proof.
  intros Hb r. subst r. split; [|split; [|split]].
  - split; [apply Qcmin_lower; [apply Qcmax_lower|done]|apply Qcmin_upper].
  - intros Hx. unfold Qcmin, Qcmax.
    destruct (Qcleb x lo) eqn:E1.
    + apply Qcleb_le in E1.
      assert (lo = hi) as -> by (apply Qcle_antisym; [done|by etrans]).
      by destruct (Qcleb hi hi).
    + destruct (Qcleb x hi) eqn:E2; [|done].
      apply Qcleb_le in E2. by apply Qcle_antisym.
  - intros Hx. unfold Qcmin, Qcmax.
    rewrite (proj2 (Qcleb_le x lo) Hx). by rewrite (proj2 (Qcleb_le lo hi) Hb).
  - intros [H1 H2]. unfold Qcmin, Qcmax.
    destruct (Qcleb x lo) eqn:E1.
    + apply Qcleb_le in E1. assert (x = lo) as -> by by apply Qcle_antisym.
      by rewrite (proj2 (Qcleb_le lo hi) Hb).
    + by rewrite (proj2 (Qcleb_le x hi) H2).
Qed.

(** The molecular-weight reward: 1 up to 300, a line down to 0 at 1000. *)
Lemma mw_reward_cases (w : Qc) :
  ∃ r,
    fclip 0%Qc 1%Qc
      (fadd (fdiv (fsub (Num (qc 300 1)) (Num w)) (Num (qc 700 1))) (Num 1%Qc))
    = Num r
    ∧ (0 ≤ r ≤ 1)%Qc
    ∧ ((w ≤ qc 300 1)%Qc → r = 1%Qc)
    ∧ ((qc 1000 1 ≤ w)%Qc → r = 0%Qc)
    ∧ ((qc 300 1 ≤ w ≤ qc 1000 1)%Qc → r = ((qc 1000 1 - w) / qc 700 1)%Qc).
Proof.
  set (x := ((qc 300 1 - w) / qc 700 1 + 1)%Qc).
  exists (Qcmin (Qcmax x 0%Qc) 1%Qc).
  assert (H01 : (0 ≤ 1)%Qc) by (by apply Qcleb_le).
  destruct (Qcclip_cases 0%Qc 1%Qc x H01) as (Hr & Hhi & Hlo & Hmid).
  assert (Hx : x = ((qc 1000 1 - w) / qc 700 1)%Qc).
  { subst x. apply Qc_is_canon. qc_to_q.
    change (/ 700)%Q with (1 # 700)%Q. ring. }
  split; [|split; [done|split; [|split]]].
  - cbn. by rewrite bool_decide_false by (intros [=]).
  - intros Hw. apply Hhi. subst x. clear -Hw. qc_to_q.
    change (/ 700)%Q with (1 # 700)%Q. lra.
  - intros Hw. apply Hlo. subst x. clear -Hw. qc_to_q.
    change (/ 700)%Q with (1 # 700)%Q. lra.
  - intros [H1 H2]. rewrite <- Hx. apply Hmid. subst x. clear -H1 H2. qc_to_q.
    change (/ 700)%Q with (1 # 700)%Q. split; lra.
Qed.

(** The synthesizability reward [(10 - sa) / 9] is between 0 and 1 exactly
    for a score between 1 and 10. *)
Lemma sa_reward_range (s : Qc) :
  fdiv (fsub (Num (qc 10 1)) (Num s)) (Num (qc 9 1))
  = Num ((qc 10 1 - s) / qc 9 1)%Qc
  ∧ ((0 ≤ (qc 10 1 - s) / qc 9 1 ≤ 1)%Qc ↔ (1 ≤ s ≤ qc 10 1)%Qc).
Proof.
  split.
  - cbn. by rewrite bool_decide_false by (intros [=]).
  - qc_to_q. change (/ 9)%Q with (1 # 9)%Q. split; intros [? ?]; split; lra.
Qed.

Section moo_entries.
Context {mol graph : Type}.
Variable mol2graph : mol → option graph.
Variable seh : graph → fval.
Variables (qed calculateScore MolWt : mol → result fval).
Variables (self : SEHMOOTask.t) (mols : list mol) (j : nat) (m : mol).
Hypothesis Hj : filter (converts mol2graph) mols !! j = Some m.

(** The entry of a configured objective at a molecule that converts. *)
Lemma moo_entry (o : string) :
  o ∈ SEHMOOTask.vocabulary → o ∈ SEHMOOTask.objectives self →
  ∃ t v,
    SEHMOOTask.compute_flat_rewards mol2graph seh qed calculateScore MolWt
      self mols = Ok (t, v)
    ∧ get2 t j (column_of (SEHMOOTask.objectives self) o)
      = column mol2graph seh qed calculateScore MolWt mols o !!! j.
Proof.
  intros Hvoc Hobj.
  assert (Hv : ∃ m, m ∈ mols ∧ converts mol2graph m).
  { exists m. apply list_elem_of_lookup_2 in Hj.
    by apply list_elem_of_filter in Hj as [? ?]. }
  destruct (compute_flat_rewards_stack mol2graph seh qed calculateScore MolWt
              self mols Hv) as (t & Ht & _ & Hcol); [by exists o|].
  exists t. eexists. split; [exact Ht|].
  apply Hcol; [done..|]. by eapply lookup_lt_Some.
Qed.

Lemma mw_column_entry (w : fval) :
  MolWt m = Ok w →
  column mol2graph seh qed calculateScore MolWt mols "mw" !!! j
  = fclip 0%Qc 1%Qc
      (fadd (fdiv (fsub (Num (qc 300 1)) w) (Num (qc 700 1))) (Num 1%Qc)).
Proof.
  intros Hw. apply list_lookup_total_correct.
  change (column mol2graph seh qed calculateScore MolWt mols "mw")
    with (SEHMOOTask.mw_column MolWt (filter (converts mol2graph) mols)).
  unfold SEHMOOTask.mw_column, SEHMOOTask.safe.
  rewrite !list_lookup_fmap, Hj. cbn [fmap option_fmap option_map].
  by rewrite Hw.
Qed.

Lemma sa_column_entry (s : fval) :
  calculateScore m = Ok s →
  column mol2graph seh qed calculateScore MolWt mols "sa" !!! j
  = fdiv (fsub (Num (qc 10 1)) s) (Num (qc 9 1)).
Proof.
  intros Hs. apply list_lookup_total_correct.
  change (column mol2graph seh qed calculateScore MolWt mols "sa")
    with (SEHMOOTask.sa_column calculateScore (filter (converts mol2graph) mols)).
  unfold SEHMOOTask.sa_column, SEHMOOTask.safe.
  rewrite !list_lookup_fmap, Hj. cbn [fmap option_fmap option_map].
  by rewrite Hs.
Qed.
End moo_entries.

(** X4. The molecular-weight reward of a molecule that converts and
    weighs [w] is always between 0 and 1: exactly 1 up to 300, exactly 0
    from 1000 on, and [(1000 - w) / 700] in between. *)
Theorem mw_reward_plateau_then_decay {mol graph : Type}
    (mol2graph : mol → option graph) (seh : graph → fval)
    (qed calculateScore MolWt : mol → result fval)
    (self : SEHMOOTask.t) (mols : list mol) (j : nat) (m : mol) (w : Qc) :
  filter (converts mol2graph) mols !! j = Some m →
  "mw" ∈ SEHMOOTask.objectives self →
  MolWt m = Ok (Num w) →
  ∃ t v r,
    SEHMOOTask.compute_flat_rewards mol2graph seh qed calculateScore MolWt
      self mols = Ok (t, v)
    ∧ get2 t j (column_of (SEHMOOTask.objectives self) "mw") = Num r
    ∧ (0 ≤ r ≤ 1)%Qc
    ∧ ((w ≤ qc 300 1)%Qc → r = 1%Qc)
    ∧ ((qc 1000 1 ≤ w)%Qc → r = 0%Qc)
    ∧ ((qc 300 1 ≤ w ≤ qc 1000 1)%Qc → r = ((qc 1000 1 - w) / qc 700 1)%Qc).
Proof.
  intros Hj Hobj Hw.
  destruct (moo_entry mol2graph seh qed calculateScore MolWt self mols j m Hj
              "mw") as (t & v & Ht & Hg); [compute_done|done|].
  destruct (mw_reward_cases w) as (r & Hr & Hrest).
  exists t, v, r. split; [exact Ht|]. split; [|exact Hrest].
  by rewrite Hg, (mw_column_entry _ _ _ _ _ _ _ _ Hj (Num w) Hw).
Qed.

Lemma mw_reward_plateau_then_decay_witness :
  ∃ t v r,
    SEHMOOTask.compute_flat_rewards Sample.mol2graph Sample.seh Sample.qed
      Sample.calculateScore Sample.MolWt Sample.moo [1; 2] = Ok (t, v)
    ∧ get2 t 0 3 = Num r
    ∧ (0 ≤ r ≤ 1)%Qc
    ∧ r = ((qc 1000 1 - qc 650 1) / qc 700 1)%Qc.
Proof.
  destruct (mw_reward_plateau_then_decay Sample.mol2graph Sample.seh Sample.qed
              Sample.calculateScore Sample.MolWt Sample.moo [1; 2] 0 2
              (qc 650 1) eq_refl)
    as (t & v & r & Ht & Hg & Hb & _ & _ & Hmid); [compute_done|reflexivity|].
  exists t, v, r. split; [exact Ht|]. split; [exact Hg|]. split; [exact Hb|].
  apply Hmid. split; by apply Qcleb_le.
Defined.

(** X5. The synthesizability reward of a molecule that converts and
    scores [s] is [(10 - s) / 9], without any clip: it is between 0 and 1
    exactly when the score is between 1 and 10. *)
Theorem sa_reward_not_clipped {mol graph : Type}
    (mol2graph : mol → option graph) (seh : graph → fval)
    (qed calculateScore MolWt : mol → result fval)
    (self : SEHMOOTask.t) (mols : list mol) (j : nat) (m : mol) (s : Qc) :
  filter (converts mol2graph) mols !! j = Some m →
  "sa" ∈ SEHMOOTask.objectives self →
  calculateScore m = Ok (Num s) →
  ∃ t v,
    SEHMOOTask.compute_flat_rewards mol2graph seh qed calculateScore MolWt
      self mols = Ok (t, v)
    ∧ get2 t j (column_of (SEHMOOTask.objectives self) "sa")
      = Num ((qc 10 1 - s) / qc 9 1)%Qc
    ∧ ((0 ≤ (qc 10 1 - s) / qc 9 1 ≤ 1)%Qc ↔ (1 ≤ s ≤ qc 10 1)%Qc).
Proof.
  intros Hj Hobj Hs.
  destruct (moo_entry mol2graph seh qed calculateScore MolWt self mols j m Hj
              "sa") as (t & v & Ht & Hg); [compute_done|done|].
  destruct (sa_reward_range s) as [Hr Hiff].
  exists t, v. split; [exact Ht|]. split; [|exact Hiff].
  by rewrite Hg, (sa_column_entry _ _ _ _ _ _ _ _ Hj (Num s) Hs).
Qed.

Lemma sa_reward_not_clipped_witness :
  ∃ t v,
    SEHMOOTask.compute_flat_rewards Sample.mol2graph Sample.seh Sample.qed
      Sample.calculateScore Sample.MolWt Sample.moo [1; 2] = Ok (t, v)
    ∧ get2 t 0 2 = Num ((qc 10 1 - qc 1 1) / qc 9 1)%Qc.
Proof.
  destruct (sa_reward_not_clipped Sample.mol2graph Sample.seh Sample.qed
              Sample.calculateScore Sample.MolWt Sample.moo [1; 2] 0 2
              (qc 1 1) eq_refl)
    as (t & v & Ht & Hg & _); [compute_done|reflexivity|].
  exists t, v. split; [exact Ht|exact Hg].
Defined.

Section moo_columns.
Context {mol graph : Type}.
Variable mol2graph : mol → option graph.
Variable seh : graph → fval.
Variables (qed calculateScore MolWt : mol → result fval).

Local Abbreviation columns := (columns mol2graph seh qed calculateScore MolWt).

Lemma compute_flat_rewards_columns (self : SEHMOOTask.t) (mols : list mol) :
  (∃ m, m ∈ mols ∧ converts mol2graph m) →
  SEHMOOTask.compute_flat_rewards mol2graph seh qed calculateScore MolWt
    self mols
  = (t ← stack1 (columns (SEHMOOTask.objectives self) mols);
     Ok (t, (λ m, bool_decide (converts mol2graph m)) <$> mols)).
Proof.
  intros Hv. unfold SEHMOOTask.compute_flat_rewards.
  rewrite (some_valid mol2graph mols Hv). cbn [negb].
  rewrite valid_mols_filter, is_valid_converts. unfold columns.
  by destruct (bool_decide ("seh" ∈ _)), (bool_decide ("qed" ∈ _)),
    (bool_decide ("sa" ∈ _)), (bool_decide ("mw" ∈ _)).
Qed.

Lemma columns_lengths (objs : list string) (mols : list mol) :
  Forall (λ c, length c = length (filter (converts mol2graph) mols))
    (columns objs mols).
Proof.
  unfold columns, SEHMOOTask.seh_column, SEHMOOTask.qed_column,
    SEHMOOTask.sa_column, SEHMOOTask.mw_column.
  repeat (apply Forall_app; split);
    case_bool_decide; constructor; rewrite ?length_fmap;
    auto using batch_length.
Qed.

(** A duplicate-free list of names of the vocabulary has one column for
    each of its names. *)
Lemma columns_count (objs : list string) (mols : list mol) :
  NoDup objs → (∀ o, o ∈ objs → o ∈ SEHMOOTask.vocabulary) →
  length (columns objs mols) = length objs.
Proof.
  intros Hnd Hsub.
  assert (Hperm : objs ≡ₚ filter (λ o, o ∈ objs) SEHMOOTask.vocabulary).
  { apply NoDup_Permutation; [done|apply NoDup_filter; compute_done|].
    intros o. rewrite list_elem_of_filter. split; [|by intros [? _]].
    intros Ho. split; [done|by apply Hsub]. }
  rewrite Hperm at 2. unfold columns, SEHMOOTask.vocabulary.
  rewrite !filter_cons, filter_nil, !length_app.
  repeat case_bool_decide; repeat case_decide; try done.
Qed.
End moo_columns.

Lemma init_accepts (objs : list string) (family : string) (params : dist_params)
    (d : nat) (use : bool) (task : SEHMOOTask.t) :
  SEHMOOTask.init objs family params d use = Ok task →
  task = SEHMOOTask.mk objs family params d use None false
  ∧ NoDup objs ∧ ∀ o, o ∈ objs → o ∈ SEHMOOTask.vocabulary.
Proof.
  unfold SEHMOOTask.init.
  destruct (forallb _ objs && bool_decide (NoDup objs)) eqn:E; [|done].
  intros [= <-]. apply andb_true_iff in E as [Hall Hnd].
  split; [done|]. split; [by apply bool_decide_eq_true in Hnd|].
  intros o Ho. rewrite forallb_forall in Hall.
  apply list_elem_of_In, Hall in Ho. by apply bool_decide_eq_true in Ho.
Qed.

(** X6. For a task that [__init__] accepts with at least one objective,
    the multi-objective [compute_flat_rewards] returns on every batch a
    tensor with one row for each molecule that converts and one column for
    each objective, together with the mask of the molecules that convert. *)
Theorem moo_rewards_shape {mol graph : Type}
    (mol2graph : mol → option graph) (seh : graph → fval)
    (qed calculateScore MolWt : mol → result fval)
    (objs : list string) (family : string) (params : dist_params) (d : nat)
    (use : bool) (task : SEHMOOTask.t) (mols : list mol) :
  SEHMOOTask.init objs family params d use = Ok task →
  objs ≠ [] →
  let n := length (filter (converts mol2graph) mols) in
  ∃ t,
    SEHMOOTask.compute_flat_rewards mol2graph seh qed calculateScore MolWt
      task mols
    = Ok (t, (λ m, bool_decide (converts mol2graph m)) <$> mols)
    ∧ shape t = [n; length objs]
    ∧ length (data t) = n * length objs.
Proof.
  intros Hinit Hne n. apply init_accepts in Hinit as (-> & Hnd & Hsub).
  destruct (decide (Exists (converts mol2graph) mols)) as [Hv|Hn];
    rewrite Exists_exists in *.
  - rewrite compute_flat_rewards_columns by done. cbn [SEHMOOTask.objectives].
    pose proof (columns_count mol2graph seh qed calculateScore MolWt objs mols
                  Hnd Hsub) as Hc.
    rewrite (stack1_ok _ n).
    + cbn [mbind result_bind]. eexists. split; [reflexivity|].
      cbn [shape data]. rewrite Hc. split; [done|].
      apply length_bind_const. intros i _. by rewrite length_fmap.
    + intros Hnil. apply Hne. destruct objs; [done|].
      by rewrite Hnil in Hc.
    + apply columns_lengths.
  - destruct (no_valid_filter mol2graph mols Hn) as [Hf Hnone].
    unfold SEHMOOTask.compute_flat_rewards.
    rewrite (is_valid_none mol2graph mols Hnone), existsb_replicate_false.
    cbn [negb SEHMOOTask.objectives].
    rewrite <- (is_valid_none mol2graph mols Hnone), is_valid_converts.
    eexists. split; [reflexivity|]. subst n. rewrite Hf. done.
Qed.

Lemma moo_rewards_shape_witness :
  ∃ t,
    SEHMOOTask.compute_flat_rewards Sample.mol2graph Sample.seh Sample.qed
      Sample.calculateScore Sample.MolWt Sample.moo [1; 2; 4; 8]
    = Ok (t, [false; true; true; true])
    ∧ shape t = [3; 4] ∧ length (data t) = 12.
Proof.
  apply (moo_rewards_shape Sample.mol2graph Sample.seh Sample.qed
           Sample.calculateScore Sample.MolWt ["seh"; "qed"; "sa"; "mw"]
           "constant" (ParamFloat (qc 60 1)) 4 true Sample.moo [1; 2; 4; 8]);
    [reflexivity|done].
Defined.

(** X7. The flat rewards do not depend on the order in which the
    objectives are configured: the columns always come in the order seh,
    qed, sa, mw. *)
Theorem moo_rewards_order_of_objectives {mol graph : Type}
    (mol2graph : mol → option graph) (seh : graph → fval)
    (qed calculateScore MolWt : mol → result fval)
    (self self' : SEHMOOTask.t) (mols : list mol) :
  SEHMOOTask.objectives self ≡ₚ SEHMOOTask.objectives self' →
  SEHMOOTask.compute_flat_rewards mol2graph seh qed calculateScore MolWt self mols
  = SEHMOOTask.compute_flat_rewards mol2graph seh qed calculateScore MolWt
      self' mols.
Proof.
  intros Hperm. unfold SEHMOOTask.compute_flat_rewards.
  rewrite (Permutation_length Hperm).
  assert (Hmem : ∀ o, bool_decide (o ∈ SEHMOOTask.objectives self)
                      = bool_decide (o ∈ SEHMOOTask.objectives self')).
  { intros o. apply bool_decide_ext. by rewrite Hperm. }
  by rewrite !Hmem.
Qed.

Lemma moo_rewards_order_of_objectives_witness :
  SEHMOOTask.compute_flat_rewards Sample.mol2graph Sample.seh Sample.qed
    Sample.calculateScore Sample.MolWt
    (SEHMOOTask.mk ["qed"; "seh"] "constant" (ParamFloat (qc 60 1)) 4 true
       None false) [2; 4]
  = SEHMOOTask.compute_flat_rewards Sample.mol2graph Sample.seh Sample.qed
      Sample.calculateScore Sample.MolWt
      (SEHMOOTask.mk ["seh"; "qed"] "constant" (ParamFloat (qc 60 1)) 4 true
         None false) [2; 4].
Proof.
  apply moo_rewards_order_of_objectives. cbn. apply perm_swap.
Defined.

(** ** Conditioning *)

Lemma length_bind_fixed {A B} (f : A → list B) (l : list A) (w : nat) :
  (∀ x, length (f x) = w) → length (l ≫= f) = length l * w.
Proof.
  intros Hf. induction l as [|x l IH]; [done|].
  rewrite bind_cons, length_app, IH, Hf. cbn. lia.
Qed.

Lemma thermometer_length (v : tensor) (d : nat) (lo hi : Qc) :
  shape (thermometer v d lo hi) = shape v ++ [d]
  ∧ length (data (thermometer v d lo hi)) = length (data v) * d.
Proof.
  split; [done|]. cbn [thermometer data].
  apply length_bind_fixed. intros x. by rewrite length_fmap, length_seq.
Qed.

Lemma reshape_rows_ok (n w : nat) (t : tensor) :
  n ≠ 0 → length (data t) = n * w →
  reshape_rows n t = Ok (mkTensor [n; w] (data t)).
Proof.
  intros Hn Hl. unfold reshape_rows. rewrite decide_False by done.
  rewrite Hl, (Nat.mul_comm n w), Nat.Div0.mod_mul, Nat.div_mul by done.
  by rewrite decide_True.
Qed.

Lemma row_length (w : nat) (d : list fval) (i n : nat) :
  length d = n * w → i < n → length (row w d i) = w.
Proof.
  intros Hd Hi. unfold row. rewrite length_take, length_drop, Hd. nia.
Qed.

(** The concatenation of two matrices of [n] rows. *)
Lemma cat1_matrix (a b : tensor) (n wa wb : nat) :
  shape a = [n; wa] → shape b = [n; wb] →
  length (data a) = n * wa → length (data b) = n * wb →
  ∃ r, cat1 a b = Ok r ∧ shape r = [n; wa + wb]
       ∧ length (data r) = n * (wa + wb).
Proof.
  intros Ha Hb Hla Hlb. unfold cat1. rewrite Ha, Hb.
  assert (Hlen : length (seq 0 n ≫= λ i, row wa (data a) i ++ row wb (data b) i)
                 = n * (wa + wb)).
  { apply length_bind_const. intros i Hi.
    by rewrite length_app, (row_length wa _ i n), (row_length wb _ i n). }
  destruct n as [|n]; (rewrite decide_True by done); by eexists.
Qed.

Lemma sample_matrix_wf (f : nat → nat → Qc) (n k : nat) :
  length (data (SEHMOOTask.sample_matrix f n k)) = n * k.
Proof.
  cbn [SEHMOOTask.sample_matrix data]. apply length_bind_const.
  intros i _. by rewrite length_fmap, length_seq.
Qed.

Lemma length_mjoin_replicate {A} (n : nat) (v : list A) :
  length (mjoin (replicate n v)) = n * length v.
Proof.
  induction n as [|n IH]; [done|].
  change (mjoin (replicate (S n) v)) with (v ++ mjoin (replicate n v)).
  rewrite length_app, IH. lia.
Qed.

(** The preferences of a call: a matrix of [n] rows and one column for each
    objective. *)
Lemma draw_preferences_wf (dirichlet dirichlet_exp : nat → nat → Qc)
    (self : SEHMOOTask.t) (n : nat) :
  n ≠ 0 →
  match SEHMOOTask.seeded_preference self with
  | Some v => length v = length (SEHMOOTask.objectives self)
  | None => True
  end →
  let P := SEHMOOTask.draw_preferences dirichlet dirichlet_exp self n in
  shape P = [n; length (SEHMOOTask.objectives self)]
  ∧ length (data P) = n * length (SEHMOOTask.objectives self).
Proof.
  intros Hn Hseed. unfold SEHMOOTask.draw_preferences.
  destruct (SEHMOOTask.seeded_preference self) as [v|]; cbn zeta.
  - cbn [shape data]. rewrite decide_False by done. rewrite Hseed.
    split; [done|]. by rewrite length_mjoin_replicate, length_fmap, Hseed.
  - destruct (SEHMOOTask.experimental_dirichlet self);
      split; [done|apply sample_matrix_wf|done|apply sample_matrix_wf].
Qed.

(** The preference block of an encoding. *)
Lemma preference_encoding_wf (d : nat) (use : bool) (n k : nat) (P : tensor) :
  n ≠ 0 → shape P = [n; k] → length (data P) = n * k →
  ∃ pe, preference_encoding d use n P = Ok pe
        ∧ shape pe = [n; if use then k * d else k]
        ∧ length (data pe) = n * (if use then k * d else k).
Proof.
  intros Hn Hs Hl. unfold preference_encoding. destruct use.
  - destruct (thermometer_length P d 0%Qc 1%Qc) as [_ Ht].
    rewrite (reshape_rows_ok n (k * d)) by (rewrite ?Ht, ?Hl; lia).
    eexists. split; [reflexivity|]. cbn [shape data]. split; [done|].
    rewrite Ht, Hl. lia.
  - by exists P.
Qed.

(** X8. The outcomes of the single-objective
    [sample_conditional_information]: the constant family wants a float and
    gives [n] copies of it with an all-zero encoding, and fails its
    assertion on a pair; the families gamma, uniform, loguniform and beta
    want a pair, fail with [TypeError] on a float and otherwise return a
    [beta] of shape [(n,)] and an encoding of [n] rows. *)
Theorem sample_conditional_information_outcomes (exp : Qc → Qc)
    (gamma_ppf95 : Qc → Qc → Qc) (rng : nat → Qc) (self : SEHTask.t) (n : nat) :
  let r := SEHTask.sample_conditional_information exp gamma_ppf95 rng self n in
  let family := SEHTask.temperature_sample_dist self in
  let d := SEHTask.num_thermometer_dim self in
  (family = "constant" →
     match SEHTask.temperature_dist_params self with
     | ParamFloat x =>
         r = Ok (mkCond (mkTensor [n] (replicate n (Num x))) (zeros [n; d]) None)
     | ParamPair _ _ => r = Raise AssertionError
     end)
  ∧ (family ∈ ["gamma"; "uniform"; "loguniform"; "beta"] →
     match SEHTask.temperature_dist_params self with
     | ParamFloat _ => r = Raise TypeError
     | ParamPair _ _ =>
         ∃ c, r = Ok c
              ∧ shape (beta c) = [n] ∧ length (data (beta c)) = n
              ∧ shape (encoding c) = [n; d]
              ∧ length (data (encoding c)) = n * d
              ∧ preferences c = None
     end).
Proof.
  intros r family d. subst r family d.
  unfold SEHTask.sample_conditional_information. split.
  - intros ->. rewrite decide_True by done.
    by destruct (SEHTask.temperature_dist_params self).
  - intros Hf.
    assert (Hl : ∀ f : nat → fval, length (f <$> seq 0 n) = n)
      by (intros; by rewrite length_fmap, length_seq).
    unfold SEHTask.draw.
    repeat (apply elem_of_cons in Hf as [Hf'|Hf];
      [rewrite Hf';
       destruct (SEHTask.temperature_dist_params self); [reflexivity|];
       cbn; eexists; split; [reflexivity|]; cbn; rewrite ?Hl;
       repeat split; try done;
       rewrite (length_bind_fixed _ _ (SEHTask.num_thermometer_dim self));
       [by rewrite Hl|intros; by rewrite length_fmap, length_seq]|]).
    by apply elem_of_nil in Hf.
Qed.

Lemma sample_conditional_information_outcomes_witness :
  SEHTask.sample_conditional_information SampleConditioning.exp
    SampleConditioning.gamma_ppf95 SampleConditioning.rng
    (SEHTask.mk None None "gamma" (ParamFloat (qc 32 1)) 4) 3 = Raise TypeError
  ∧ SEHTask.sample_conditional_information SampleConditioning.exp
      SampleConditioning.gamma_ppf95 SampleConditioning.rng
      (SEHTask.mk None None "constant" (ParamPair 0%Qc 1%Qc) 4) 3
    = Raise AssertionError.
Proof.
  split.
  - pose proof (sample_conditional_information_outcomes SampleConditioning.exp
                  SampleConditioning.gamma_ppf95 SampleConditioning.rng
                  (SEHTask.mk None None "gamma" (ParamFloat (qc 32 1)) 4) 3)
      as H.
    cbv zeta in H. destruct H as [_ H]. apply H. compute_done.
  - pose proof (sample_conditional_information_outcomes SampleConditioning.exp
                  SampleConditioning.gamma_ppf95 SampleConditioning.rng
                  (SEHTask.mk None None "constant" (ParamPair 0%Qc 1%Qc) 4) 3)
      as H.
    cbv zeta in H. destruct H as [H _]. apply H. reflexivity.
Defined.

(** Whenever the single-objective sampler returns, its two tensors are well
    formed: [n] temperatures and [n] rows of encoding. *)
Lemma sample_wf (exp : Qc → Qc) (gamma_ppf95 : Qc → Qc → Qc) (rng : nat → Qc)
    (task : SEHTask.t) (n : nat) (c : cond_info) :
  SEHTask.sample_conditional_information exp gamma_ppf95 rng task n = Ok c →
  shape (beta c) = [n] ∧ length (data (beta c)) = n
  ∧ shape (encoding c) = [n; SEHTask.num_thermometer_dim task]
  ∧ length (data (encoding c)) = n * SEHTask.num_thermometer_dim task.
Proof.
  unfold SEHTask.sample_conditional_information.
  destruct (decide (SEHTask.temperature_sample_dist task = "constant")) as [Hc|Hc].
  - destruct (SEHTask.temperature_dist_params task) as [x|a b]; [|done].
    intros [= <-]. cbn [beta encoding shape data zeros full numel foldr].
    rewrite !length_replicate. repeat split. lia.
  - unfold SEHTask.draw.
    destruct (SEHTask.temperature_dist_params task) as [x|a b].
    { repeat case_decide; done. }
    match goal with
    | |- mbind _ ?stage = _ → _ =>
        assert (Hst : stage = Ok (None, None)
                      ∨ ∃ l ub, stage = Ok (Some l, Some ub) ∧ length l = n)
    end.
    { repeat (destruct (decide _);
              [right; eexists _, _; split;
               [reflexivity|by rewrite length_fmap, length_seq]|]).
      by left. }
    destruct Hst as [->|(l & ub & -> & Hl)]; [done|].
    cbn. rewrite Hl. intros [= <-]. cbn [beta encoding shape data thermometer].
    repeat split; try done.
    rewrite (length_bind_fixed _ _ (SEHTask.num_thermometer_dim task));
      [by rewrite Hl|intros; by rewrite length_fmap, length_seq].
Qed.

(** X9. The width of the conditioning encoding is the [num_cond_dim]
    that [setup_env_context] announces. For the task that [setup_task]
    builds (with or without a seeded preference of one entry per
    objective), whenever the inherited sampler returns for [n > 0], the
    multi-objective [sample_conditional_information] returns the same
    [beta], a preference matrix of [n] rows and one column per objective,
    and an encoding of [n] rows and [num_cond_dim] columns. *)
Theorem moo_sample_encoding_width (exp : Qc → Qc) (gamma_ppf95 : Qc → Qc → Qc)
    (rng : nat → Qc) (dirichlet dirichlet_exp : nat → nat → Qc)
    (h : SEHMOOFragTrainer.hps) (task0 task : SEHMOOTask.t) (n : nat)
    (c0 : cond_info) :
  SEHMOOFragTrainer.setup_task h = Ok task0 →
  task = task0
  ∨ (∃ v, length v = length (SEHMOOFragTrainer.objectives h)
          ∧ task = SEHMOOFragTrainer.set_seeded_preference v task0) →
  n ≠ 0 →
  SEHTask.sample_conditional_information exp gamma_ppf95 rng
    (SEHMOOTask.super task) n = Ok c0 →
  ∃ cs P,
    SEHMOOTask.sample_conditional_information exp gamma_ppf95 rng dirichlet
      dirichlet_exp task n = Ok cs
    ∧ beta cs = beta c0
    ∧ preferences cs = Some P
    ∧ shape P = [n; length (SEHMOOFragTrainer.objectives h)]
    ∧ shape (encoding cs) = [n; SEHMOOFragTrainer.setup_env_context h]
    ∧ length (data (encoding cs)) = n * SEHMOOFragTrainer.setup_env_context h.
Proof.
  intros Hsetup Htask Hn Hc0. unfold SEHMOOFragTrainer.setup_task in Hsetup.
  apply init_accepts in Hsetup as (-> & _ & _).
  set (k := length (SEHMOOFragTrainer.objectives h)) in *.
  set (d := SEHMOOFragTrainer.num_thermometer_dim h).
  set (use := SEHMOOFragTrainer.use_pref_thermometer h).
  assert (Hfields : SEHMOOTask.objectives task = SEHMOOFragTrainer.objectives h
            ∧ SEHMOOTask.num_thermometer_dim task = d
            ∧ SEHMOOTask.use_pref_thermometer task = use
            ∧ match SEHMOOTask.seeded_preference task with
              | Some v => length v = length (SEHMOOTask.objectives task)
              | None => True
              end).
  { destruct Htask as [->|(v & Hv & ->)]; by repeat split. }
  destruct Hfields as (Hobjs & Hd & Huse & Hseed).
  destruct (draw_preferences_wf dirichlet dirichlet_exp task n Hn Hseed)
    as [HPs HPl].
  rewrite Hobjs in HPs, HPl. fold k in HPs, HPl.
  set (P := SEHMOOTask.draw_preferences dirichlet dirichlet_exp task n) in *.
  destruct (preference_encoding_wf d use n k P Hn HPs HPl)
    as (pe & Hpe & Hpes & Hpel).
  destruct (sample_wf _ _ _ _ _ _ Hc0) as (_ & _ & Hes & Hel).
  cbn [SEHMOOTask.super SEHTask.num_thermometer_dim] in Hes, Hel.
  rewrite Hd in Hes, Hel.
  destruct (cat1_matrix (encoding c0) pe n d _ Hes Hpes Hel Hpel)
    as (e & He & Hes' & Hel').
  unfold SEHMOOTask.sample_conditional_information.
  rewrite Hc0. cbn [mbind result_bind]. fold P. rewrite Hd, Huse.
  unfold preference_encoding in Hpe. rewrite Hpe. cbn [mbind result_bind].
  rewrite He. cbn [mbind result_bind].
  eexists _, P. split; [reflexivity|]. cbn [beta preferences encoding].
  assert (Hw : d + (if use then k * d else k)
               = SEHMOOFragTrainer.setup_env_context h).
  { unfold SEHMOOFragTrainer.setup_env_context. fold use d k.
    destruct use; lia. }
  rewrite <- Hw. by repeat split.
Qed.

Lemma moo_sample_encoding_width_witness :
  ∃ cs P,
    SEHMOOTask.sample_conditional_information SampleConditioning.exp
      SampleConditioning.gamma_ppf95 SampleConditioning.rng
      SampleConditioning.dirichlet SampleConditioning.dirichlet
      SampleConditioning.uniform_moo 3 = Ok cs
    ∧ preferences cs = Some P
    ∧ shape P = [3; 2]
    ∧ shape (encoding cs) = [3; 6]
    ∧ length (data (encoding cs)) = 18.
Proof.
  destruct (moo_sample_encoding_width SampleConditioning.exp
              SampleConditioning.gamma_ppf95 SampleConditioning.rng
              SampleConditioning.dirichlet SampleConditioning.dirichlet
              (SEHMOOFragTrainer.mkHps ["seh"; "qed"] "uniform"
                 (ParamPair 0%Qc (qc 64 1)) 2 true None 15 128 (Some 0%Z))
              SampleConditioning.uniform_moo SampleConditioning.uniform_moo 3
              _ eq_refl (or_introl eq_refl) ltac:(done) eq_refl)
    as (cs & P & Hs & _ & Hp & HP & He & Hl).
  exists cs, P. by repeat split.
Defined.

(** X10. [encode_conditional_information] on a preference matrix of
    [n > 0] rows and one column per objective: with a constant temperature
    given as a float, or any other family given as a pair, it returns [n]
    temperatures, all equal to the float or to the last entry of the pair,
    the preferences themselves, and an encoding of [n] rows and
    [num_cond_dim] columns; a float with another family, or a pair with the
    constant one, raises [TypeError]. *)
Theorem encode_conditional_information_outcomes (h : SEHMOOFragTrainer.hps)
    (task : SEHMOOTask.t) (P : tensor) (n : nat) :
  SEHMOOFragTrainer.setup_task h = Ok task →
  shape P = [n; length (SEHMOOFragTrainer.objectives h)] →
  length (data P) = n * length (SEHMOOFragTrainer.objectives h) →
  n ≠ 0 →
  let constant :=
    bool_decide (SEHMOOFragTrainer.temperature_sample_dist h = "constant") in
  match SEHMOOFragTrainer.temperature_dist_params h, constant with
  | ParamFloat x, true | ParamPair _ x, false =>
      ∃ ce,
        SEHMOOTask.encode_conditional_information task P = Ok ce
        ∧ beta ce = mkTensor [n] (replicate n (Num x))
        ∧ preferences ce = Some P
        ∧ shape (encoding ce) = [n; SEHMOOFragTrainer.setup_env_context h]
        ∧ length (data (encoding ce))
          = n * SEHMOOFragTrainer.setup_env_context h
  | _, _ => SEHMOOTask.encode_conditional_information task P = Raise TypeError
  end.
Proof.
  intros Hsetup HPs HPl Hn constant. subst constant.
  unfold SEHMOOFragTrainer.setup_task in Hsetup.
  apply init_accepts in Hsetup as (-> & _ & _).
  set (k := length (SEHMOOFragTrainer.objectives h)) in *.
  set (d := SEHMOOFragTrainer.num_thermometer_dim h).
  set (use := SEHMOOFragTrainer.use_pref_thermometer h).
  destruct (preference_encoding_wf d use n k P Hn HPs HPl)
    as (pe & Hpe & Hpes & Hpel).
  assert (Hw : d + (if use then k * d else k)
               = SEHMOOFragTrainer.setup_env_context h).
  { unfold SEHMOOFragTrainer.setup_env_context. fold use d k.
    destruct use; lia. }
  assert (Hcat : ∀ x : fval, ∃ e,
            cat1 (full [n; d] x) pe = Ok e
            ∧ shape e = [n; SEHMOOFragTrainer.setup_env_context h]
            ∧ length (data e) = n * SEHMOOFragTrainer.setup_env_context h).
  { intros x. rewrite <- Hw. apply cat1_matrix; try done.
    cbn [full data numel foldr]. rewrite length_replicate. lia. }
  assert (Henc : ∀ be : tensor,
            (if use
             then enc ← reshape_rows n (thermometer P d 0%Qc 1%Qc); cat1 be enc
             else cat1 be P) = cat1 be pe).
  { intros be. unfold preference_encoding in Hpe. destruct use.
    - by rewrite Hpe.
    - by injection Hpe as <-. }
  unfold SEHMOOTask.encode_conditional_information, SEHMOOTask.len.
  rewrite HPs. cbn [mbind result_bind SEHMOOTask.temperature_sample_dist
                    SEHMOOTask.temperature_dist_params
                    SEHMOOTask.num_thermometer_dim
                    SEHMOOTask.use_pref_thermometer].
  fold d use.
  destruct (SEHMOOFragTrainer.temperature_dist_params h) as [x|a b];
    case_bool_decide as Hc;
    [rewrite decide_True by done|rewrite decide_False by done
    |rewrite decide_True by done|rewrite decide_False by done];
    try reflexivity;
    rewrite ones_times; cbn [mbind result_bind shape length];
    rewrite bool_decide_true by done; cbn [assert mbind result_bind];
    rewrite Henc.
  - destruct (Hcat (Num 0%Qc)) as (e & He & Hes & Hel).
    unfold zeros. rewrite He. cbn [mbind result_bind]. by eexists.
  - destruct (Hcat (Num 1%Qc)) as (e & He & Hes & Hel).
    unfold ones. rewrite He. cbn [mbind result_bind]. by eexists.
Qed.

Lemma encode_conditional_information_outcomes_witness :
  ∃ ce,
    SEHMOOTask.encode_conditional_information SampleConditioning.uniform_moo
      (mkTensor [1; 2] [Num (qc 1 4); Num (qc 3 4)]) = Ok ce
    ∧ beta ce = mkTensor [1] [Num (qc 64 1)]
    ∧ shape (encoding ce) = [1; 6].
Proof.
  destruct (encode_conditional_information_outcomes
              (SEHMOOFragTrainer.mkHps ["seh"; "qed"] "uniform"
                 (ParamPair 0%Qc (qc 64 1)) 2 true None 15 128 (Some 0%Z))
              SampleConditioning.uniform_moo
              (mkTensor [1; 2] [Num (qc 1 4); Num (qc 3 4)]) 1
              eq_refl eq_refl eq_refl ltac:(done))
    as (ce & He & Hb & _ & Hs & _).
  exists ce. by repeat split.
Defined.

(** ** Scalarisation *)

(** X11. On a single-objective batch of [n ≠ 1] rewards (a column of
    shape [(n, 1)]) and [n] temperatures, [cond_info_to_logreward] returns
    [n] entries; where the reward [x] and the temperature [b] are numbers
    the entry is the number [ln(max(x, eps)) * b], the logarithm being
    taken at a value that is at least [eps > 0]. *)
Theorem seh_logreward_entries (ln : Qc → Qc) (n : nat) (F B : list fval)
    (enc : tensor) (prefs : option tensor) :
  n ≠ 1 → length F = n → length B = n →
  ∃ r,
    SEHTask.cond_info_to_logreward ln (mkCond (mkTensor [n] B) enc prefs)
      (ArgTensor (mkTensor [n; 1] F)) = Ok r
    ∧ shape r = [n] ∧ length (data r) = n
    ∧ ∀ i x b, F !! i = Some (Num x) → B !! i = Some (Num b) →
        data r !! i = Some (Num (ln (Qcmax x eps) * b)%Qc)
        ∧ (0 < eps ≤ Qcmax x eps)%Qc.
Proof.
  intros Hn HF HB. rewrite seh_logreward_formula by done.
  eexists. split; [reflexivity|]. cbn [shape data]. split; [done|].
  split; [rewrite length_zip_with; lia|].
  intros i x b Hx Hb. rewrite lookup_zip_with, Hx, Hb. cbn [mbind option_bind].
  destruct (flog_clamp_finite ln x) as [-> Hle].
  split; [done|]. split; [by apply Qcltb_lt|done].
Qed.

Lemma seh_logreward_entries_witness :
  ∃ r,
    SEHTask.cond_info_to_logreward Sample.ln
      (mkCond (mkTensor [2] [Num (qc 32 1); Num (qc 32 1)]) (zeros [2; 4]) None)
      (ArgTensor (mkTensor [2; 1] [Num (qc 1 2); Num 0%Qc])) = Ok r
    ∧ shape r = [2] ∧ length (data r) = 2.
Proof.
  destruct (seh_logreward_entries Sample.ln 2 [Num (qc 1 2); Num 0%Qc]
              [Num (qc 32 1); Num (qc 32 1)] (zeros [2; 4]) None
              ltac:(done) eq_refl eq_refl) as (r & Hr & Hs & Hl & _).
  exists r. by repeat split.
Defined.

(** X12. On a multi-objective batch of [n] reward rows of [k] objectives,
    preferences of the same shape and [n] temperatures,
    [cond_info_to_logreward] returns, for every [n] (one included), [n]
    entries; where the weighted sum [s] of a row and its temperature [b]
    are numbers the entry is the number [ln(max(s, eps)) * b]. *)
Theorem moo_logreward_entries (ln : Qc → Qc) (n k : nat) (F P B : list fval)
    (enc : tensor) :
  length F = n * k → length P = n * k → length B = n →
  ∃ r,
    SEHMOOTask.cond_info_to_logreward ln
      (mkCond (mkTensor [n] B) enc (Some (mkTensor [n; k] P)))
      (ArgTensor (mkTensor [n; k] F)) = Ok r
    ∧ shape r = [n] ∧ length (data r) = n
    ∧ ∀ i s b, i < n → weighted_sum k F P i = Num s → B !! i = Some (Num b) →
        data r !! i = Some (Num (ln (Qcmax s eps) * b)%Qc)
        ∧ (0 < eps ≤ Qcmax s eps)%Qc.
Proof.
  intros HF HP HB. rewrite moo_logreward_formula by done.
  eexists. split; [reflexivity|]. cbn [shape data]. split; [done|].
  split; [by rewrite length_fmap, length_seq|].
  intros i s b Hi Hs Hb.
  rewrite list_lookup_fmap, lookup_seq_lt by done.
  cbn [fmap option_fmap option_map Nat.add].
  rewrite Hs, (list_lookup_total_correct _ _ _ Hb).
  destruct (flog_clamp_finite ln s) as [-> Hle].
  split; [done|]. split; [by apply Qcltb_lt|done].
Qed.

Lemma moo_logreward_entries_witness :
  ∃ r,
    SEHMOOTask.cond_info_to_logreward Sample.ln
      (mkCond (mkTensor [1] [Num (qc 32 1)]) (zeros [1; 4])
         (Some (mkTensor [1; 2] [Num (qc 1 4); Num (qc 3 4)])))
      (ArgTensor (mkTensor [1; 2] [Num (qc 1 2); Num 1%Qc])) = Ok r
    ∧ shape r = [1] ∧ length (data r) = 1.
Proof.
  destruct (moo_logreward_entries Sample.ln 1 2 [Num (qc 1 2); Num 1%Qc]
              [Num (qc 1 4); Num (qc 3 4)] [Num (qc 32 1)] (zeros [1; 4])
              eq_refl eq_refl eq_refl) as (r & Hr & Hs & Hl & _).
  exists r. by repeat split.
Defined.

(** ** The steps of a batch, composed *)

(** The temperatures that the sampler returns are numbers. *)
Lemma sample_beta_numbers (exp : Qc → Qc) (gamma_ppf95 : Qc → Qc → Qc)
    (rng : nat → Qc) (task : SEHTask.t) (n : nat) (c : cond_info) :
  SEHTask.sample_conditional_information exp gamma_ppf95 rng task n = Ok c →
  ∀ i b, data (beta c) !! i = Some b → ∃ q, b = Num q.
Proof.
  unfold SEHTask.sample_conditional_information.
  destruct (decide (SEHTask.temperature_sample_dist task = "constant")) as [Hc|Hc].
  - destruct (SEHTask.temperature_dist_params task) as [x|a b]; [|done].
    intros [= <-] i y Hb. cbn in Hb. apply lookup_replicate in Hb as [-> _].
    by exists x.
  - unfold SEHTask.draw.
    destruct (SEHTask.temperature_dist_params task) as [x|a b].
    { repeat case_decide; done. }
    match goal with
    | |- mbind _ ?stage = _ → _ =>
        assert (Hst : stage = Ok (None, None)
                      ∨ ∃ (f : nat → Qc) ub,
                          stage = Ok (Some ((λ i, Num (f i)) <$> seq 0 n), Some ub))
    end.
    { repeat (destruct (decide _);
              [right; by eexists (λ i, _), _|]).
      by left. }
    destruct Hst as [->|(f & ub & ->)]; [done|].
    cbn. intros [= <-] i y Hb. cbn in Hb.
    rewrite list_lookup_fmap in Hb.
    destruct (seq 0 n !! i); [|done]. injection Hb as <-. by eexists.
Qed.

(** The single-objective rewards without sharding, as one tensor. *)
Lemma unsharded_explicit {mol graph fp : Type}
    (mol2graph : mol → option graph) (seh : graph → fval)
    (fingerprint : mol → fp) (km_predict : fp → Z)
    (self : SEHTask.t) (mols : list mol) :
  SEHTask.part self = None →
  SEHTask.compute_flat_rewards mol2graph seh fingerprint km_predict self mols
  = Ok (mkTensor [length (filter (converts mol2graph) mols); 1]
          ((λ g, fclip clip_lo clip_hi
                   (SEHTask.flat_reward_transform (nan_to_zero (seh g))))
             <$> omap id (mol2graph <$> mols)),
        (λ m, bool_decide (converts mol2graph m)) <$> mols).
Proof.
  intros Hp.
  destruct (decide (Exists (converts mol2graph) mols)) as [Hv|Hn];
    rewrite Exists_exists in *.
  - by rewrite (compute_flat_rewards_unsharded mol2graph seh fingerprint
                  km_predict self mols Hp Hv), is_valid_converts.
  - destruct (no_valid_filter mol2graph mols Hn) as [Hf Hnone].
    unfold SEHTask.compute_flat_rewards.
    rewrite (is_valid_none mol2graph mols Hnone), existsb_replicate_false.
    cbn [negb]. rewrite <- (is_valid_none mol2graph mols Hnone), is_valid_converts.
    rewrite Hf. do 3 f_equal.
    assert (Hl : length (omap id (mol2graph <$> mols)) = 0)
      by (by rewrite batch_length, Hf).
    by destruct (omap id (mol2graph <$> mols)).
Qed.

Lemma Qcmax_above (q lo : Qc) : (lo < q)%Qc → Qcmax q lo = q.
Proof.
  intros Hq. unfold Qcmax. by rewrite (proj2 (Qcleb_gt q lo) Hq).
Qed.

Lemma eps_below_clip (q : Qc) : (clip_lo ≤ q)%Qc → (eps < q)%Qc.
Proof.
  intros Hq. eapply Qclt_le_trans; [|exact Hq]. by apply Qcltb_lt.
Qed.

(** X13. One single-objective batch without sharding, from the sampler to
    the log-reward. With [n] the number of molecules that convert and the
    conditioning sampled for [n]: for [n ≠ 1] the log-reward of the
    [j]-th such molecule is [ln(q) * beta_j], where [q], between 1e-4 and
    100, is its flat reward, so that the clamp at [eps] is never active;
    for [n = 1] the call raises the assertion error. *)
Theorem seh_batch_logreward {mol graph fp : Type}
    (mol2graph : mol → option graph) (seh : graph → fval)
    (fingerprint : mol → fp) (km_predict : fp → Z)
    (ln exp : Qc → Qc) (gamma_ppf95 : Qc → Qc → Qc) (rng : nat → Qc)
    (h : SEHFragSetup.hps) (task : SEHTask.t) (mols : list mol)
    (c : cond_info) :
  SEHFragSetup.setup_task h = Ok task →
  SEHFragSetup.part h = None →
  let n := length (filter (converts mol2graph) mols) in
  SEHTask.sample_conditional_information exp gamma_ppf95 rng task n = Ok c →
  ∃ flat mask,
    SEHTask.compute_flat_rewards mol2graph seh fingerprint km_predict task mols
    = Ok (flat, mask)
    ∧ (n = 1 →
       SEHTask.cond_info_to_logreward ln c (ArgTensor flat)
       = Raise AssertionError)
    ∧ (n ≠ 1 →
       ∃ r,
         SEHTask.cond_info_to_logreward ln c (ArgTensor flat) = Ok r
         ∧ shape r = [n]
         ∧ ∀ j m g, filter (converts mol2graph) mols !! j = Some m →
             mol2graph m = Some g →
             ∃ q b,
               data flat !! j = Some (Num q)
               ∧ (clip_lo ≤ q ≤ clip_hi)%Qc
               ∧ data (beta c) !! j = Some (Num b)
               ∧ data r !! j = Some (Num (ln q * b)%Qc)).
Proof.
  intros Hsetup Hp n Hc. injection Hsetup as <-.
  rewrite (unsharded_explicit mol2graph seh fingerprint km_predict _ mols)
    by exact Hp.
  fold n. eexists _, _. split; [reflexivity|].
  destruct (sample_wf _ _ _ _ _ _ Hc) as (Hbs & Hbl & _).
  pose proof (sample_beta_numbers _ _ _ _ _ _ Hc) as Hnum.
  destruct c as [[bs B] e p]. cbn [beta shape data] in *. subst bs.
  set (D := (λ g, fclip clip_lo clip_hi
                    (SEHTask.flat_reward_transform (nan_to_zero (seh g))))
              <$> omap id (mol2graph <$> mols)).
  assert (HD : length D = n) by (subst D n; by rewrite length_fmap, batch_length).
  split.
  - intros Hn. unfold SEHTask.cond_info_to_logreward.
    cbn [SEHTask.as_tensor mbind result_bind beta]. rewrite Hn. reflexivity.
  - intros Hn. rewrite seh_logreward_formula by done.
    eexists. split; [reflexivity|]. split; [done|].
    intros j m g Hj Hg. cbn [data].
    destruct (seh_reward_in_range (seh g)) as (q & Hq & Hr).
    assert (HDj : D !! j = Some (Num q)).
    { subst D. rewrite list_lookup_fmap, batch_lookup, Hj. cbn.
      rewrite Hg. cbn. by rewrite Hq. }
    destruct (lookup_lt_is_Some_2 B j) as [b Hb].
    { rewrite Hbl. subst n. by eapply lookup_lt_Some. }
    destruct (Hnum j b Hb) as [b' ->].
    exists q, b'. split; [done|]. split; [done|]. split; [done|].
    rewrite lookup_zip_with, HDj, Hb. cbn [mbind option_bind].
    destruct (flog_clamp_finite ln q) as [-> _].
    rewrite Qcmax_above; [done|]. apply eps_below_clip. by destruct Hr.
Qed.

Lemma seh_batch_logreward_witness :
  ∃ c flat mask r,
    SEHTask.sample_conditional_information SampleConditioning.exp
      SampleConditioning.gamma_ppf95 SampleConditioning.rng Sample.unsharded 2
    = Ok c
    ∧ SEHTask.compute_flat_rewards Sample.mol2graph Sample.seh
        Sample.fingerprint Sample.km_predict Sample.unsharded [10; 1; 6; 3]
      = Ok (flat, mask)
    ∧ SEHTask.cond_info_to_logreward Sample.ln c (ArgTensor flat) = Ok r
    ∧ shape r = [2].
Proof.
  eexists.
  assert (Hc : SEHTask.sample_conditional_information SampleConditioning.exp
                 SampleConditioning.gamma_ppf95 SampleConditioning.rng
                 Sample.unsharded 2 = Ok _) by reflexivity.
  destruct (seh_batch_logreward Sample.mol2graph Sample.seh Sample.fingerprint
              Sample.km_predict Sample.ln SampleConditioning.exp
              SampleConditioning.gamma_ppf95 SampleConditioning.rng
              (SEHFragSetup.mkHps "constant" (ParamFloat (qc 32 1)) 4 None None)
              Sample.unsharded [10; 1; 6; 3] _ eq_refl eq_refl Hc)
    as (flat & mask & Hf & _ & Hr).
  destruct Hr as (r & Hr & Hs & _); [done|].
  exists flat, mask, r. by repeat split.
Defined.

(** X14. One multi-objective batch, from the sampler to the log-reward.
    For the task that [setup_task] builds with at least one objective, a
    batch in which [n > 0] molecules convert, and a temperature
    configuration on which the inherited sampler returns: the conditioning
    sampled for [n], the flat rewards of the batch and their scalarisation
    all return, and the log-reward has one entry for each molecule that
    converts, one molecule included. *)
Theorem moo_batch_logreward {mol graph : Type}
    (mol2graph : mol → option graph) (seh : graph → fval)
    (qed calculateScore MolWt : mol → result fval)
    (ln exp : Qc → Qc) (gamma_ppf95 : Qc → Qc → Qc) (rng : nat → Qc)
    (dirichlet dirichlet_exp : nat → nat → Qc)
    (h : SEHMOOFragTrainer.hps) (task : SEHMOOTask.t) (mols : list mol)
    (c0 : cond_info) :
  SEHMOOFragTrainer.setup_task h = Ok task →
  SEHMOOFragTrainer.objectives h ≠ [] →
  let n := length (filter (converts mol2graph) mols) in
  n ≠ 0 →
  SEHTask.sample_conditional_information exp gamma_ppf95 rng
    (SEHMOOTask.super task) n = Ok c0 →
  ∃ cs flat mask r,
    SEHMOOTask.sample_conditional_information exp gamma_ppf95 rng dirichlet
      dirichlet_exp task n = Ok cs
    ∧ SEHMOOTask.compute_flat_rewards mol2graph seh qed calculateScore MolWt
        task mols = Ok (flat, mask)
    ∧ SEHMOOTask.cond_info_to_logreward ln cs (ArgTensor flat) = Ok r
    ∧ shape r = [n] ∧ length (data r) = n.
Proof.
  intros Hsetup Hne n Hn Hc0.
  unfold SEHMOOFragTrainer.setup_task in Hsetup.
  pose proof (init_accepts _ _ _ _ _ _ Hsetup) as (Htask & Hnd & Hsub).
  set (objs := SEHMOOFragTrainer.objectives h) in *.
  set (k := length objs).
  (* the conditioning *)
  assert (Hobjs : SEHMOOTask.objectives task = objs) by (by subst task).
  assert (Hseed : SEHMOOTask.seeded_preference task = None) by (by subst task).
  destruct (draw_preferences_wf dirichlet dirichlet_exp task n Hn)
    as [HPs HPl]; [by rewrite Hseed|].
  rewrite Hobjs in HPs, HPl. fold k in HPs, HPl.
  set (P := SEHMOOTask.draw_preferences dirichlet dirichlet_exp task n) in *.
  destruct (preference_encoding_wf (SEHMOOTask.num_thermometer_dim task)
              (SEHMOOTask.use_pref_thermometer task) n k P Hn HPs HPl)
    as (pe & Hpe & Hpes & Hpel).
  destruct (sample_wf _ _ _ _ _ _ Hc0) as (Hbs & Hbl & Hes & Hel).
  cbn [SEHMOOTask.super SEHTask.num_thermometer_dim] in Hes, Hel.
  destruct (cat1_matrix (encoding c0) pe n _ _ Hes Hpes Hel Hpel)
    as (e & He & _ & _).
  assert (Hs : SEHMOOTask.sample_conditional_information exp gamma_ppf95 rng
                 dirichlet dirichlet_exp task n
               = Ok (mkCond (beta c0) e (Some P))).
  { unfold SEHMOOTask.sample_conditional_information.
    rewrite Hc0. cbn [mbind result_bind]. fold P.
    unfold preference_encoding in Hpe. rewrite Hpe. cbn [mbind result_bind].
    by rewrite He. }
  (* the flat rewards *)
  assert (Hv : ∃ m, m ∈ mols ∧ converts mol2graph m).
  { destruct (decide (Exists (converts mol2graph) mols)) as [Hv|Hv];
      rewrite Exists_exists in *; [done|].
    apply no_valid_filter in Hv as [Hf _]. subst n. by rewrite Hf in Hn. }
  pose proof (columns_count mol2graph seh qed calculateScore MolWt objs mols
                Hnd Hsub) as Hcc.
  assert (Hf : ∃ D, SEHMOOTask.compute_flat_rewards mol2graph seh qed
                      calculateScore MolWt task mols
                    = Ok (mkTensor [n; k] D,
                          (λ m, bool_decide (converts mol2graph m)) <$> mols)
                    ∧ length D = n * k).
  { rewrite compute_flat_rewards_columns by done. rewrite Hobjs.
    rewrite (stack1_ok _ n); [|intros Hnil; rewrite Hnil in Hcc;
                                 by destruct objs|apply columns_lengths].
    cbn [mbind result_bind]. rewrite Hcc. eexists. split; [reflexivity|].
    apply length_bind_const. intros i _. by rewrite length_fmap. }
  destruct Hf as (D & Hf & HD).
  (* the scalarisation *)
  destruct P as [ps Pd]. cbn [shape data] in HPs, HPl. subst ps.
  destruct (beta c0) as [bs B] eqn:Eb. cbn [shape data] in Hbs, Hbl. subst bs.
  eexists _, _, _, _. split; [exact Hs|]. split; [exact Hf|].
  rewrite moo_logreward_formula by done.
  split; [reflexivity|]. cbn [shape data]. split; [done|].
  by rewrite length_fmap, length_seq.
Qed.

Lemma moo_batch_logreward_witness :
  ∃ cs flat mask r,
    SEHMOOTask.sample_conditional_information SampleConditioning.exp
      SampleConditioning.gamma_ppf95 SampleConditioning.rng
      SampleConditioning.dirichlet SampleConditioning.dirichlet
      SampleConditioning.constant_moo 1 = Ok cs
    ∧ SEHMOOTask.compute_flat_rewards Sample.mol2graph Sample.seh Sample.qed
        Sample.calculateScore Sample.MolWt SampleConditioning.constant_moo
        [1; 10] = Ok (flat, mask)
    ∧ SEHMOOTask.cond_info_to_logreward Sample.ln cs (ArgTensor flat) = Ok r
    ∧ shape r = [1] ∧ length (data r) = 1.
Proof.
  apply (moo_batch_logreward Sample.mol2graph Sample.seh Sample.qed
           Sample.calculateScore Sample.MolWt Sample.ln SampleConditioning.exp
           SampleConditioning.gamma_ppf95 SampleConditioning.rng
           SampleConditioning.dirichlet SampleConditioning.dirichlet
           (SEHMOOFragTrainer.mkHps ["seh"; "qed"] "constant"
              (ParamFloat (qc 60 1)) 2 true None 15 128 (Some 0%Z))
           SampleConditioning.constant_moo [1; 10]
           (mkCond (mkTensor [1] [Num (qc 60 1)]) (zeros [1; 2]) None));
    done.
Defined.

(** ** The two models of the trainer *)

(** With [sampling_tau] not above 0 every state of a run has one model
    only. *)
Lemma reachable_shared (self : SEHFragTrainer.t) :
  SEHFragTrainer.reachable self →
  Qcltb 0%Qc (SEHFragTrainer.sampling_tau self) = false →
  SEHFragTrainer.model self = seq 0 (length (SEHFragTrainer.model self))
  ∧ SEHFragTrainer.sampling_model self = SEHFragTrainer.model self.
Proof.
  induction 1 as [params tau|self trained Hr IH Hlen].
  - unfold SEHFragTrainer.setup.
    destruct (Qcltb 0%Qc tau) eqn:Htau; cbn [SEHFragTrainer.sampling_tau];
      [by rewrite Htau|].
    intros _. cbn [SEHFragTrainer.model SEHFragTrainer.sampling_model].
    by rewrite length_seq.
  - intros Htau. by apply IH.
Qed.

(** X15. With [sampling_tau = 0] (or below) the sampling model is the
    trained model itself: in every state of a run, after a gradient step
    each of its parameters holds the value that the optimisers wrote. *)
Theorem step_shared_sampling_model (self : SEHFragTrainer.t)
    (trained : nat → list fval) (i : nat) :
  SEHFragTrainer.reachable self →
  Qcltb 0%Qc (SEHFragTrainer.sampling_tau self) = false →
  i < length (SEHFragTrainer.model self) →
  let after := SEHFragTrainer.step self trained in
  SEHFragTrainer.sampling_model after = SEHFragTrainer.model after
  ∧ SEHFragTrainer.param (SEHFragTrainer.store after)
      (SEHFragTrainer.sampling_model after) i
    = trained i.
Proof.
  intros Hr Htau Hi after. subst after.
  destruct (reachable_shared self Hr Htau) as [Hm Hs].
  unfold SEHFragTrainer.step. rewrite Htau.
  cbn [SEHFragTrainer.sampling_model SEHFragTrainer.model SEHFragTrainer.store].
  split; [done|]. rewrite Hs. unfold SEHFragTrainer.param.
  set (k := length (SEHFragTrainer.model self)) in *. rewrite Hm.
  rewrite lookup_seq_lt by done. cbn [from_option].
  unfold SEHFragTrainer.read. rewrite Nat.add_0_l, opt_step_lookup.
  by rewrite decide_True.
Qed.

Lemma step_shared_sampling_model_witness :
  let self := SEHFragTrainer.setup [[Num 1%Qc; Num (qc 2 1)]] 0%Qc in
  let trained := λ _ : nat, [Num (qc 3 1); Num (qc 5 1)] in
  let after := SEHFragTrainer.step self trained in
  SEHFragTrainer.sampling_model after = SEHFragTrainer.model after
  ∧ SEHFragTrainer.param (SEHFragTrainer.store after)
      (SEHFragTrainer.sampling_model after) 0
    = [Num (qc 3 1); Num (qc 5 1)].
Proof.
  intros self trained after.
  apply (step_shared_sampling_model self trained 0).
  - apply SEHFragTrainer.reachable_setup.
  - reflexivity.
  - vm_compute. lia.
Defined.

(** X16. [setup] gives both models the initial parameters. With
    [sampling_tau > 0] the sampling model is a deep copy: no parameter of
    one model is a parameter of the other; otherwise the two models are one
    object. *)
Theorem setup_models (params : list (list fval)) (tau : Qc) (i : nat)
    (v : list fval) :
  params !! i = Some v →
  let self := SEHFragTrainer.setup params tau in
  SEHFragTrainer.param (SEHFragTrainer.store self) (SEHFragTrainer.model self) i
    = v
  ∧ SEHFragTrainer.param (SEHFragTrainer.store self)
      (SEHFragTrainer.sampling_model self) i = v
  ∧ (if Qcltb 0%Qc tau
     then ∀ a b, a ∈ SEHFragTrainer.model self →
                 b ∈ SEHFragTrainer.sampling_model self → a ≠ b
     else SEHFragTrainer.sampling_model self = SEHFragTrainer.model self).
Proof.
  intros Hv self. subst self. unfold SEHFragTrainer.setup.
  pose proof (lookup_lt_Some _ _ _ Hv) as Hi.
  destruct (Qcltb 0%Qc tau);
    cbn [SEHFragTrainer.store SEHFragTrainer.model SEHFragTrainer.sampling_model];
    unfold SEHFragTrainer.param, SEHFragTrainer.read;
    rewrite !lookup_seq_lt by done; cbn [from_option];
    rewrite !alloc_lookup.
  - rewrite decide_False by lia. rewrite decide_True by lia.
    rewrite decide_True by lia.
    replace (0 + i - 0) with i by lia.
    replace (length params + i - length params) with i by lia.
    rewrite Hv. repeat split.
    intros a b Ha Hb ->. apply elem_of_seq in Ha, Hb. lia.
  - rewrite decide_True by lia. replace (0 + i - 0) with i by lia.
    by rewrite Hv.
Qed.

Lemma setup_models_witness :
  let self := SEHFragTrainer.setup [[Num 1%Qc; Num (qc 2 1)]] (qc 9 10) in
  SEHFragTrainer.param (SEHFragTrainer.store self) (SEHFragTrainer.model self) 0
    = [Num 1%Qc; Num (qc 2 1)]
  ∧ SEHFragTrainer.param (SEHFragTrainer.store self)
      (SEHFragTrainer.sampling_model self) 0 = [Num 1%Qc; Num (qc 2 1)].
Proof.
  intros self.
  destruct (setup_models [[Num 1%Qc; Num (qc 2 1)]] (qc 9 10) 0
              [Num 1%Qc; Num (qc 2 1)] eq_refl) as (H1 & H2 & _).
  split; [exact H1|exact H2].
Defined.


(** ** [job.py]: the whole script *)

(** The configuration block either leaves the dictionary as it is, or
    raises at [upate]. *)
Lemma configure_outcomes (a : Job.args) :
  Job.configure a (Job.initial_hps a) = (Job.initial_hps a, Ok ())
  ∨ ∃ h, Job.configure a (Job.initial_hps a) = (h, Raise AttributeError).
Proof.
  unfold Job.configure.
  destruct (Job.part a), (Job.total_parts a); try by left.
  case_bool_decide; [|by left]. right.
  rewrite !call_method_update, call_method_upate. by eexists.
Qed.

(** The script after a configuration block that did not raise. *)
Lemma main_unpartitioned (exists_ : string → bool) (a : Job.args) :
  Job.configure a (Job.initial_hps a) = (Job.initial_hps a, Ok ()) →
  let h := Job.initial_hps a in
  let dir := Job.format_str (Job.log_dir a) in
  Job.main exists_ a
  = if exists_ dir then
      if bool_decide (Some dir ≠ Job.data_dir a)
      then (Job.mkState h [Job.Rmtree dir; Job.Makedirs dir;
                           Job.ConstructTrainer h; Job.RunTrainer], Ok ())
      else (Job.mkState h [], Raise ValueError)
    else (Job.mkState h [Job.Makedirs dir; Job.ConstructTrainer h;
                         Job.RunTrainer], Ok ()).
Proof.
  intros Hc h dir. unfold Job.main. rewrite Hc.
  change (Job.initial_hps a !! "log_dir") with (Some (Job.PStr dir)).
  change (Job.initial_hps a !! "overwrite_existing_exp")
    with (Some (Job.PBool true)).
  change (Job.initial_hps a !! "data_dir")
    with (Some (Job.of_str (Job.data_dir a))).
  cbn [default from_option id]. rewrite bool_decide_true by done.
  cbn [andb]. destruct (exists_ dir); [|done].
  assert (Hd : bool_decide (Some (Job.PStr dir) ≠ Some (Job.of_str (Job.data_dir a)))
               = bool_decide (Some dir ≠ Job.data_dir a)).
  { apply bool_decide_ext. destruct (Job.data_dir a) as [s|]; cbn.
    - split; intros Hne [= Heq]; apply Hne; by rewrite Heq.
    - split; by intros _ [=]. }
  by rewrite Hd.
Qed.

(** The configuration block raises exactly on a sharded command line. *)
Lemma configure_sharded (a : Job.args) :
  let sharded :=
    match Job.part a, Job.total_parts a with
    | Some _, Some tp => bool_decide (1 < tp)%Z
    | _, _ => false
    end in
  if sharded
  then ∃ h, Job.configure a (Job.initial_hps a) = (h, Raise AttributeError)
  else Job.configure a (Job.initial_hps a) = (Job.initial_hps a, Ok ()).
Proof.
  unfold Job.configure.
  destruct (Job.part a), (Job.total_parts a); try done.
  case_bool_decide; [|done].
  rewrite !call_method_update, call_method_upate. by eexists.
Qed.

(** X19. The guard on the removal of an existing log directory compares
    names, not directories. The script removes a directory exactly when the
    command line is not a sharded one, the directory is named by
    [--log_dir], that name exists, and it is not, as a string, the value of
    [--data_dir]; when the name exists and is the very string given as
    [--data_dir], the script raises [ValueError] before any effect. Another
    name of the data directory passes the guard. *)
Theorem job_rmtree_guard_compares_names (exists_ : string → bool)
    (a : Job.args) (d : string) :
  let dir := Job.format_str (Job.log_dir a) in
  let sharded :=
    match Job.part a, Job.total_parts a with
    | Some _, Some tp => bool_decide (1 < tp)%Z
    | _, _ => false
    end in
  (Job.Rmtree d ∈ Job.trace (Job.main exists_ a).1
   ↔ sharded = false ∧ d = dir ∧ exists_ dir = true ∧ Some dir ≠ Job.data_dir a)
  ∧ (sharded = false → exists_ dir = true → Some dir = Job.data_dir a →
     Job.main exists_ a = (Job.mkState (Job.initial_hps a) [], Raise ValueError)).
Proof.
  intros dir sharded. pose proof (configure_sharded a) as Hc.
  cbv zeta in Hc. fold sharded in Hc. destruct sharded.
  - destruct Hc as [h Hc]. split; [|done]. split; [|by intros [? _]].
    unfold Job.main. rewrite Hc. cbn. intros Hin. by apply elem_of_nil in Hin.
  - rewrite (main_unpartitioned exists_ a Hc). fold dir. split.
    + destruct (exists_ dir) eqn:E; [case_bool_decide as Hd|]; cbn; split.
      * intros Hin. apply elem_of_cons in Hin as [[= ->]|Hin]; [done|].
        repeat (apply elem_of_cons in Hin as [[=]|Hin]).
        by apply elem_of_nil in Hin.
      * intros (_ & -> & _). apply list_elem_of_here.
      * intros Hin. by apply elem_of_nil in Hin.
      * intros (_ & _ & _ & Hne). by destruct Hd.
      * intros Hin. repeat (apply elem_of_cons in Hin as [[=]|Hin]).
        by apply elem_of_nil in Hin.
      * by intros (_ & _ & [=] & _).
    + intros _ -> Heq. by rewrite bool_decide_false by (by intros ?).
Qed.

Lemma job_rmtree_guard_compares_names_witness :
  Job.Rmtree "./data"
    ∈ Job.trace (Job.main (λ _, true)
                   (Job.mkArgs (Some "./data") (Some "data") None None None)).1
  ∧ Job.main (λ _, true) (Job.mkArgs (Some "data") (Some "data") None None None)
    = (Job.mkState
         (Job.initial_hps
            (Job.mkArgs (Some "data") (Some "data") None None None)) [],
       Raise ValueError).
Proof.
  split.
  - apply (job_rmtree_guard_compares_names (λ _, true)
             (Job.mkArgs (Some "./data") (Some "data") None None None) "./data").
    by repeat split.
  - by apply (job_rmtree_guard_compares_names (λ _, true)
                (Job.mkArgs (Some "data") (Some "data") None None None) "data").
Defined.

(** X20. The script never starts a sharded run: whatever the command
    line, a trainer that it constructs receives hyperparameters without
    [part] and [total_parts] and with [offline_ratio] 0.0, and this happens
    only when [--part] or [--total_parts] is missing or [--total_parts] is
    at most 1. *)
Theorem job_never_constructs_sharded_trainer (exists_ : string → bool)
    (a : Job.args) (h : gmap string Job.pyval) :
  Job.ConstructTrainer h ∈ Job.trace (Job.main exists_ a).1 →
  h !! "part" = None
  ∧ h !! "total_parts" = None
  ∧ h !! "offline_ratio" = Some (Job.PFloat 0%Qc)
  ∧ h !! "sampling_tau" = Some (Job.PFloat (qc 99 100))
  ∧ match Job.part a, Job.total_parts a with
    | Some _, Some tp => (tp ≤ 1)%Z
    | _, _ => True
    end.
Proof.
  assert (Hh : ∀ h', Job.ConstructTrainer h'
                 ∈ Job.trace (Job.main exists_ a).1 →
               h' = Job.initial_hps a
               ∧ Job.configure a (Job.initial_hps a)
                 = (Job.initial_hps a, Ok ())).
  { intros h'. destruct (configure_outcomes a) as [Hc|[h0 Hc]].
    - rewrite (main_unpartitioned exists_ a Hc).
      destruct (exists_ _); [case_bool_decide|]; cbn; intros Hin;
        repeat (apply elem_of_cons in Hin as [Hin|Hin];
                [by (injection Hin as -> || discriminate Hin)|]);
        by apply elem_of_nil in Hin.
    - unfold Job.main. rewrite Hc. cbn. intros Hin.
      by apply elem_of_nil in Hin. }
  intros Hin. destruct (Hh h Hin) as [-> Hc].
  split; [reflexivity|]. split; [reflexivity|]. split; [reflexivity|].
  split; [reflexivity|].
  unfold Job.configure in Hc.
  destruct (Job.part a), (Job.total_parts a); try done.
  case_bool_decide; [|lia].
  rewrite !call_method_update, call_method_upate in Hc. done.
Qed.

Lemma job_never_constructs_sharded_trainer_witness :
  ∃ h,
    Job.ConstructTrainer h
      ∈ Job.trace (Job.main (λ _, false)
                     (Job.mkArgs (Some "logs") (Some "data") None (Some 0%Z)
                        (Some 1%Z))).1
    ∧ h !! "part" = None
    ∧ h !! "offline_ratio" = Some (Job.PFloat 0%Qc).
Proof.
  eexists.
  assert (Hin : Job.ConstructTrainer _
                  ∈ Job.trace (Job.main (λ _, false)
                                 (Job.mkArgs (Some "logs") (Some "data") None
                                    (Some 0%Z) (Some 1%Z))).1)
    by (cbn; apply list_elem_of_further, list_elem_of_here).
  split; [exact Hin|].
  destruct (job_never_constructs_sharded_trainer _ _ _ Hin) as (H1 & _ & H3 & _).
  split; [exact H1|exact H3].
Defined.

(** ** The datasets *)

Lemma py_getitem_nonneg {A} (l : list A) (i : Z) :
  (0 ≤ i)%Z →
  py_getitem l i
  = match l !! Z.to_nat i with Some x => Ok x | None => Raise IndexError end.
Proof.
  intros Hi. unfold py_getitem.
  rewrite (proj2 (Z.ltb_ge i 0) Hi).
  destruct (l !! Z.to_nat i) as [x|] eqn:E.
  - apply lookup_lt_Some in E.
    rewrite (proj2 (Z.leb_le 0 i) Hi). cbn [andb].
    by rewrite (proj2 (Z.ltb_lt i _)) by lia.
  - by destruct (_ && _).
Qed.

Lemma py_getitem_elem {A} (l : list A) (i : Z) (x : A) :
  py_getitem l i = Ok x → x ∈ l.
Proof.
  unfold py_getitem. destruct (_ && _); [|done].
  destruct (l !! _) as [y|] eqn:E; [|done]. intros [= <-].
  by eapply list_elem_of_lookup_2.
Qed.

Lemma py_getitem_out_of_range {A} (l : list A) (i : Z) :
  (Z.of_nat (length l) ≤ i ∨ i < - Z.of_nat (length l))%Z →
  py_getitem l i = Raise IndexError.
Proof.
  intros Hi. unfold py_getitem.
  destruct (i <? 0)%Z eqn:E1.
  - apply Z.ltb_lt in E1.
    destruct (0 <=? i + _)%Z eqn:E2; [|done]. apply Z.leb_le in E2. lia.
  - apply Z.ltb_ge in E1. destruct (i <? _)%Z eqn:E2.
    + apply Z.ltb_lt in E2. lia.
    + by rewrite andb_false_r.
Qed.

(** X21. An item of a [TrainingDataset] pairs a graph with the reward
    stored at the same index, and that index is one of the partition's;
    the item at position [idx] within the length is read at the [idx]-th
    index of the partition, and a position beyond the length raises
    [IndexError]. *)
Theorem training_dataset_item {G R : Type} (self : TrainingDataset.t G R)
    (idx : Z) :
  (∀ g r, TrainingDataset.getitem self idx = Ok (g, r) →
     ∃ v, v ∈ TrainingDataset.in_part_idxs self
          ∧ py_getitem (TrainingDataset.graphs self) v = Ok g
          ∧ py_getitem (TrainingDataset.rewards self) v = Ok r)
  ∧ (∀ v g r, (0 ≤ idx)%Z → (0 ≤ v)%Z →
       TrainingDataset.in_part_idxs self !! Z.to_nat idx = Some v →
       TrainingDataset.graphs self !! Z.to_nat v = Some g →
       TrainingDataset.rewards self !! Z.to_nat v = Some r →
       TrainingDataset.getitem self idx = Ok (g, r))
  ∧ ((Z.of_nat (TrainingDataset.len self) ≤ idx)%Z →
     TrainingDataset.getitem self idx = Raise IndexError).
Proof.
  unfold TrainingDataset.getitem, TrainingDataset.len. split; [|split].
  - intros g r.
    destruct (py_getitem (TrainingDataset.in_part_idxs self) idx) as [v|] eqn:Ev;
      [|done].
    cbn [mbind result_bind].
    destruct (py_getitem (TrainingDataset.graphs self) v) as [g'|] eqn:Eg;
      [|done].
    cbn [mbind result_bind].
    destruct (py_getitem (TrainingDataset.rewards self) v) as [r'|] eqn:Er;
      [|done].
    cbn [mbind result_bind]. intros [= <- <-].
    exists v. split; [by eapply py_getitem_elem|done].
  - intros v g r Hi Hv Hidx Hg Hr.
    rewrite (py_getitem_nonneg _ idx Hi), Hidx. cbn [mbind result_bind].
    rewrite (py_getitem_nonneg (TrainingDataset.graphs self) v Hv), Hg.
    cbn [mbind result_bind].
    by rewrite (py_getitem_nonneg (TrainingDataset.rewards self) v Hv), Hr.
  - intros Hi. rewrite py_getitem_out_of_range; [done|by left].
Qed.

(** X22. A [RepeatedPreferenceDataset] holds each preference [repeat]
    times in a row: the item at a position [idx] within the length is the
    preference of index [idx // repeat], which always exists, so that the
    item [p * repeat + r] is the [p]-th preference for every [r < repeat];
    any other position fails the assertion. *)
Theorem repeated_preference_item (self : RepeatedPreferenceDataset.t) (idx : Z) :
  let as_tensor (row : list Qc) := mkTensor [length row] (Num <$> row) in
  ((0 ≤ idx < Z.of_nat (RepeatedPreferenceDataset.len self))%Z →
     ∃ row,
       RepeatedPreferenceDataset.prefs self
         !! Z.to_nat (idx / Z.of_nat (RepeatedPreferenceDataset.repeat self))
       = Some row
       ∧ RepeatedPreferenceDataset.getitem self idx = Ok (as_tensor row))
  ∧ (¬ (0 ≤ idx < Z.of_nat (RepeatedPreferenceDataset.len self))%Z →
     RepeatedPreferenceDataset.getitem self idx = Raise AssertionError)
  ∧ (∀ p r row,
       RepeatedPreferenceDataset.prefs self !! p = Some row →
       r < RepeatedPreferenceDataset.repeat self →
       RepeatedPreferenceDataset.getitem self
         (Z.of_nat (p * RepeatedPreferenceDataset.repeat self + r))
       = Ok (as_tensor row)).
Proof.
  intros as_tensor.
  assert (Hin : ∀ i : Z,
            (0 ≤ i < Z.of_nat (RepeatedPreferenceDataset.len self))%Z →
            ∀ row,
              RepeatedPreferenceDataset.prefs self
                !! Z.to_nat (i / Z.of_nat (RepeatedPreferenceDataset.repeat self))
              = Some row →
              RepeatedPreferenceDataset.getitem self i = Ok (as_tensor row)).
  { intros i Hi row Hrow. unfold RepeatedPreferenceDataset.getitem.
    rewrite bool_decide_true by done. cbn [assert mbind result_bind].
    rewrite py_getitem_nonneg, Hrow; [done|].
    apply Z.div_pos; [lia|].
    unfold RepeatedPreferenceDataset.len in Hi. nia. }
  split; [|split].
  - intros Hi. unfold RepeatedPreferenceDataset.len in Hi.
    set (rep := RepeatedPreferenceDataset.repeat self) in *.
    assert (Hrep : (0 < Z.of_nat rep)%Z) by nia.
    destruct (lookup_lt_is_Some_2 (RepeatedPreferenceDataset.prefs self)
                (Z.to_nat (idx / Z.of_nat rep))) as [row Hrow].
    { apply Nat2Z.inj_lt. rewrite Z2Nat.id by (apply Z.div_pos; lia).
      apply Z.div_lt_upper_bound; [done|]. lia. }
    exists row. split; [done|]. by apply Hin.
  - intros Hi. unfold RepeatedPreferenceDataset.getitem.
    by rewrite bool_decide_false.
  - intros p r row Hrow Hr.
    set (rep := RepeatedPreferenceDataset.repeat self) in *.
    pose proof (lookup_lt_Some _ _ _ Hrow) as Hp.
    assert (Hdiv : (Z.of_nat (p * rep + r) / Z.of_nat rep)%Z = Z.of_nat p).
    { rewrite Nat2Z.inj_add, Nat2Z.inj_mul.
      rewrite Z.div_add_l by lia. rewrite Z.div_small by lia. lia. }
    apply Hin.
    + unfold RepeatedPreferenceDataset.len. fold rep. nia.
    + fold rep. by rewrite Hdiv, Nat2Z.id.
Qed.

Lemma training_dataset_item_witness :
  TrainingDataset.getitem
    (TrainingDataset.mk [2%Z; 0%Z] ["g0"; "g1"; "g2"] [10; 11; 12]) 0
  = Ok ("g2", 12).
Proof.
  apply (training_dataset_item
           (TrainingDataset.mk [2%Z; 0%Z] ["g0"; "g1"; "g2"] [10; 11; 12]) 0)
    with (v := 2%Z); done.
Defined.

Lemma repeated_preference_item_witness :
  RepeatedPreferenceDataset.getitem
    (RepeatedPreferenceDataset.mk [[qc 1 4; qc 3 4]; [qc 1 2; qc 1 2]] 3) 4
  = Ok (mkTensor [2] [Num (qc 1 2); Num (qc 1 2)]).
Proof.
  pose proof (repeated_preference_item
                (RepeatedPreferenceDataset.mk
                   [[qc 1 4; qc 3 4]; [qc 1 2; qc 1 2]] 3) 4) as H.
  cbv zeta in H. destruct H as (_ & _ & H).
  apply (H 1 1 [qc 1 2; qc 1 2]); [reflexivity|cbn; lia].
Defined.

(** ** The preferences of the validation *)

Lemma matrix_rows_lookup (f : nat → nat → Qc) (n k i : nat) :
  i < n →
  SEHMOOFragTrainer.matrix_rows f n k !! i = Some ((λ j, f i j) <$> seq 0 k).
Proof.
  intros Hi. unfold SEHMOOFragTrainer.matrix_rows.
  by rewrite list_lookup_fmap, lookup_seq_lt.
Qed.

(** X23. With [preference_type = "seeded_single"], a seed among the
    hyperparameters, at least one objective and at least one validation
    preference, [setup] keeps the first seeded draw only: the validation
    data hold it [n_valid_repeats_per_pref] times, and the task now returns
    the same vector in every row of the preferences that
    [sample_conditional_information] draws, so that training and validation
    use one preference. *)
Theorem seeded_single_preference (partition_hypersphere : list (list Qc))
    (seeded_dirichlet : Z → nat → nat → Qc)
    (dirichlet dirichlet_exp : nat → nat → Qc)
    (h : SEHMOOFragTrainer.hps) (task : SEHMOOTask.t) (s : Z) (n : nat)
    (idx : Z) :
  SEHMOOFragTrainer.preference_type h = Some "seeded_single" →
  SEHMOOFragTrainer.seed h = Some s →
  SEHMOOFragTrainer.objectives h ≠ [] →
  SEHMOOFragTrainer.n_valid_prefs h ≠ 0 →
  let row := (λ j, seeded_dirichlet (142857 + s)%Z 0 j)
               <$> seq 0 (length (SEHMOOFragTrainer.objectives h)) in
  let repeats := SEHMOOFragTrainer.n_valid_repeats_per_pref h in
  ∃ task' data,
    SEHMOOFragTrainer.setup_validation partition_hypersphere seeded_dirichlet
      h task = Ok (task', data)
    ∧ RepeatedPreferenceDataset.len data = repeats
    ∧ ((0 ≤ idx < Z.of_nat repeats)%Z →
       RepeatedPreferenceDataset.getitem data idx
       = Ok (mkTensor [length row] (Num <$> row)))
    ∧ SEHMOOTask.seeded_preference task' = Some row
    ∧ (n ≠ 0 →
       SEHMOOTask.draw_preferences dirichlet dirichlet_exp task' n
       = mkTensor [n; length (SEHMOOFragTrainer.objectives h)]
           (mjoin (replicate n (Num <$> row)))).
Proof.
  intros Hty Hseed _ Hn row repeats.
  unfold SEHMOOFragTrainer.setup_validation, SEHMOOFragTrainer.hps_seed.
  rewrite Hty, Hseed.
  rewrite decide_False by done. rewrite decide_True by done.
  cbn [mbind result_bind].
  rewrite py_getitem_nonneg by done. change (Z.to_nat 0) with 0.
  rewrite matrix_rows_lookup by lia. fold row.
  cbn [mbind result_bind SEHTask.read_local].
  eexists _, _. split; [reflexivity|].
  split; [|split; [|split]].
  - unfold RepeatedPreferenceDataset.len. cbn. subst repeats. lia.
  - intros Hidx.
    unfold RepeatedPreferenceDataset.getitem, RepeatedPreferenceDataset.len.
    cbn [RepeatedPreferenceDataset.prefs RepeatedPreferenceDataset.repeat length].
    fold repeats. rewrite bool_decide_true by lia.
    cbn [assert mbind result_bind].
    rewrite Z.div_small by lia. reflexivity.
  - reflexivity.
  - intros Hn0. unfold SEHMOOTask.draw_preferences.
    cbn [SEHMOOFragTrainer.set_seeded_preference SEHMOOTask.seeded_preference].
    rewrite decide_False by done. subst row.
    by rewrite length_fmap, length_seq.
Qed.

Lemma seeded_single_preference_witness :
  ∃ task' data,
    SEHMOOFragTrainer.setup_validation [] (λ _, SampleConditioning.dirichlet)
      (SEHMOOFragTrainer.mkHps ["seh"; "qed"] "constant" (ParamFloat (qc 60 1))
         2 true (Some "seeded_single") 15 128 (Some 0%Z))
      SampleConditioning.constant_moo = Ok (task', data)
    ∧ RepeatedPreferenceDataset.len data = 128
    ∧ SEHMOOTask.seeded_preference task' = Some [1%Qc; 0%Qc].
Proof.
  destruct (seeded_single_preference [] (λ _, SampleConditioning.dirichlet)
              SampleConditioning.dirichlet SampleConditioning.dirichlet
              (SEHMOOFragTrainer.mkHps ["seh"; "qed"] "constant"
                 (ParamFloat (qc 60 1)) 2 true (Some "seeded_single") 15 128
                 (Some 0%Z))
              SampleConditioning.constant_moo 0 1 0 eq_refl eq_refl
              ltac:(done) ltac:(done))
    as (task' & data & Hs & Hl & _ & Hseed & _).
  exists task', data. split; [exact Hs|]. split; [exact Hl|exact Hseed].
Defined.

(** X24. The other outcomes of the validation set-up. Without a
    preference type the validation data hold [n_valid_prefs] all-one
    vectors, each [n_valid_repeats_per_pref] times, and the task is
    unchanged. A type that no branch names leaves the preferences
    unassigned and raises [UnboundLocalError]. The two seeded types read the
    seed and raise [KeyError] when the hyperparameters have none; with a
    seed and at least one objective, ["seeded_many"] gives [n_valid_prefs]
    seeded draws and leaves the task unchanged, and ["seeded_single"]
    without any validation preference raises [IndexError], the first draw
    being absent. *)
Theorem setup_validation_outcomes (partition_hypersphere : list (list Qc))
    (seeded_dirichlet : Z → nat → nat → Qc)
    (h : SEHMOOFragTrainer.hps) (task : SEHMOOTask.t) (ty : string) (s : Z) :
  let r := SEHMOOFragTrainer.setup_validation partition_hypersphere
             seeded_dirichlet h task in
  let n_obj := length (SEHMOOFragTrainer.objectives h) in
  let n_prefs := SEHMOOFragTrainer.n_valid_prefs h in
  let repeats := SEHMOOFragTrainer.n_valid_repeats_per_pref h in
  (SEHMOOFragTrainer.preference_type h = None →
     r = Ok (task,
             RepeatedPreferenceDataset.mk
               (replicate n_prefs (replicate n_obj 1%Qc)) repeats))
  ∧ (SEHMOOFragTrainer.preference_type h = Some ty →
     ty ∉ ["dirichlet"; "seeded_single"; "seeded_many"] →
     r = Raise UnboundLocalError)
  ∧ (SEHMOOFragTrainer.preference_type h = Some ty →
     ty ∈ ["seeded_single"; "seeded_many"] →
     SEHMOOFragTrainer.seed h = None →
     r = Raise KeyError)
  ∧ (SEHMOOFragTrainer.preference_type h = Some "seeded_many" →
     SEHMOOFragTrainer.seed h = Some s → n_obj ≠ 0 →
     ∃ data, r = Ok (task, data)
             ∧ length (RepeatedPreferenceDataset.prefs data) = n_prefs
             ∧ (∀ i, i < n_prefs →
                  RepeatedPreferenceDataset.prefs data !! i
                  = Some ((λ j, seeded_dirichlet (142857 + s)%Z i j)
                            <$> seq 0 n_obj))
             ∧ RepeatedPreferenceDataset.len data = n_prefs * repeats)
  ∧ (SEHMOOFragTrainer.preference_type h = Some "seeded_single" →
     SEHMOOFragTrainer.seed h = Some s → n_obj ≠ 0 → n_prefs = 0 →
     r = Raise IndexError).
Proof.
  intros r n_obj n_prefs repeats. subst r.
  unfold SEHMOOFragTrainer.setup_validation, SEHMOOFragTrainer.hps_seed.
  fold n_obj n_prefs repeats.
  split; [|split; [|split; [|split]]].
  - by intros ->.
  - intros -> Hty.
    repeat (rewrite decide_False; [|intros ->; apply Hty; compute_done]).
    reflexivity.
  - intros -> Hty ->.
    apply elem_of_cons in Hty as [->|Hty]; [reflexivity|].
    apply elem_of_cons in Hty as [->|Hty]; [reflexivity|].
    by apply elem_of_nil in Hty.
  - intros -> -> _. cbn. eexists. split; [reflexivity|].
    unfold RepeatedPreferenceDataset.len. cbn [RepeatedPreferenceDataset.prefs
      RepeatedPreferenceDataset.repeat].
    assert (Hl : length (SEHMOOFragTrainer.matrix_rows
                           (seeded_dirichlet (142857 + s)%Z) n_prefs n_obj)
                 = n_prefs).
    { unfold SEHMOOFragTrainer.matrix_rows. by rewrite length_fmap, length_seq. }
    split; [exact Hl|]. split; [|by rewrite Hl].
    intros i Hi. by apply matrix_rows_lookup.
  - intros -> -> _ Hz. rewrite Hz. reflexivity.
Qed.

Lemma setup_validation_outcomes_witness :
  SEHMOOFragTrainer.setup_validation [] (λ _, SampleConditioning.dirichlet)
    (SEHMOOFragTrainer.mkHps ["seh"; "qed"] "constant" (ParamFloat (qc 60 1))
       2 true (Some "pareto") 15 128 None)
    SampleConditioning.constant_moo = Raise UnboundLocalError
  ∧ SEHMOOFragTrainer.setup_validation [] (λ _, SampleConditioning.dirichlet)
      (SEHMOOFragTrainer.mkHps ["seh"; "qed"] "constant" (ParamFloat (qc 60 1))
         2 true (Some "seeded_many") 15 128 None)
      SampleConditioning.constant_moo = Raise KeyError.
Proof.
  split.
  - pose proof (setup_validation_outcomes [] (λ _, SampleConditioning.dirichlet)
                  (SEHMOOFragTrainer.mkHps ["seh"; "qed"] "constant"
                     (ParamFloat (qc 60 1)) 2 true (Some "pareto") 15 128 None)
                  SampleConditioning.constant_moo "pareto" 0) as H.
    cbv zeta in H. destruct H as (_ & H & _).
    apply H; [reflexivity|compute_done].
  - pose proof (setup_validation_outcomes [] (λ _, SampleConditioning.dirichlet)
                  (SEHMOOFragTrainer.mkHps ["seh"; "qed"] "constant"
                     (ParamFloat (qc 60 1)) 2 true (Some "seeded_many") 15 128
                     None)
                  SampleConditioning.constant_moo "seeded_many" 0) as H.
    cbv zeta in H. destruct H as (_ & _ & H & _).
    apply H; [reflexivity|compute_done|reflexivity].
Defined.
